(** * LinkTracker: the record store, the short-code generator, the redirect
    pipeline and the link API, embedded from the TypeScript sources.

    - [src/lib/database.ts]: the store, from [readJSONFile] to [addClick],
      and the analytics [getLinkStats] and [getAnalyticsOverview]
    - [src/lib/link-generator.ts]: [generateRandomCode] to [sanitizeUrl]
    - [src/lib/validation.ts]: [customCodeSchema], [validateCustomCode],
      [validateCreateLinkData], [validatePassword]
    - [src/lib/device-detection.ts]: [isBot]
    - [src/lib/geolocation.ts]: [getClientIP], [getCombinedGeolocation]
    - [src/app/r/[shortCode]/route.ts]: [GET], [trackClick]
    - the routes of the link collection and of one link by id

    Modelling conventions.
    - A stored value whose shape the program does not control is a [jsval];
      a parsed request body is a [json], which may also hold an infinity;
      everything written only by typed code keeps its TypeScript type.
    - JavaScript strings are [string]s (bytes); the code units the sources
      inspect in them are all ASCII.  Where the length of a free text
      counts, in [validatePassword], the string is its list of UTF-16 code
      units.
    - A quotient of counters is kept as the exact rational that the code
      rounds to a double.
    - Effects are threaded explicitly: an operation is a function
      [World -> outcome A * World]; [Throw] is a raised exception.
    - The clock, the random generator, date parsing and the classifier and
      geolocation modules are inputs. *)

From Stdlib Require Import ZArith QArith Qround Qabs Ascii String DecimalString.
From stdpp Require Import gmap strings list fin_maps.

Local Open Scope string_scope.
Set Warnings "-register-all".

(** ** JavaScript values *)

(** The value of a JSON document, plus [undefined] for an absent property. *)
Inductive jsval : Type :=
  | JUndefined
  | JNull
  | JBool (b : bool)
  | JNum (q : Q)
  | JStr (s : string)
  | JArr (items : list jsval)
  | JObj (props : list (string * jsval)).

(** ToBoolean: [undefined], [null], [false], [0] and the empty string are
    falsy, everything else (arrays and objects included) is truthy. *)
Definition truthy (v : jsval) : bool :=
  match v with
  | JUndefined | JNull => false
  | JBool b => b
  | JNum q => negb (Qeq_bool q 0)
  | JStr s => negb (String.eqb s "")
  | JArr _ | JObj _ => true
  end.

(** [v === s] for a string [s]: strict equality never converts. *)
Definition strict_eq_str (v : jsval) (s : string) : bool :=
  match v with
  | JStr t => String.eqb t s
  | _ => false
  end.

(** Truthiness of a [string | undefined] / [string | null]. *)
Definition truthy_str (o : option string) : bool :=
  match o with
  | Some s => negb (String.eqb s "")
  | None => false
  end.

(** ** Records of [src/types/link.ts] *)

(** [TrackingLink].  The five properties that the PUT handler copies out of
    an unvalidated request body ([title], [description], [isActive],
    [expiresAt], [password]) can hold any JSON value at run time and are
    [jsval]s; the other nine are only ever written by typed code. *)
Record TrackingLink : Type := {
  id : string;
  originalUrl : string;
  shortCode : string;
  title : jsval;
  description : jsval;
  createdAt : string;
  updatedAt : string;
  isActive : jsval;
  expiresAt : jsval;
  password : jsval;
  userId : option string;
  totalClicks : nat;
  uniqueClicks : nat;
  lastClickAt : option string
}.

Inductive LocationSource : Type := src_ip | src_browser | src_both.

Record ClickLocation : Type := {
  country : option string;
  countryCode : option string;
  region : option string;
  city : option string;
  latitude : option Q;
  longitude : option Q;
  timezone : option string;
  isp : option string;
  accuracy : option Q;
  source : LocationSource
}.

Inductive DeviceType : Type := desktop | mobile | tablet | unknown.

Record DeviceInfo : Type := {
  type : DeviceType;
  browser : string;
  browserVersion : string;
  os : string;
  osVersion : string;
  screen : option (Q * Q)
}.

(** [LinkClick]; its [id] and [shortCode] are [click_id] and
    [click_shortCode] here, the names being taken by [TrackingLink]. *)
Record LinkClick : Type := {
  click_id : string;
  linkId : string;
  click_shortCode : string;
  timestamp : string;
  ipAddress : string;
  userAgent : string;
  referer : option string;
  location : ClickLocation;
  device : DeviceInfo;
  sessionId : string
}.

(** [Partial<TrackingLink>]: every property optional.  [lastClickAt] can be
    present with the value [undefined] ([Some None]). *)
Record PartialLink : Type := {
  p_id : option string;
  p_originalUrl : option string;
  p_shortCode : option string;
  p_title : option jsval;
  p_description : option jsval;
  p_createdAt : option string;
  p_updatedAt : option string;
  p_isActive : option jsval;
  p_expiresAt : option jsval;
  p_password : option jsval;
  p_userId : option (option string);
  p_totalClicks : option nat;
  p_uniqueClicks : option nat;
  p_lastClickAt : option (option string)
}.

(** ** The world: two JSON files and the fate of the next writes *)

Inductive outcome (A : Type) : Type :=
  | Ok (a : A)
  | Throw (message : string).
Arguments Ok {A} a.
Arguments Throw {A} message.

(** What [fs.readFile] followed by [JSON.parse] finds: the rows, or nothing
    usable (no file, an I/O error, text that does not parse). *)
Inductive File (T : Type) : Type :=
  | Unreadable
  | Contents (rows : list T).
Arguments Unreadable {T}.
Arguments Contents {T} rows.

(** [write_faults] lists, in order, whether each coming [fs.writeFile]
    rejects ([true]); past the end of the list writes succeed.  A rejected
    write leaves the file as it was. *)
Record World : Type := {
  links_file : File TrackingLink;
  clicks_file : File LinkClick;
  write_faults : list bool
}.

Definition M (A : Type) : Type := World -> outcome A * World.

Definition ret {A} (a : A) : M A := fun w => (Ok a, w).

Definition throw {A} (message : string) : M A := fun w => (Throw message, w).

Definition bind {A B} (m : M A) (k : A -> M B) : M B :=
  fun w =>
    match m w with
    | (Ok a, w') => k a w'
    | (Throw e, w') => (Throw e, w')
    end.

(** [try { m } catch (error) { h error }] *)
Definition try_catch {A} (m : M A) (h : string -> M A) : M A :=
  fun w =>
    match m w with
    | (Ok a, w') => (Ok a, w')
    | (Throw e, w') => h e w'
    end.

Notation "x <- m ;; k" := (bind m (fun x => k))
  (at level 100, m at next level, right associativity).
Notation "m ;;; k" := (bind m (fun _ => k))
  (at level 100, right associativity).

(** ** [src/lib/database.ts] *)

(** [LINKS_FILE] and [CLICKS_FILE], each with the type of its rows. *)
Inductive path : Type -> Type :=
  | LINKS_FILE : path TrackingLink
  | CLICKS_FILE : path LinkClick.

Definition file_at {T} (filePath : path T) (w : World) : File T :=
  match filePath in path T return File T with
  | LINKS_FILE => links_file w
  | CLICKS_FILE => clicks_file w
  end.

Definition store_at {T} (filePath : path T) (data : list T)
    (faults : list bool) (w : World) : World :=
  match filePath in path T return list T -> World with
  | LINKS_FILE => fun data =>
      {| links_file := Contents data; clicks_file := clicks_file w;
         write_faults := faults |}
  | CLICKS_FILE => fun data =>
      {| links_file := links_file w; clicks_file := Contents data;
         write_faults := faults |}
  end data.

(** [JSON.parse(await fs.readFile(filePath, 'utf8'))] *)
Definition readFile_parse {T} (filePath : path T) : M (list T) :=
  fun w =>
    match file_at filePath w with
    | Contents rows => (Ok rows, w)
    | Unreadable => (Throw "readFile or JSON.parse failed", w)
    end.

(** [readJSONFile]: the [catch] answers every failure with the empty array. *)
Definition readJSONFile {T} (filePath : path T) : M (list T) :=
  try_catch (readFile_parse filePath) (fun _ => ret []).

(** [writeJSONFile]: [fs.writeFile] is not guarded, its rejection propagates. *)
Definition writeJSONFile {T} (filePath : path T) (data : list T) : M unit :=
  fun w =>
    match write_faults w with
    | true :: rest =>
        (Throw "writeFile failed",
         {| links_file := links_file w; clicks_file := clicks_file w;
            write_faults := rest |})
    | false :: rest => (Ok tt, store_at filePath data rest w)
    | [] => (Ok tt, store_at filePath data [] w)
    end.

Definition getAllLinks : M (list TrackingLink) := readJSONFile LINKS_FILE.

Definition getAllClicks : M (list LinkClick) := readJSONFile CLICKS_FILE.

(** [Array.prototype.find] *)
Fixpoint find {A} (p : A -> bool) (l : list A) : option A :=
  match l with
  | [] => None
  | x :: rest => if p x then Some x else find p rest
  end.

(** [Array.prototype.findIndex], [None] for [-1] *)
Fixpoint findIndex {A} (p : A -> bool) (l : list A) : option nat :=
  match l with
  | [] => None
  | x :: rest => if p x then Some 0 else S <$> findIndex p rest
  end.

Definition getLinkByShortCode (code : string) : M (option TrackingLink) :=
  links <- getAllLinks ;;
  ret (find (fun link => String.eqb (shortCode link) code) links).

Definition getLinkById (i : string) : M (option TrackingLink) :=
  links <- getAllLinks ;;
  ret (find (fun link => String.eqb (id link) i) links).

Definition createLink (link : TrackingLink) : M unit :=
  links <- getAllLinks ;;
  writeJSONFile LINKS_FILE (links ++ [link]).

(** [{ ...link, ...updates, updatedAt: now }] *)
Definition spread (link : TrackingLink) (updates : PartialLink) (now : string)
  : TrackingLink :=
  {| id := default (id link) (p_id updates);
     originalUrl := default (originalUrl link) (p_originalUrl updates);
     shortCode := default (shortCode link) (p_shortCode updates);
     title := default (title link) (p_title updates);
     description := default (description link) (p_description updates);
     createdAt := default (createdAt link) (p_createdAt updates);
     updatedAt := now;
     isActive := default (isActive link) (p_isActive updates);
     expiresAt := default (expiresAt link) (p_expiresAt updates);
     password := default (password link) (p_password updates);
     userId := default (userId link) (p_userId updates);
     totalClicks := default (totalClicks link) (p_totalClicks updates);
     uniqueClicks := default (uniqueClicks link) (p_uniqueClicks updates);
     lastClickAt := default (lastClickAt link) (p_lastClickAt updates) |}.

(** [now] is [new Date().toISOString()] at the time of the call. *)
Definition updateLink (i : string) (updates : PartialLink) (now : string)
  : M bool :=
  links <- getAllLinks ;;
  match findIndex (fun link => String.eqb (id link) i) links with
  | None => ret false
  | Some index =>
      match links !! index with
      | None => ret false
      | Some link =>
          writeJSONFile LINKS_FILE (<[index := spread link updates now]> links) ;;;
          ret true
      end
  end.

Definition deleteLink (i : string) : M bool :=
  links <- getAllLinks ;;
  let filteredLinks :=
    List.filter (fun link => negb (String.eqb (id link) i)) links in
  if Nat.eqb (length filteredLinks) (length links) then ret false
  else
    writeJSONFile LINKS_FILE filteredLinks ;;;
    clicks <- getAllClicks ;;
    let filteredClicks :=
      List.filter (fun click => negb (String.eqb (linkId click) i)) clicks in
    writeJSONFile CLICKS_FILE filteredClicks ;;;
    ret true.

Definition getClicksByLinkId (i : string) : M (list LinkClick) :=
  clicks <- getAllClicks ;;
  ret (List.filter (fun click => String.eqb (linkId click) i) clicks).

(** [new Set(clicks.map(click => click.sessionId))] *)
Definition sessionIds (clicks : list LinkClick) : gset string :=
  list_to_set (sessionId <$> clicks).

Definition updateLinkStats (i : string) (now : string) : M unit :=
  clicks <- getClicksByLinkId i ;;
  let uniqueSessionIds := sessionIds clicks in
  let updates :=
    {| p_id := None; p_originalUrl := None; p_shortCode := None;
       p_title := None; p_description := None; p_createdAt := None;
       p_updatedAt := None; p_isActive := None; p_expiresAt := None;
       p_password := None; p_userId := None;
       p_totalClicks := Some (length clicks);
       p_uniqueClicks := Some (size uniqueSessionIds);
       p_lastClickAt := Some (timestamp <$> last clicks) |} in
  updateLink i updates now ;;;
  ret tt.

Definition addClick (click : LinkClick) (now : string) : M unit :=
  clicks <- getAllClicks ;;
  writeJSONFile CLICKS_FILE (clicks ++ [click]) ;;;
  updateLinkStats (linkId click) now.

(** ** [src/lib/link-generator.ts] *)

Definition CHARACTERS : string :=
  "ABCDEFGHIJKLMNOPQRSTUVWXYZabcdefghijklmnopqrstuvwxyz0123456789".

Definition SHORT_CODE_LENGTH : nat := 8.

(** [s.charAt(i)]: the empty string out of range. *)
Definition charAt (s : string) (i : nat) : string :=
  match String.get i s with
  | Some c => String c ""
  | None => ""
  end.

(** [generateRandomCode].  [random k] is the value of the [k]-th evaluation
    of [Math.floor(Math.random() * CHARACTERS.length)]; [pos] counts the
    evaluations made so far. *)
Fixpoint generateRandomCode (random : nat -> nat) (pos : nat) (len : nat)
  : string :=
  match len with
  | 0 => ""
  | S n => charAt CHARACTERS (random pos) ++ generateRandomCode random (S pos) n
  end.

Definition maxAttempts : nat := 10.

(** The [while (attempts < maxAttempts)] loop, [left] being
    [maxAttempts - attempts]; [None] when it falls through. *)
Fixpoint rollCodes (random : nat -> nat) (pos : nat) (left : nat)
  : M (option string) :=
  match left with
  | 0 => ret None
  | S n =>
      let code := generateRandomCode random pos SHORT_CODE_LENGTH in
      existing <- getLinkByShortCode code ;;
      match existing with
      | None => ret (Some code)
      | Some _ => rollCodes random (pos + SHORT_CODE_LENGTH) n
      end
  end.

Definition generateUniqueShortCode (customCode : option string)
    (random : nat -> nat) : M string :=
  if truthy_str customCode then
    let code := default "" customCode in
    existing <- getLinkByShortCode code ;;
    match existing with
    | Some _ => throw "Custom short code already exists"
    | None => ret code
    end
  else
    rolled <- rollCodes random 0 maxAttempts ;;
    match rolled with
    | Some code => ret code
    | None =>
        let longerCode :=
          generateRandomCode random (maxAttempts * SHORT_CODE_LENGTH)
                             (SHORT_CODE_LENGTH + 2) in
        existing <- getLinkByShortCode longerCode ;;
        match existing with
        | None => ret longerCode
        | Some _ => throw "Unable to generate unique short code"
        end
    end.

Definition in_range (lo hi : nat) (c : ascii) : bool :=
  (lo <=? nat_of_ascii c)%nat && (nat_of_ascii c <=? hi)%nat.

(** The character class [[a-zA-Z0-9_-]]. *)
Definition is_code_char (c : ascii) : bool :=
  in_range 97 122 c || in_range 65 90 c || in_range 48 57 c
  || Ascii.eqb c "_" || Ascii.eqb c "-".

Fixpoint all_chars (p : ascii -> bool) (s : string) : bool :=
  match s with
  | EmptyString => true
  | String c rest => p c && all_chars p rest
  end.

(** [/^[a-zA-Z0-9_-]+$/.test(code)]: one or more class characters, and
    nothing else up to the end of the input. *)
Definition code_regex_test (code : string) : bool :=
  negb (String.eqb code "") && all_chars is_code_char code.

Definition isValidCustomCode (code : string) : bool :=
  code_regex_test code
  && (3 <=? String.length code)%nat && (String.length code <=? 50)%nat.

(** [createTrackingLink]; [now] is the clock reading and [freshId] the value
    of [generateId()]. *)
Definition createTrackingLink (originalUrl shortCode : string)
    (o_title o_description o_password o_expiresAt : option string)
    (o_userId : option string) (now freshId : string) : TrackingLink :=
  let opt (o : option string) := from_option JStr JUndefined o in
  {| id := freshId; originalUrl := originalUrl; shortCode := shortCode;
     title := opt o_title; description := opt o_description;
     createdAt := now; updatedAt := now; isActive := JBool true;
     expiresAt := opt o_expiresAt; password := opt o_password;
     userId := o_userId; totalClicks := 0; uniqueClicks := 0;
     lastClickAt := None |}.

Definition isPasswordProtected (link : TrackingLink) : bool :=
  truthy (password link).

(** ** [src/lib/validation.ts] *)

(** [customCodeSchema]: the messages of the checks that fail, in the order
    the checks were declared; the value parses when there is none. *)
Definition customCodeSchema (code : string) : list string :=
  (if (3 <=? String.length code)%nat then []
   else ["Custom code must be at least 3 characters"])
  ++ (if (String.length code <=? 50)%nat then []
      else ["Custom code must be no more than 50 characters"])
  ++ (if code_regex_test code then []
      else ["Custom code can only contain letters, numbers, hyphens, and underscores"]).

(** [validateCustomCode]: [isValid] and the first message. *)
Definition validateCustomCode (code : string) : bool * option string :=
  match customCodeSchema code with
  | [] => (true, None)
  | message :: _ => (false, Some message)
  end.

(** ** JavaScript numbers and arrays used by the analytics *)

(** The result of a division of counters.  A finite result is kept as the
    exact rational, of which the code holds the nearest double; what the
    theorems say of such a number, they say up to that rounding. *)
Inductive jsnum : Type :=
  | Num (q : Q)
  | PosInfinity
  | NaN.

(** [a / b] for two non-negative integers. *)
Definition js_div (a b : nat) : jsnum :=
  match b, a with
  | 0, 0 => NaN
  | 0, S _ => PosInfinity
  | S _, _ => Num (Z.of_nat a # Pos.of_nat b)
  end.

(** [x * k] for a positive constant [k]. *)
Definition js_times (x : jsnum) (k : Q) : jsnum :=
  match x with
  | Num q => Num (q * k)
  | PosInfinity => PosInfinity
  | NaN => NaN
  end.

(** [Math.ceil(a / b)] for integers [a] and [b > 0]. *)
Definition ceil_div (a b : Z) : Z := (- ((- a) / b))%Z.

(** [Array.prototype.sort(compare)], which is stable: [x] is placed before
    the first element that it does not have to follow. *)
Fixpoint sort_insert {A} (compare : A -> A -> Z) (x : A) (sorted : list A)
  : list A :=
  match sorted with
  | [] => [x]
  | y :: rest =>
      if (0 <? compare x y)%Z then y :: sort_insert compare x rest
      else x :: y :: rest
  end.

Definition js_sort {A} (compare : A -> A -> Z) (l : list A) : list A :=
  foldr (sort_insert compare) [] l.

(** [array.slice(0, n)] *)
Definition slice0 {A} (n : nat) (l : list A) : list A := take n l.

(** A [Record<string, number>] filled by [m[k] = (m[k] || 0) + 1], kept in
    insertion order, the order in which [Object.entries] lists keys that are
    not array indices.  This is the object for keys that a plain object does
    not inherit; under [constructor], [__proto__] and the like the code finds
    the inherited value instead of a count. *)
Fixpoint bump (key : string) (counts : list (string * nat))
  : list (string * nat) :=
  match counts with
  | [] => [(key, 1)]
  | (k, n) :: rest =>
      if String.eqb k key then (k, n + 1) :: rest
      else (k, n) :: bump key rest
  end.

(** [s.split('T')[0]] *)
Fixpoint before_T (s : string) : string :=
  match s with
  | EmptyString => ""
  | String c rest => if Ascii.eqb c "T" then "" else String c (before_T rest)
  end.

Definition DeviceType_name (t : DeviceType) : string :=
  match t with
  | desktop => "desktop"
  | mobile => "mobile"
  | tablet => "tablet"
  | unknown => "unknown"
  end.

Module TopLocation.
Record t : Type := { country : string; clicks : nat; percentage : jsnum }.
End TopLocation.

Module LinkStats.
Record t : Type := {
    linkId : string;
    totalClicks : nat;
    uniqueClicks : nat;
    clicksByDate : list (string * nat);
    clicksByCountry : list (string * nat);
    clicksByDevice : list (string * nat);
    clicksByBrowser : list (string * nat);
    clicksByReferer : list (string * nat);
    averageClicksPerDay : jsnum;
    topLocations : list TopLocation.t;
    recentClicks : list LinkClick
  }.
End LinkStats.

Module TopLink.
Record t : Type := {
    id : string; title : jsval; shortCode : string; clicks : nat
  }.
End TopLink.

Module Activity.
Record t : Type := {
    linkId : string; shortCode : string; clicks : nat;
    timestamp : string; location : option string
  }.
End Activity.

Module AnalyticsOverview.
Record t : Type := {
    totalLinks : nat;
    totalClicks : nat;
    uniqueClicks : nat;
    clicksToday : nat;
    clicksThisWeek : nat;
    clicksThisMonth : nat;
    topPerformingLinks : list TopLink.t;
    recentActivity : list Activity.t
  }.
End AnalyticsOverview.

(** The five grouping objects of [getLinkStats]. *)
Record Groups : Type := {
  byDate : list (string * nat);
  byCountry : list (string * nat);
  byDevice : list (string * nat);
  byBrowser : list (string * nat);
  byReferer : list (string * nat)
}.

(** The body of [clicks.forEach(click => ...)]. *)
Definition group_click (g : Groups) (click : LinkClick) : Groups :=
  {| byDate := bump (before_T (timestamp click)) (byDate g);
     byCountry :=
       (if truthy_str (country (location click))
        then bump (default "" (country (location click))) (byCountry g)
        else byCountry g);
     byDevice := bump (DeviceType_name (type (device click))) (byDevice g);
     byBrowser := bump (browser (device click)) (byBrowser g);
     byReferer :=
       bump (if truthy_str (referer click) then default "" (referer click)
             else "Direct") (byReferer g) |}.

Definition no_groups : Groups :=
  {| byDate := []; byCountry := []; byDevice := []; byBrowser := [];
     byReferer := [] |}.

(** ** Requests and responses of the route handlers *)

(** What the redirect handler reads of a [NextRequest]: the route parameter,
    [url.searchParams.get('password')] and the headers, keyed by their
    lower-case names as [Headers.get] looks them up. *)
Record Request : Type := {
  req_shortCode : string;
  req_password : option string;
  req_headers : gmap string string
}.

(** The readings of one request: [Date.now()], [generateId()] and
    [generateSessionId()]. *)
Record Runtime : Type := {
  now : Z;
  freshId : string;
  freshSessionId : string
}.

(** [new NextResponse(body, { status })],
    [new NextResponse(generatePasswordPromptHTML(shortCode), { headers })]
    (no status given, hence 200, content type text/html) and
    [NextResponse.redirect(url, { status })].  The redirect is built from the
    stored [originalUrl], an absolute http(s) URL since the POST handler
    validated it and no handler changes it; building it is taken to succeed. *)
Inductive Response : Type :=
  | Text (body : string) (status : nat)
  | PasswordPrompt (shortCode : string)
  | Redirect (url : string) (status : nat).

Definition status_of (r : Response) : nat :=
  match r with
  | Text _ status => status
  | PasswordPrompt _ => 200
  | Redirect _ status => status
  end.

(** [NextResponse.json({ success: false, error }, { status })] and
    [NextResponse.json({ success: true, data })]. *)
Inductive ApiResponse : Type :=
  | ApiError (error : string) (status : nat)
  | ApiData (data : option TrackingLink).


(** [GeolocationResult] of [src/types/geo.ts]. *)
Record GeolocationResult : Type := {
  geo_country : option string;
  geo_countryCode : option string;
  geo_region : option string;
  geo_city : option string;
  geo_latitude : option Q;
  geo_longitude : option Q;
  geo_timezone : option string;
  geo_isp : option string;
  geo_accuracy : option Q;
  geo_source : LocationSource;
  geo_error : option string
}.

(** The result of [parseReferer]. *)
Inductive SourceType : Type :=
  | source_direct | source_search | source_social | source_email | source_other.

Record RefererInfo : Type := {
  domain : string;
  sourceType : SourceType;
  searchEngine : option string;
  socialPlatform : option string
}.

(** [a || b] for [a : string | null]. *)
Definition or_else (a : option string) (b : string) : string :=
  if truthy_str a then default "" a else b.

(** [a || undefined] *)
Definition or_undefined (a : option string) : option string :=
  if truthy_str a then a else None.

Definition lower_char (c : ascii) : ascii :=
  if in_range 65 90 c then ascii_of_nat (nat_of_ascii c + 32) else c.

(** [s.toLowerCase()] on ASCII letters. *)
Fixpoint toLowerCase (s : string) : string :=
  match s with
  | EmptyString => ""
  | String c rest => String (lower_char c) (toLowerCase rest)
  end.

(** [s.includes(pattern)] *)
Definition includes (s pattern : string) : bool :=
  match String.index 0 pattern s with
  | Some _ => true
  | None => false
  end.

(** [isBot] of [src/lib/device-detection.ts]. *)
Definition botPatterns : list string :=
  ["bot"; "crawler"; "spider"; "crawling";
   "facebook"; "twitter"; "google"; "bing";
   "yahoo"; "slurp"; "duckduckbot"; "baiduspider";
   "yandexbot"; "facebookexternalhit"; "twitterbot";
   "linkedinbot"; "whatsapp"; "telegram"; "skype"].

Definition isBot (userAgent : string) : bool :=
  let ua := toLowerCase userAgent in
  existsb (fun pattern => includes ua pattern) botPatterns.

(** ** Request bodies *)

(** A request body as [await request.json()] returns it.  Its numbers are
    doubles: a literal beyond their range, [1e999] say, parses to an
    infinity. *)
Inductive json : Type :=
  | JsonNull
  | JsonBool (b : bool)
  | JsonNumber (q : Q)
  | JsonInfinity (negative : bool)
  | JsonString (s : string)
  | JsonArray (items : list json)
  | JsonObject (props : list (string * json)).

(** The value as the store holds it, that is after [JSON.stringify] and
    [JSON.parse]: an infinity is written as [null], everything else as it
    is. *)
Fixpoint stored (v : json) : jsval :=
  match v with
  | JsonNull => JNull
  | JsonBool b => JBool b
  | JsonNumber q => JNum q
  | JsonInfinity _ => JNull
  | JsonString s => JStr s
  | JsonArray items => JArr (map stored items)
  | JsonObject props =>
      JObj (map (fun entry => let '(key, value) := entry in (key, stored value))
              props)
  end.

(** ToBoolean of a parsed value: an infinity is truthy. *)
Definition truthy_json (v : json) : bool :=
  match v with
  | JsonInfinity _ => true
  | _ => truthy (stored v)
  end.

(** ** The PUT handler's view of a request body *)

Definition allowedUpdates : list string :=
  ["title"; "description"; "isActive"; "password"; "expiresAt"].

Definition index_key (n : nat) : string :=
  NilEmpty.string_of_uint (Nat.to_uint n).

Fixpoint string_items (s : string) : list json :=
  match s with
  | EmptyString => []
  | String c rest => JsonString (String c "") :: string_items rest
  end.

(** [Object.entries(body)].  It throws on [null]; numbers and booleans have
    no own properties; strings and arrays list their indices.  A key written
    twice in the document is listed twice here, the later value winning in
    the loop below as it does in [JSON.parse]. *)
Definition Object_entries (body : json) : outcome (list (string * json)) :=
  match body with
  | JsonNull => Throw "Cannot convert undefined or null to object"
  | JsonBool _ | JsonNumber _ | JsonInfinity _ => Ok []
  | JsonString s => Ok (imap (fun i v => (index_key i, v)) (string_items s))
  | JsonArray items => Ok (imap (fun i v => (index_key i, v)) items)
  | JsonObject props => Ok props
  end.

(** [for (const [key, value] of entries) if (allowedUpdates.includes(key))
    updates[key] = value], from [updates = {}]. *)
Definition collect_updates (entries : list (string * json))
  : gmap string json :=
  fold_left
    (fun updates '(key, value) =>
       if bool_decide (key ∈ allowedUpdates) then <[key := value]> updates
       else updates)
    entries ∅.

(** Reading a property of an [any] object at a property type of
    [TrackingLink].  The outer [None] marks a value outside that type, which
    the typed embedding of [updateLink] cannot store; the PUT handler never
    produces one ([as_partial_collect] below). *)
Definition typed {T} (decode : json -> option T) (updates : gmap string json)
    (key : string) : option (option T) :=
  match updates !! key with
  | None => Some None
  | Some v => Some <$> decode v
  end.

Definition as_string (v : json) : option string :=
  match v with
  | JsonString s => Some s
  | _ => None
  end.

Definition as_count (v : json) : option nat :=
  match v with
  | JsonNumber q =>
      if Qeq_bool q (inject_Z (Qfloor q)) && (0 <=? Qfloor q)%Z
      then Some (Z.to_nat (Qfloor q)) else None
  | _ => None
  end.

Definition as_optional_string (v : json) : option (option string) :=
  match v with
  | JsonString s => Some (Some s)
  | _ => None
  end.

(** The unchecked passage from [updates: any] to [Partial<TrackingLink>].
    The five properties that the handler copies are taken as the store will
    hold them: [updateLink] only writes the merged link to the file, so the
    value in memory, an infinity say, is never seen again. *)
Definition as_partial (updates : gmap string json) : option PartialLink :=
  u_id ← typed as_string updates "id";
  u_originalUrl ← typed as_string updates "originalUrl";
  u_shortCode ← typed as_string updates "shortCode";
  u_createdAt ← typed as_string updates "createdAt";
  u_updatedAt ← typed as_string updates "updatedAt";
  u_userId ← typed as_optional_string updates "userId";
  u_totalClicks ← typed as_count updates "totalClicks";
  u_uniqueClicks ← typed as_count updates "uniqueClicks";
  u_lastClickAt ← typed as_optional_string updates "lastClickAt";
  Some {| p_id := u_id; p_originalUrl := u_originalUrl;
          p_shortCode := u_shortCode;
          p_title := stored <$> updates !! "title";
          p_description := stored <$> updates !! "description";
          p_createdAt := u_createdAt; p_updatedAt := u_updatedAt;
          p_isActive := stored <$> updates !! "isActive";
          p_expiresAt := stored <$> updates !! "expiresAt";
          p_password := stored <$> updates !! "password";
          p_userId := u_userId; p_totalClicks := u_totalClicks;
          p_uniqueClicks := u_uniqueClicks;
          p_lastClickAt := u_lastClickAt |}.

Definition lift {A} (o : outcome A) : M A := fun w => (o, w).

Definition cast (o : option PartialLink) : M PartialLink :=
  match o with
  | Some updates => ret updates
  | None => throw "value outside the declared type of TrackingLink"
  end.

(** [{ ...link, password: undefined }] *)
Definition hide_password (link : TrackingLink) : TrackingLink :=
  {| id := id link; originalUrl := originalUrl link;
     shortCode := shortCode link; title := title link;
     description := description link; createdAt := createdAt link;
     updatedAt := updatedAt link; isActive := isActive link;
     expiresAt := expiresAt link; password := JUndefined;
     userId := userId link; totalClicks := totalClicks link;
     uniqueClicks := uniqueClicks link; lastClickAt := lastClickAt link |}.

Definition day_ms : Z := 1000 * 60 * 60 * 24.

Section Handlers.

(** The time value of [new Date(v)], [None] for an invalid date. *)
Variable Date_of : jsval -> option Z.

(** [new Date(v)] for a value of a parsed body.  It is an input of its own
    because such a value may hold an infinity, which no stored value does. *)
Variable Date_of_json : json -> option Z.

(** [new Date(t).toISOString()] *)
Variable toISOString : Z -> string.

(** The classifier and resolver modules, taken as collaborators that may
    raise: [getClientIP] and [getIPGeolocation] of [src/lib/geolocation.ts],
    [parseUserAgent] and [parseReferer] of [src/lib/device-detection.ts]. *)
Variable getClientIP : Request -> outcome string.
Variable parseUserAgent : string -> outcome DeviceInfo.
Variable parseReferer : option string -> outcome RefererInfo.
Variable getIPGeolocation : string -> outcome GeolocationResult.

(** [isLinkExpired]: [new Date(link.expiresAt) < new Date()], a comparison
    that is false when the left side is an invalid date. *)
Definition isLinkExpired (link : TrackingLink) (now : Z) : bool :=
  if negb (truthy (expiresAt link)) then false
  else
    match Date_of (expiresAt link) with
    | Some t => (t <? now)%Z
    | None => false
    end.

(** *** [src/app/r/[shortCode]/route.ts] *)

Definition trackClick (request : Request) (linkId shortCode : string)
    (rt : Runtime) : M unit :=
  try_catch
    (let userAgent := or_else (req_headers request !! "user-agent") "" in
     let referer := or_undefined (req_headers request !! "referer") in
     ip <- lift (getClientIP request) ;;
     deviceInfo <- lift (parseUserAgent userAgent) ;;
     refererInfo <- lift (parseReferer referer) ;;
     location <- lift (getIPGeolocation ip) ;;
     let sessionId := freshSessionId rt in
     let click :=
       {| click_id := freshId rt;
          linkId := linkId;
          click_shortCode := shortCode;
          timestamp := toISOString (now rt);
          ipAddress := ip;
          userAgent := userAgent;
          referer := referer;
          location :=
            {| country := geo_country location;
               countryCode := geo_countryCode location;
               region := geo_region location;
               city := geo_city location;
               latitude := geo_latitude location;
               longitude := geo_longitude location;
               timezone := geo_timezone location;
               isp := geo_isp location;
               accuracy := None;
               source := geo_source location |};
          device := deviceInfo;
          sessionId := sessionId |} in
     addClick click (toISOString (now rt)))
    (fun _ => ret tt).

Definition GET (request : Request) (rt : Runtime) : M Response :=
  try_catch
    (let shortCode := req_shortCode request in
     link <- getLinkByShortCode shortCode ;;
     match link with
     | None => ret (Text "Link not found" 404)
     | Some link =>
         if negb (truthy (isActive link))
         then ret (Text "Link is disabled" 410)
         else if isLinkExpired link (now rt)
         then ret (Text "Link has expired" 410)
         else if isPasswordProtected link
                 && (negb (truthy_str (req_password request))
                     || negb (strict_eq_str (password link)
                                (default "" (req_password request))))
         then ret (PasswordPrompt shortCode)
         else
           let userAgent := or_else (req_headers request !! "user-agent") "" in
           let shouldTrack := negb (isBot userAgent) in
           (if shouldTrack then trackClick request (id link) shortCode rt
            else ret tt) ;;;
           ret (Redirect (originalUrl link) 302)
     end)
    (fun _ => ret (Text "Internal server error" 500)).

(** *** [src/app/api/links/[id]/route.ts] *)

(** [updates.expiresAt && new Date(updates.expiresAt) <= new Date()]; an
    absent property reads as [undefined], which is falsy. *)
Definition expiresAt_rejected (updates : gmap string json) (now : Z) : bool :=
  match updates !! "expiresAt" with
  | Some v =>
      truthy_json v
      && match Date_of_json v with
         | Some t => (t <=? now)%Z
         | None => false
         end
  | None => false
  end.

(** [body] is the result of [await request.json()], [Throw] when the body is
    not JSON. *)
Definition PUT (i : string) (body : outcome json) (rt : Runtime)
  : M ApiResponse :=
  try_catch
    (body <- lift body ;;
     link <- getLinkById i ;;
     match link with
     | None => ret (ApiError "Link not found" 404)
     | Some _ =>
         entries <- lift (Object_entries body) ;;
         let updates := collect_updates entries in
         if expiresAt_rejected updates (now rt)
         then ret (ApiError "Expiration date must be in the future" 400)
         else
           partial <- cast (as_partial updates) ;;
           success <- updateLink i partial (toISOString (now rt)) ;;
           if negb success
           then ret (ApiError "Failed to update link" 500)
           else
             updatedLink <- getLinkById i ;;
             ret (ApiData (hide_password <$> updatedLink))
     end)
    (fun _ => ret (ApiError "Failed to update link" 500)).

(** *** The analytics of [src/lib/database.ts] *)

(** [new Date(b.timestamp).getTime() - new Date(a.timestamp).getTime()]; a
    [NaN] difference counts as [0] for [sort]. *)
Definition newest_first (a b : LinkClick) : Z :=
  match Date_of (JStr (timestamp b)), Date_of (JStr (timestamp a)) with
  | Some tb, Some ta => (tb - ta)%Z
  | _, _ => 0%Z
  end.

Definition most_clicks_first (a b : TopLocation.t) : Z :=
  (Z.of_nat (TopLocation.clicks b) - Z.of_nat (TopLocation.clicks a))%Z.

Definition top_link_order (a b : TopLink.t) : Z :=
  (Z.of_nat (TopLink.clicks b) - Z.of_nat (TopLink.clicks a))%Z.

(** [Math.max(1, Math.ceil((Date.now() - new Date(createdAt).getTime())
    / (1000 * 60 * 60 * 24)))], [None] for [NaN]. *)
Definition daysSinceCreation (link : TrackingLink) (now : Z) : option Z :=
  t ← Date_of (JStr (createdAt link));
  Some (Z.max 1 (ceil_div (now - t) day_ms)).

Definition to_top_location (link : TrackingLink) (entry : string * nat)
  : TopLocation.t :=
  {| TopLocation.country := entry.1;
     TopLocation.clicks := entry.2;
     TopLocation.percentage :=
       js_times (js_div entry.2 (totalClicks link)) 100 |}.

Definition getLinkStats (i : string) (now : Z) : M (option LinkStats.t) :=
  link <- getLinkById i ;;
  match link with
  | None => ret None
  | Some link =>
      clicks <- getClicksByLinkId i ;;
      let groups := fold_left group_click clicks no_groups in
      let topLocations :=
        slice0 10 (js_sort most_clicks_first
                     (to_top_location link <$> byCountry groups)) in
      let averageClicksPerDay :=
        match daysSinceCreation link now with
        | Some days => Num (Z.of_nat (totalClicks link) # Z.to_pos days)
        | None => NaN
        end in
      let recentClicks := slice0 50 (js_sort newest_first clicks) in
      let uniqueSessionIds := sessionIds clicks in
      ret (Some
        {| LinkStats.linkId := id link;
           LinkStats.totalClicks := totalClicks link;
           LinkStats.uniqueClicks := size uniqueSessionIds;
           LinkStats.clicksByDate := byDate groups;
           LinkStats.clicksByCountry := byCountry groups;
           LinkStats.clicksByDevice := byDevice groups;
           LinkStats.clicksByBrowser := byBrowser groups;
           LinkStats.clicksByReferer := byReferer groups;
           LinkStats.averageClicksPerDay := averageClicksPerDay;
           LinkStats.topLocations := topLocations;
           LinkStats.recentClicks := recentClicks |})
  end.

(** [`${a}`] for a [string | undefined] *)
Definition show (a : option string) : string := default "undefined" a.

Definition to_activity (click : LinkClick) : Activity.t :=
  {| Activity.linkId := linkId click;
     Activity.shortCode := click_shortCode click;
     Activity.clicks := 1;
     Activity.timestamp := timestamp click;
     Activity.location :=
       if truthy_str (city (location click))
       then Some (show (city (location click)) ++ ", "
                  ++ show (country (location click)))
       else country (location click) |}.

Definition to_top_link (link : TrackingLink) : TopLink.t :=
  {| TopLink.id := id link;
     TopLink.title :=
       if truthy (title link) then title link else JStr (originalUrl link);
     TopLink.shortCode := shortCode link;
     TopLink.clicks := totalClicks link |}.

Definition getAnalyticsOverview (now : Z) : M AnalyticsOverview.t :=
  links <- getAllLinks ;;
  clicks <- getAllClicks ;;
  let today := before_T (toISOString now) in
  let thisWeek := toISOString (now - 7 * day_ms) in
  let thisMonth := toISOString (now - 30 * day_ms) in
  let clicksToday :=
    length (List.filter (fun click => String.prefix today (timestamp click))
              clicks) in
  let clicksThisWeek :=
    length (List.filter (fun click => String.leb thisWeek (timestamp click))
              clicks) in
  let clicksThisMonth :=
    length (List.filter (fun click => String.leb thisMonth (timestamp click))
              clicks) in
  let linkClickCounts :=
    slice0 5 (js_sort top_link_order (to_top_link <$> links)) in
  let recentClicks :=
    to_activity <$> slice0 10 (js_sort newest_first clicks) in
  let uniqueSessionIds := sessionIds clicks in
  ret {| AnalyticsOverview.totalLinks := length links;
         AnalyticsOverview.totalClicks := length clicks;
         AnalyticsOverview.uniqueClicks := size uniqueSessionIds;
         AnalyticsOverview.clicksToday := clicksToday;
         AnalyticsOverview.clicksThisWeek := clicksThisWeek;
         AnalyticsOverview.clicksThisMonth := clicksThisMonth;
         AnalyticsOverview.topPerformingLinks := linkClickCounts;
         AnalyticsOverview.recentActivity := recentClicks |}.

End Handlers.

(** ** Further functions of [src/lib/link-generator.ts] *)

(** [validateLinkPassword] *)
Definition validateLinkPassword (link : TrackingLink) (given : string) : bool :=
  if negb (truthy (password link)) then true
  else strict_eq_str (password link) given.

(** [generateTrackingUrl] on the server, where [window] is undefined. *)
Definition generateTrackingUrl (shortCode : string) (baseUrl : option string)
  : string :=
  or_else baseUrl "http://localhost:3000" ++ "/r/" ++ shortCode.

(** What the sources read of a parsed [URL]. *)
Record URL : Type := {
  protocol : string;
  hostname : string;
  href : string
}.

Section UrlHelpers.

(** [new URL(s)], [None] when the constructor throws. *)
Variable new_URL : string -> option URL.

Definition isValidUrl (url : string) : bool :=
  match new_URL url with
  | Some parsedUrl =>
      String.eqb (protocol parsedUrl) "http:"
      || String.eqb (protocol parsedUrl) "https:"
  | None => false
  end.

Definition extractDomain (url : string) : string :=
  match new_URL url with
  | Some parsedUrl => hostname parsedUrl
  | None => "unknown"
  end.


End UrlHelpers.

(** ** Further functions of [src/lib/validation.ts] *)

(** A JavaScript string as [length] and a regular expression without the
    [u] flag see it: the sequence of its UTF-16 code units. *)
Definition code_units : Type := list N.

(** The code units of an ASCII literal. *)
Definition units_of (s : string) : code_units :=
  N_of_ascii <$> list_ascii_of_string s.

Definition unit_between (lo hi c : N) : bool := (lo <=? c)%N && (c <=? hi)%N.

(** The character class of the last test of [validatePassword]: the
    punctuation below and the double quote, code unit 34. *)
Definition special_units : code_units :=
  34%N :: units_of "!@#$%^&*(),.?:{}|<>".

Definition is_special_unit (c : N) : bool := existsb (N.eqb c) special_units.

(** [regex.test(s)] for a regex that is one character class. *)
Definition any_unit (p : N -> bool) (s : code_units) : bool := existsb p s.

Inductive Strength : Type := weak | medium | strong.

Module PasswordCheck.
Record t : Type := {
  isValid : bool;
  strength : Strength;
  issues : list string
}.
End PasswordCheck.

Definition validatePassword (password : code_units) : PasswordCheck.t :=
  let issues :=
    ((if (length password <? 8)%nat
      then ["Password should be at least 8 characters long"] else [])
     ++ (if negb (any_unit (unit_between 65 90) password)
         then ["Password should contain at least one uppercase letter"]
         else [])
     ++ (if negb (any_unit (unit_between 97 122) password)
         then ["Password should contain at least one lowercase letter"]
         else [])
     ++ (if negb (any_unit (unit_between 48 57) password)
         then ["Password should contain at least one number"] else [])
     ++ (if negb (any_unit is_special_unit password)
         then ["Password should contain at least one special character"]
         else []))%list in
  let strength :=
    if (length issues =? 0)%nat then strong
    else if (length issues <=? 2)%nat then medium
    else weak in
  {| PasswordCheck.isValid := (length issues =? 0)%nat;
     PasswordCheck.strength := strength;
     PasswordCheck.issues := issues |}.

(** ** Further functions of [src/lib/geolocation.ts] *)

(** The white space that [String.prototype.trim] removes, among the code
    units of a header value (a byte string, one character per byte): tab to
    carriage return, space and no-break space. *)
Definition is_space (c : ascii) : bool :=
  in_range 9 13 c || Ascii.eqb c " " || (nat_of_ascii c =? 160)%nat.

Fixpoint trimStart (s : string) : string :=
  match s with
  | EmptyString => ""
  | String c rest => if is_space c then trimStart rest else s
  end.

Fixpoint trimEnd (s : string) : string :=
  match s with
  | EmptyString => ""
  | String c rest =>
      match trimEnd rest with
      | EmptyString => if is_space c then "" else String c ""
      | kept => String c kept
      end
  end.

Definition trim (s : string) : string := trimEnd (trimStart s).

(** [s.split(',')[0]] *)
Fixpoint before_comma (s : string) : string :=
  match s with
  | EmptyString => ""
  | String c rest =>
      if Ascii.eqb c "," then "" else String c (before_comma rest)
  end.

Module Geolocation.

Definition getClientIP (request : Request) : string :=
  let forwarded := req_headers request !! "x-forwarded-for" in
  let realIp := req_headers request !! "x-real-ip" in
  let cfConnectingIp := req_headers request !! "cf-connecting-ip" in
  if truthy_str forwarded then trim (before_comma (default "" forwarded))
  else if truthy_str realIp then trim (default "" realIp)
  else if truthy_str cfConnectingIp then trim (default "" cfConnectingIp)
  else "127.0.0.1".

(** [a || b] for two [number | undefined]: zero is falsy. *)
Definition or_number (a b : option Q) : option Q :=
  match a with
  | Some q => if Qeq_bool q 0 then b else a
  | None => b
  end.

Definition getCombinedGeolocation (ipLocation : GeolocationResult)
    (browserLocation : option GeolocationResult) : GeolocationResult :=
  match browserLocation with
  | None => ipLocation
  | Some browserLocation =>
      if truthy_str (geo_error browserLocation) then ipLocation
      else if truthy_str (geo_error ipLocation) then browserLocation
      else
        {| geo_country := geo_country ipLocation;
           geo_countryCode := geo_countryCode ipLocation;
           geo_region := geo_region ipLocation;
           geo_city := geo_city ipLocation;
           geo_latitude :=
             or_number (geo_latitude browserLocation) (geo_latitude ipLocation);
           geo_longitude :=
             or_number (geo_longitude browserLocation)
               (geo_longitude ipLocation);
           geo_timezone := geo_timezone ipLocation;
           geo_isp := geo_isp ipLocation;
           geo_accuracy := geo_accuracy browserLocation;
           geo_source := src_both;
           geo_error := None |}
  end.

End Geolocation.

(** ** The routes of the link collection and of one link *)

(** The data of a parsed [createLinkSchema]. *)
Module CreateLinkInput.
Record t : Type := {
  originalUrl : string;
  customCode : option string;
  title : option string;
  description : option string;
  password : option string;
  expiresAt : option string
}.
End CreateLinkInput.

(** What [createLinkSchema.parse(data)] does: it returns the parsed data,
    throws a [ZodError] with its messages, or throws something else. *)
Inductive ParseResult : Type :=
  | Parsed (data : CreateLinkInput.t)
  | ZodError (messages : list string)
  | OtherError.

Module Validation.
Record t : Type := {
  isValid : bool;
  data : option CreateLinkInput.t;
  errors : option (list string)
}.
End Validation.

(** [validateCreateLinkData] of [src/lib/validation.ts], over the parser of
    the schema. *)
Definition validateCreateLinkData (parse : json -> ParseResult) (data : json)
  : Validation.t :=
  match parse data with
  | Parsed validatedData =>
      {| Validation.isValid := true; Validation.data := Some validatedData;
         Validation.errors := None |}
  | ZodError messages =>
      {| Validation.isValid := false; Validation.data := None;
         Validation.errors := Some messages |}
  | OtherError =>
      {| Validation.isValid := false; Validation.data := None;
         Validation.errors := Some ["Invalid data"] |}
  end.

(** The route [/api/links]: [GET] lists the links, [POST] creates one. *)
Module LinksRoute.

Inductive Response : Type :=
  | Error (error : string) (details : option (list string)) (status : nat)
  | Links (data : list TrackingLink)
  | Created (data : TrackingLink) (shortUrl : string).

Definition status_of (r : Response) : nat :=
  match r with
  | Error _ _ status => status
  | Links _ => 200
  | Created _ _ => 201
  end.

Definition GET : M Response :=
  try_catch
    (links <- getAllLinks ;;
     ret (Links (hide_password <$> links)))
    (fun _ => ret (Error "Failed to fetch links" None 500)).

Section Post.

Variable createLinkSchema_parse : json -> ParseResult.
Variable new_URL : string -> option URL.
Variable toISOString : Z -> string.

(** [body] is the result of [await request.json()], [random] the draws of
    the generator. *)
Definition POST (body : outcome json) (headers : gmap string string)
    (random : nat -> nat) (rt : Runtime) : M Response :=
  try_catch
    (body <- lift body ;;
     let validation := validateCreateLinkData createLinkSchema_parse body in
     if negb (Validation.isValid validation)
     then ret (Error "Invalid input data" (Validation.errors validation) 400)
     else
       input <- lift
         (match Validation.data validation with
          | Some input => Ok input
          | None => Throw "Cannot destructure property of undefined"
          end) ;;
       if negb (isValidUrl new_URL (CreateLinkInput.originalUrl input))
       then ret (Error "Invalid URL format" None 400)
       else if truthy_str (CreateLinkInput.customCode input)
               && negb (isValidCustomCode
                          (default "" (CreateLinkInput.customCode input)))
       then ret (Error "Invalid custom code format" None 400)
       else
         try_catch
           (shortCode <- generateUniqueShortCode
                           (CreateLinkInput.customCode input) random ;;
            let trackingLink :=
              createTrackingLink (CreateLinkInput.originalUrl input) shortCode
                (CreateLinkInput.title input)
                (CreateLinkInput.description input)
                (CreateLinkInput.password input)
                (CreateLinkInput.expiresAt input)
                None (toISOString (now rt)) (freshId rt) in
            createLink trackingLink ;;;
            let baseUrl := or_else (headers !! "origin") "http://localhost:3000" in
            let shortUrl := baseUrl ++ "/r/" ++ shortCode in
            ret (Created (hide_password trackingLink) shortUrl))
           (fun message =>
              if String.eqb message "Custom short code already exists"
              then ret (Error "Custom short code already exists" None 409)
              else throw message))
    (fun _ => ret (Error "Failed to create link" None 500)).

End Post.

End LinksRoute.

(** The route [/api/links/{id}]: [GET] and [DELETE]; its [PUT] is above. *)
Module LinksIdRoute.

Inductive Response : Type :=
  | Error (error : string) (status : nat)
  | Link (data : TrackingLink) (stats : option (option LinkStats.t))
  | Message (message : string).

Definition status_of (r : Response) : nat :=
  match r with
  | Error _ status => status
  | Link _ _ => 200
  | Message _ => 200
  end.

Section Get.

Variable Date_of : jsval -> option Z.

(** [includeStats] is [searchParams.get('includeStats')]; with it, the
    response data gains the property [stats]. *)
Definition GET (i : string) (includeStats : option string) (rt : Runtime)
  : M Response :=
  try_catch
    (link <- getLinkById i ;;
     match link with
     | None => ret (Error "Link not found" 404)
     | Some link =>
         if from_option (String.eqb "true") false includeStats
         then
           stats <- getLinkStats Date_of i (now rt) ;;
           ret (Link (hide_password link) (Some stats))
         else ret (Link (hide_password link) None)
     end)
    (fun _ => ret (Error "Failed to fetch link" 500)).

End Get.

Definition DELETE (i : string) : M Response :=
  try_catch
    (link <- getLinkById i ;;
     match link with
     | None => ret (Error "Link not found" 404)
     | Some _ =>
         success <- deleteLink i ;;
         if negb success then ret (Error "Failed to delete link" 500)
         else ret (Message "Link deleted successfully")
     end)
    (fun _ => ret (Error "Failed to delete link" 500)).

End LinksIdRoute.

(** ** Observations used in the statements *)

(** The rows a read returns for a file. *)
Definition rows_of {T} (f : File T) : list T :=
  match f with
  | Contents rows => rows
  | Unreadable => []
  end.

(** The clicks of a link, as [getClicksByLinkId] filters them. *)
Definition clicks_of (i : string) (w : World) : list LinkClick :=
  List.filter (fun click => String.eqb (linkId click) i)
    (rows_of (clicks_file w)).

(** The link with a given id or short code, as [find] picks it. *)
Definition link_by_id (i : string) (w : World) : option TrackingLink :=
  find (fun link => String.eqb (id link) i) (rows_of (links_file w)).

Definition link_by_code (code : string) (w : World) : option TrackingLink :=
  find (fun link => String.eqb (shortCode link) code) (rows_of (links_file w)).

(** The alphabet of the generator as a test on characters. *)
Definition is_alphabet_char (c : ascii) : bool :=
  existsb (Ascii.eqb c) (list_ascii_of_string CHARACTERS).

(** The [k]-th code of the retry loop and the longer code drawn after it. *)
Definition attempt (random : nat -> nat) (k : nat) : string :=
  generateRandomCode random (k * SHORT_CODE_LENGTH) SHORT_CODE_LENGTH.

Definition longer_attempt (random : nat -> nat) : string :=
  generateRandomCode random (maxAttempts * SHORT_CODE_LENGTH)
    (SHORT_CODE_LENGTH + 2).

(** The specification's wording for a custom code: only alphanumeric
    characters, hyphens and underscores. *)
Definition code_alphabet (s : string) : Prop :=
  forall c, In c (list_ascii_of_string s) ->
    is_alphabet_char c = true \/ c = "-"%char \/ c = "_"%char.

(** "Expired": [expiresAt] is set and denotes an instant strictly before
    [now]. *)
Definition expired_at (Date_of : jsval -> option Z) (link : TrackingLink)
    (now : Z) : Prop :=
  truthy (expiresAt link) = true
  /\ exists t, Date_of (expiresAt link) = Some t /\ (t < now)%Z.

(** The password parameter of a request is absent or differs from the
    stored password. *)
Definition password_not_given (request : Request) (link : TrackingLink) : Prop :=
  req_password request = None
  \/ exists given, req_password request = Some given
       /\ password link <> JStr given.

(** The value a request body gives to a key: its last binding. *)
Fixpoint last_value {V} (key : string) (entries : list (string * V))
  : option V :=
  match entries with
  | [] => None
  | (k, v) :: rest =>
      match last_value key rest with
      | Some later => Some later
      | None => if String.eqb k key then Some v else None
      end
  end.


(** The clicks recorded from a country. *)
Definition clicks_from (name : string) (clicks : list LinkClick)
  : list LinkClick :=
  List.filter (fun click => bool_decide (country (location click) = Some name))
    clicks.

(** The country keys that [getLinkStats] counts, click by click. *)
Definition country_keys (clicks : list LinkClick) : list string :=
  flat_map
    (fun click =>
       if truthy_str (country (location click))
       then [default "" (country (location click))] else [])
    clicks.

(** The count stored under a key of a grouping object, 0 when absent. *)
Definition count_in (counts : list (string * nat)) (key : string) : nat :=
  match find (fun entry => String.eqb entry.1 key) counts with
  | Some entry => entry.2
  | None => 0
  end.

(** The store with each unreadable file replaced by an empty array. *)
Definition blank (w : World) : World :=
  {| links_file := Contents (rows_of (links_file w));
     clicks_file := Contents (rows_of (clicks_file w));
     write_faults := write_faults w |}.

(** The overview of an empty store. *)
Definition empty_overview : AnalyticsOverview.t :=
  {| AnalyticsOverview.totalLinks := 0;
     AnalyticsOverview.totalClicks := 0;
     AnalyticsOverview.uniqueClicks := 0;
     AnalyticsOverview.clicksToday := 0;
     AnalyticsOverview.clicksThisWeek := 0;
     AnalyticsOverview.clicksThisMonth := 0;
     AnalyticsOverview.topPerformingLinks := [];
     AnalyticsOverview.recentActivity := [] |}.

(** The patch that [updateLinkStats] computes from the clicks of a link. *)
Definition stats_update (clicks : list LinkClick) : PartialLink :=
  {| p_id := None; p_originalUrl := None; p_shortCode := None;
     p_title := None; p_description := None; p_createdAt := None;
     p_updatedAt := None; p_isActive := None; p_expiresAt := None;
     p_password := None; p_userId := None;
     p_totalClicks := Some (length clicks);
     p_uniqueClicks := Some (size (sessionIds clicks));
     p_lastClickAt := Some (timestamp <$> last clicks) |}.

(** Every link that a lookup by id returns carries the counts of its clicks. *)
Definition counters_consistent (w : World) : Prop :=
  forall i l, link_by_id i w = Some l ->
    totalClicks l = length (clicks_of i w)
    /\ uniqueClicks l = size (sessionIds (clicks_of i w)).

(** No two links share a short code. *)
Definition codes_unique (w : World) : Prop :=
  NoDup (shortCode <$> rows_of (links_file w)).

(** The sum of the counts of a grouping object. *)
Definition total_count (counts : list (string * nat)) : nat :=
  sum_list counts.*2.

(** The clicks that carry a non-empty country. *)
Definition located (clicks : list LinkClick) : list LinkClick :=
  List.filter (fun click => truthy_str (country (location click))) clicks.

(** A list in descending order of a key. *)
Fixpoint descending {A} (key : A -> Z) (l : list A) : Prop :=
  match l with
  | [] => True
  | x :: rest =>
      (forall y, y ∈ rest -> (key y <= key x)%Z) /\ descending key rest
  end.

(** The time value of a click's timestamp, 0 when it is not a date. *)
Definition time_of (Date_of : jsval -> option Z) (click : LinkClick) : Z :=
  default 0%Z (Date_of (JStr (timestamp click))).

(** One of the next [n] writes fails. *)
Definition write_fails (n : nat) (w : World) : bool :=
  existsb (fun fault => fault) (take n (write_faults w)).

(** The links that a response of the link routes shows. *)
Definition links_shown (r : LinksRoute.Response) : list TrackingLink :=
  match r with
  | LinksRoute.Error _ _ _ => []
  | LinksRoute.Links data => data
  | LinksRoute.Created data _ => [data]
  end.

Definition link_shown (r : LinksIdRoute.Response) : list TrackingLink :=
  match r with
  | LinksIdRoute.Link data _ => [data]
  | _ => []
  end.

Definition data_shown (r : ApiResponse) : list TrackingLink :=
  match r with
  | ApiData (Some data) => [data]
  | _ => []
  end.


(** The property names that a plain object inherits from [Object.prototype].
    Under such a key [m[k] = (m[k] || 0) + 1] does not count: it finds the
    inherited value, not a number. *)
Definition inherited_keys : list string :=
  ["__proto__"; "constructor"; "hasOwnProperty"; "isPrototypeOf";
   "propertyIsEnumerable"; "toLocaleString"; "toString"; "valueOf";
   "__defineGetter__"; "__defineSetter__"; "__lookupGetter__";
   "__lookupSetter__"].

(** The keys under which [getLinkStats] counts a click, the device type
    apart, which is one of four fixed names. *)
Definition group_keys (click : LinkClick) : list string :=
  [before_T (timestamp click);
   default "" (country (location click));
   browser (device click);
   if truthy_str (referer click) then default "" (referer click)
   else "Direct"].

(** No click is counted under an inherited property name. *)
Definition plain_keys (clicks : list LinkClick) : Prop :=
  forall click key,
    click ∈ clicks -> key ∈ group_keys click -> key ∉ inherited_keys.

(** The relative error that two roundings to the nearest double can add up
    to: each is at most [2^-53]. *)
Definition double_rounding : Q := 1 # (2 ^ 51).

(** [q] is [exact] up to double rounding. *)
Definition close_to (exact q : Q) : Prop :=
  (Qabs (q - exact) <= double_rounding * Qabs exact)%Q.

(** [max(1, ceil(elapsed / unit))] without division: the least number of
    units, at least one, that cover [elapsed]. *)
Definition units_covering (elapsed unit days : Z) : Prop :=
  (1 <= days /\ elapsed <= days * unit
   /\ (days = 1 \/ (days - 1) * unit < elapsed))%Z.

(** ** Sample stores and requests used in the examples *)

Definition sample_link (i code url : string) : TrackingLink :=
  createTrackingLink url code None None None None None
    "2024-01-01T00:00:00.000Z" i.

Definition store_of (links : list TrackingLink) (clicks : list LinkClick)
  : World :=
  {| links_file := Contents links; clicks_file := Contents clicks;
     write_faults := [] |}.

(** A store with one link whose short code is [promo]. *)
Definition promo_link : TrackingLink :=
  sample_link "l1" "promo" "https://example.com".

Definition promo_store : World := store_of [promo_link] [].

(** A second link that asks for the same short code. *)
Definition promo_again : TrackingLink :=
  sample_link "l2" "promo" "https://example.org".

(** A store in which the code [AAAAAAAA] is taken; a generator that always
    draws index 0 produces only that code at length 8. *)
Definition crowded_store : World :=
  store_of [sample_link "l1" "AAAAAAAA" "https://example.com"] [].

Fixpoint replicate_char (n : nat) (c : ascii) : string :=
  match n with
  | 0 => ""
  | S m => String c (replicate_char m c)
  end.

(** A reading of dates for the examples: a number is its own time value and
    three written dates are known; anything else is an invalid date. *)
Definition sample_Date_of (v : jsval) : option Z :=
  match v with
  | JNum q => Some (Qfloor q)
  | JStr "2020-01-01T00:00:00.000Z" => Some 1577836800000%Z
  | JStr "2024-01-01T00:00:00.000Z" => Some 1704067200000%Z
  | JStr "2030-01-01T00:00:00.000Z" => Some 1893456000000%Z
  | _ => None
  end.

(** [new Date(null)] is the epoch; an infinity is no date. *)
Definition sample_Date_of_json (v : json) : option Z :=
  match v with
  | JsonNull => Some 0%Z
  | JsonInfinity _ => None
  | _ => sample_Date_of (stored v)
  end.

Definition sample_toISOString (t : Z) : string := "2025-06-01T12:00:00.000Z".

Definition sample_runtime : Runtime :=
  {| now := 1748779200000; freshId := "c1"; freshSessionId := "session_1" |}.

Definition sample_device : DeviceInfo :=
  {| type := desktop; browser := "Firefox"; browserVersion := "126";
     os := "Linux"; osVersion := "Unknown"; screen := None |}.

(** A browser request for [/r/promo] without a password parameter. *)
Definition promo_request : Request :=
  {| req_shortCode := "promo"; req_password := None;
     req_headers := {[ "user-agent" := "Mozilla/5.0 Firefox/126.0" ]} |}.

(** Collaborators of a bad day: the geolocation service is down. *)
Definition failing_geolocation (ip : string) : outcome GeolocationResult :=
  Throw "fetch failed".

Definition sample_getClientIP (request : Request) : outcome string :=
  Ok "127.0.0.1".

Definition sample_parseUserAgent (ua : string) : outcome DeviceInfo :=
  Ok sample_device.

Definition sample_parseReferer (r : option string) : outcome RefererInfo :=
  Ok {| domain := "direct"; sourceType := source_direct;
        searchEngine := None; socialPlatform := None |}.

(** The promo store on a disk that rejects the next write. *)
Definition promo_store_faulty : World :=
  {| links_file := Contents [promo_link]; clicks_file := Contents [];
     write_faults := [true] |}.



Definition garbled_expiry_body : json :=
  JsonObject [("expiresAt", JsonString "soon")].



(** [{"isActive": 1e999}] and [{"title": 1e999}] *)
Definition overflow_body : json :=
  JsonObject [("isActive", JsonInfinity false);
              ("title", JsonInfinity false)].

Definition sample_click (cid link code session : string)
    (from : option string) : LinkClick :=
  {| click_id := cid; linkId := link; click_shortCode := code;
     timestamp := "2024-01-01T00:00:00.000Z"; ipAddress := "127.0.0.1";
     userAgent := "Mozilla/5.0 Firefox/126.0"; referer := None;
     location :=
       {| country := from; countryCode := None; region := None; city := None;
          latitude := None; longitude := None; timezone := None; isp := None;
          accuracy := None; source := src_ip |};
     device := sample_device; sessionId := session |}.

(** The promo link after four clicks, one of which has no country. *)
Definition promo_link_clicked : TrackingLink :=
  spread promo_link
    {| p_id := None; p_originalUrl := None; p_shortCode := None;
       p_title := None; p_description := None; p_createdAt := None;
       p_updatedAt := None; p_isActive := None; p_expiresAt := None;
       p_password := None; p_userId := None; p_totalClicks := Some 4;
       p_uniqueClicks := Some 4;
       p_lastClickAt := Some (Some "2024-01-01T00:00:00.000Z") |}
    "2024-01-01T00:00:00.000Z".

Definition clicked_store : World :=
  store_of [promo_link_clicked]
    [sample_click "c1" "l1" "promo" "s1" (Some "France");
     sample_click "c2" "l1" "promo" "s2" (Some "Peru");
     sample_click "c3" "l1" "promo" "s3" (Some "France");
     sample_click "c4" "l1" "promo" "s4" None].

(** The first click on the promo link. *)
Definition first_click : LinkClick :=
  sample_click "c1" "l1" "promo" "s1" (Some "France").

(** A world whose two files cannot be read. *)
Definition unreadable_store : World :=
  {| links_file := Unreadable; clicks_file := Unreadable; write_faults := [] |}.

(** The promo link after a PUT at the sample time that sets [expiresAt]. *)
Definition promo_link_expiring (value : jsval) : TrackingLink :=
  {| id := "l1"; originalUrl := "https://example.com"; shortCode := "promo";
     title := JUndefined; description := JUndefined;
     createdAt := "2024-01-01T00:00:00.000Z";
     updatedAt := "2025-06-01T12:00:00.000Z";
     isActive := JBool true; expiresAt := value;
     password := JUndefined; userId := None;
     totalClicks := 0; uniqueClicks := 0; lastClickAt := None |}.

(** Three gated links: one disabled, one expired in 2020, one protected by
    the password [secret1]. *)
Definition disabled_link : TrackingLink :=
  spread (sample_link "l3" "off" "https://example.com/off")
    {| p_id := None; p_originalUrl := None; p_shortCode := None;
       p_title := None; p_description := None; p_createdAt := None;
       p_updatedAt := None; p_isActive := Some (JBool false);
       p_expiresAt := None; p_password := None; p_userId := None;
       p_totalClicks := None; p_uniqueClicks := None; p_lastClickAt := None |}
    "2024-01-01T00:00:00.000Z".

Definition expired_link : TrackingLink :=
  createTrackingLink "https://example.com/old" "old" None None None
    (Some "2020-01-01T00:00:00.000Z") None "2019-01-01T00:00:00.000Z" "l4".

Definition secret_link : TrackingLink :=
  createTrackingLink "https://example.com/vip" "vip" None None
    (Some "secret1") None None "2024-01-01T00:00:00.000Z" "l5".

Definition gated_store : World :=
  store_of [promo_link; disabled_link; expired_link; secret_link] [].

Definition request_for (code : string) (given : option string)
    (agent : string) : Request :=
  {| req_shortCode := code; req_password := given;
     req_headers := {[ "user-agent" := agent ]} |}.

Definition sample_geolocation (ip : string) : outcome GeolocationResult :=
  Ok {| geo_country := Some "France"; geo_countryCode := Some "FR";
        geo_region := None; geo_city := Some "Paris"; geo_latitude := None;
        geo_longitude := None; geo_timezone := None; geo_isp := None;
        geo_accuracy := None; geo_source := src_ip; geo_error := None |}.

(** The redirect handler with the sample collaborators. *)
Definition sample_GET : Request -> Runtime -> M Response :=
  GET sample_Date_of sample_toISOString sample_getClientIP
    sample_parseUserAgent sample_parseReferer sample_geolocation.

(** Stand-ins for [new URL] and for the parser of [createLinkSchema] in the
    examples: URLs of the form [https://host], and bodies with an
    [originalUrl], optionally followed by a [customCode] or a [password]. *)
Definition sample_new_URL (url : string) : option URL :=
  if String.prefix "https://" url
  then Some {| protocol := "https:";
               hostname := String.substring 8 (String.length url - 8) url;
               href := url ++ "/" |}
  else None.

Definition sample_input (url : string) (code given : option string)
  : CreateLinkInput.t :=
  {| CreateLinkInput.originalUrl := url; CreateLinkInput.customCode := code;
     CreateLinkInput.title := None; CreateLinkInput.description := None;
     CreateLinkInput.password := given; CreateLinkInput.expiresAt := None |}.

Definition sample_parse (body : json) : ParseResult :=
  match body with
  | JsonObject [("originalUrl", JsonString url)] =>
      Parsed (sample_input url None None)
  | JsonObject [("originalUrl", JsonString url);
                ("customCode", JsonString code)] =>
      Parsed (sample_input url (Some code) None)
  | JsonObject [("originalUrl", JsonString url);
                ("password", JsonString given)] =>
      Parsed (sample_input url None (Some given))
  | _ => ZodError ["Required"]
  end.

(** The POST handler with the sample collaborators; its generator draws the
    first character of the alphabet every time. *)
Definition sample_POST (body : json) (origin : option string) : M LinksRoute.Response :=
  LinksRoute.POST sample_parse sample_new_URL sample_toISOString (Ok body)
    (from_option (fun o => {[ "origin" := o ]}) ∅ origin)
    (fun _ => 0) sample_runtime.

Definition docs_body : json :=
  JsonObject [("originalUrl", JsonString "https://example.org");
              ("customCode", JsonString "docs")].

Definition promo_body : json :=
  JsonObject [("originalUrl", JsonString "https://example.org");
              ("customCode", JsonString "promo")].

Definition secret_body : json :=
  JsonObject [("originalUrl", JsonString "https://example.org");
              ("password", JsonString "hunter2")].

(** A crawler's request for [/r/promo]. *)
Definition crawler_request : Request :=
  request_for "promo" None "Mozilla/5.0 (compatible; Googlebot/2.1)".

Definition switch_off_body : json := JsonObject [("isActive", JsonNumber 0)].

(** Requests that came through a proxy. *)
Definition proxied_request (forwarded : string) : Request :=
  {| req_shortCode := "promo"; req_password := None;
     req_headers := {[ "x-forwarded-for" := forwarded;
                       "x-real-ip" := "10.0.0.2" ]} |}.

(** * Properties *)

(** ** The embedding at a few inputs *)

Example isBot_crawler : isBot "Mozilla/5.0 (compatible; Googlebot/2.1)" = true.
Proof. reflexivity. Qed.

Example isBot_browser : isBot "Mozilla/5.0 Firefox/126.0" = false.
Proof. reflexivity. Qed.

Example charAt_last : charAt CHARACTERS 61 = "9".
Proof. reflexivity. Qed.

Example charAt_out_of_range : charAt CHARACTERS 62 = "".
Proof. reflexivity. Qed.

Example generateRandomCode_draws :
  generateRandomCode (fun k => 26 + k) 0 SHORT_CODE_LENGTH = "abcdefgh".
Proof. reflexivity. Qed.

Example isValidCustomCode_accepts : isValidCustomCode "spring-sale_24" = true.
Proof. reflexivity. Qed.

Example isValidCustomCode_too_short : isValidCustomCode "ab" = false.
Proof. reflexivity. Qed.

Example isValidCustomCode_bad_char : isValidCustomCode "a b c" = false.
Proof. reflexivity. Qed.

Example customCodeSchema_messages :
  customCodeSchema "a!"
  = ["Custom code must be at least 3 characters";
     "Custom code can only contain letters, numbers, hyphens, and underscores"].
Proof. reflexivity. Qed.

Example bump_counts :
  fold_left (fun counts key => bump key counts) ["FR"; "PE"; "FR"] []
  = [("FR", 2); ("PE", 1)].
Proof. reflexivity. Qed.

Example js_sort_is_stable :
  js_sort (fun a b : string * nat => (Z.of_nat b.2 - Z.of_nat a.2)%Z)
    [("a", 1); ("b", 2); ("c", 1); ("d", 2)]
  = [("b", 2); ("d", 2); ("a", 1); ("c", 1)].
Proof. reflexivity. Qed.

Example ceil_div_rounds_up : ceil_div 86400001 day_ms = 2%Z.
Proof. reflexivity. Qed.

Example ceil_div_of_negative : ceil_div (-5) day_ms = 0%Z.
Proof. reflexivity. Qed.

Example collect_updates_drops_id :
  collect_updates [("id", JsonString "l9"); ("title", JsonString "t")] !! "id"
  = None
  /\ collect_updates [("id", JsonString "l9"); ("title", JsonString "t")]
     !! "title"
     = Some (JsonString "t").
Proof. split; reflexivity. Qed.

Example Object_entries_of_string :
  Object_entries (JsonString "ab")
  = Ok [("0", JsonString "a"); ("1", JsonString "b")].
Proof. reflexivity. Qed.

(** ** Running the store operations *)

Lemma readJSONFile_run {T} (filePath : path T) (w : World) :
  readJSONFile filePath w = (Ok (rows_of (file_at filePath w)), w).
Proof.
  unfold readJSONFile, try_catch, readFile_parse.
  destruct (file_at filePath w); reflexivity.
Qed.

Lemma getAllLinks_run (w : World) :
  getAllLinks w = (Ok (rows_of (links_file w)), w).
Proof. apply (readJSONFile_run LINKS_FILE). Qed.

Lemma getAllClicks_run (w : World) :
  getAllClicks w = (Ok (rows_of (clicks_file w)), w).
Proof. apply (readJSONFile_run CLICKS_FILE). Qed.

Lemma getLinkById_run (i : string) (w : World) :
  getLinkById i w = (Ok (link_by_id i w), w).
Proof. unfold getLinkById, bind. rewrite getAllLinks_run. reflexivity. Qed.

Lemma getLinkByShortCode_run (code : string) (w : World) :
  getLinkByShortCode code w = (Ok (link_by_code code w), w).
Proof. unfold getLinkByShortCode, bind. rewrite getAllLinks_run. reflexivity. Qed.

Lemma getClicksByLinkId_run (i : string) (w : World) :
  getClicksByLinkId i w = (Ok (clicks_of i w), w).
Proof. unfold getClicksByLinkId, bind. rewrite getAllClicks_run. reflexivity. Qed.

Lemma bind_ok {A B} (m : M A) (k : A -> M B) (w w1 : World) (a : A) :
  m w = (Ok a, w1) -> bind m k w = k a w1.
Proof. unfold bind. intros ->. reflexivity. Qed.

Lemma bind_throw {A B} (m : M A) (k : A -> M B) (w w1 : World) (e : string) :
  m w = (Throw e, w1) -> bind m k w = (Throw e, w1).
Proof. unfold bind. intros ->. reflexivity. Qed.

Lemma try_catch_ok {A} (m : M A) (h : string -> M A) (w w1 : World) (a : A) :
  m w = (Ok a, w1) -> try_catch m h w = (Ok a, w1).
Proof. unfold try_catch. intros ->. reflexivity. Qed.

Lemma try_catch_throw {A} (m : M A) (h : string -> M A) (w w1 : World)
    (e : string) :
  m w = (Throw e, w1) -> try_catch m h w = h e w1.
Proof. unfold try_catch. intros ->. reflexivity. Qed.

(** A write either raises and leaves both files alone, or stores the data. *)
Lemma writeJSONFile_cases {T} (filePath : path T) (data : list T) (w : World) :
  (exists e w', writeJSONFile filePath data w = (Throw e, w')
     /\ links_file w' = links_file w /\ clicks_file w' = clicks_file w)
  \/ (exists w', writeJSONFile filePath data w = (Ok tt, w')
     /\ w' = store_at filePath data (tail (write_faults w)) w).
Proof.
  unfold writeJSONFile.
  destruct (write_faults w) as [|[] rest]; simpl; eauto 10.
Qed.

Lemma writeJSONFile_no_fault {T} (filePath : path T) (data : list T) (w : World) :
  write_faults w = [] ->
  writeJSONFile filePath data w = (Ok tt, store_at filePath data [] w).
Proof. unfold writeJSONFile. intros ->. reflexivity. Qed.

Lemma writeJSONFile_pass {T} (filePath : path T) (data : list T) (w : World)
    (rest : list bool) :
  write_faults w = false :: rest ->
  writeJSONFile filePath data w = (Ok tt, store_at filePath data rest w).
Proof. unfold writeJSONFile. intros ->. reflexivity. Qed.

Lemma writeJSONFile_fault {T} (filePath : path T) (data : list T) (w : World)
    (rest : list bool) :
  write_faults w = true :: rest ->
  writeJSONFile filePath data w
  = (Throw "writeFile failed",
     {| links_file := links_file w; clicks_file := clicks_file w;
        write_faults := rest |}).
Proof. unfold writeJSONFile. intros ->. reflexivity. Qed.

(** ** [find] and [findIndex] *)

Lemma find_findIndex {A} (p : A -> bool) (l : list A) (x : A) :
  find p l = Some x ->
  exists index, findIndex p l = Some index /\ l !! index = Some x.
Proof.
  induction l as [|y l IH]; simpl; [discriminate|].
  destruct (p y) eqn:Hy.
  - intros [= ->]. exists 0. split; reflexivity.
  - intros Hx. destruct (IH Hx) as (index & Hi & Hl).
    exists (S index). rewrite Hi. split; [reflexivity | exact Hl].
Qed.

Lemma findIndex_find {A} (p : A -> bool) (l : list A) (index : nat) :
  findIndex p l = Some index ->
  exists x, l !! index = Some x /\ find p l = Some x /\ p x = true.
Proof.
  revert index. induction l as [|y l IH]; simpl; intros index; [discriminate|].
  destruct (p y) eqn:Hy.
  - intros [= <-]. exists y. auto.
  - destruct (findIndex p l) as [j|] eqn:Hj; simpl; [|discriminate].
    intros [= <-]. destruct (IH j eq_refl) as (x & Hl & Hf & Hp).
    exists x. auto.
Qed.

Lemma find_None_findIndex {A} (p : A -> bool) (l : list A) :
  find p l = None -> findIndex p l = None.
Proof.
  induction l as [|y l IH]; simpl; [reflexivity|].
  destruct (p y); [discriminate|]. intros H. rewrite (IH H). reflexivity.
Qed.

(** Overwriting the first match with another match keeps it the first. *)
Lemma find_insert_first {A} (p : A -> bool) (l : list A) (index : nat) (y : A) :
  findIndex p l = Some index -> p y = true ->
  find p (<[index := y]> l) = Some y.
Proof.
  revert index. induction l as [|x l IH]; simpl; intros index; [discriminate|].
  destruct (p x) eqn:Hx.
  - intros [= <-] Hy. simpl. rewrite Hy. reflexivity.
  - destruct (findIndex p l) as [j|] eqn:Hj; simpl; [|discriminate].
    intros [= <-] Hy. simpl. rewrite Hx. apply IH; auto.
Qed.

(** A search that cannot tell [x] from [y] is not affected by the overwrite. *)
Lemma find_insert_other {A} (q : A -> bool) (l : list A) (index : nat) (x y : A) :
  l !! index = Some x -> q y = q x -> (q x = true -> y = x) ->
  find q (<[index := y]> l) = find q l.
Proof.
  revert index. induction l as [|z l IH]; intros index; [discriminate|].
  destruct index as [|j]; simpl.
  - intros [= ->] Hq Hsame. rewrite Hq. destruct (q x); [|reflexivity].
    rewrite Hsame; auto.
  - intros Hl Hq Hsame. destruct (q z); [reflexivity|]. eapply IH; eauto.
Qed.

Lemma filter_snoc {A} (p : A -> bool) (l : list A) (x : A) :
  List.filter p (l ++ [x]) = (List.filter p l ++ (if p x then [x] else []))%list.
Proof. rewrite List.filter_app. reflexivity. Qed.

(** ** [addClick] keeps the counters of the owning link (C1) *)

Lemma size_sessionIds (clicks : list LinkClick) :
  size (sessionIds clicks) = length (remove_dups (sessionId <$> clicks)).
Proof.
  unfold sessionIds.
  rewrite <- (size_list_to_set (C:=gset string) (remove_dups (sessionId <$> clicks)))
    by apply NoDup_remove_dups.
  f_equal. apply set_eq. intros x.
  rewrite !elem_of_list_to_set, elem_of_remove_dups. reflexivity.
Qed.

Lemma size_sessionIds_one (c : LinkClick) : size (sessionIds [c]) = 1.
Proof.
  change (sessionIds [c]) with ({[sessionId c]} ∪ ∅ : gset string).
  rewrite union_empty_r_L. apply size_singleton.
Qed.

Lemma last_snoc_click (l : list LinkClick) (c : LinkClick) :
  last (l ++ [c]) = Some c.
Proof. apply last_snoc. Qed.

Lemma clicks_of_store_links (i : string) (data : list TrackingLink)
    (faults : list bool) (w : World) :
  clicks_of i (store_at LINKS_FILE data faults w) = clicks_of i w.
Proof. reflexivity. Qed.

(** What [updateLink] does when the link exists and the write goes through. *)
Lemma updateLink_found (i : string) (updates : PartialLink) (nowS : string)
    (w : World) (link : TrackingLink) :
  link_by_id i w = Some link ->
  exists index,
    findIndex (fun l => String.eqb (id l) i) (rows_of (links_file w)) = Some index
    /\ rows_of (links_file w) !! index = Some link
    /\ updateLink i updates nowS w =
       bind (writeJSONFile LINKS_FILE
               (<[index := spread link updates nowS]> (rows_of (links_file w))))
            (fun _ => ret true) w.
Proof.
  intros Hfind. destruct (find_findIndex _ _ _ Hfind) as (index & Hi & Hl).
  exists index. split; [exact Hi|]. split; [exact Hl|].
  unfold updateLink. unfold bind at 1. rewrite getAllLinks_run.
  rewrite Hi, Hl. reflexivity.
Qed.

Lemma updateLink_missing (i : string) (updates : PartialLink) (nowS : string)
    (w : World) :
  link_by_id i w = None -> updateLink i updates nowS w = (Ok false, w).
Proof.
  intros Hfind. unfold updateLink, bind. rewrite getAllLinks_run.
  rewrite (find_None_findIndex _ _ Hfind). reflexivity.
Qed.

(** C1.  When [addClick c] completes for a click whose link is in the store,
    the stored link carries [totalClicks] = the number of click rows with
    that [linkId], [uniqueClicks] = the number of distinct [sessionId]s among
    them and [lastClickAt] = [c.timestamp]; after the first click of a link
    the counters are 1 and 1.  Without write faults [addClick] completes. *)
Theorem addClick_recomputes_counters
    (c : LinkClick) (nowS : string) (w : World) (l : TrackingLink) :
  getLinkById (linkId c) w = (Ok (Some l), w) ->
  (forall w', addClick c nowS w = (Ok tt, w') ->
     exists l',
       getLinkById (linkId c) w' = (Ok (Some l'), w')
       /\ getClicksByLinkId (linkId c) w'
          = (Ok (clicks_of (linkId c) w ++ [c])%list, w')
       /\ totalClicks l' = length (clicks_of (linkId c) w')
       /\ uniqueClicks l' = size (sessionIds (clicks_of (linkId c) w'))
       /\ uniqueClicks l'
          = length (remove_dups (sessionId <$> clicks_of (linkId c) w'))
       /\ lastClickAt l' = Some (timestamp c)
       /\ (clicks_of (linkId c) w = [] ->
           totalClicks l' = 1 /\ uniqueClicks l' = 1))
  /\ (write_faults w = [] -> exists w', addClick c nowS w = (Ok tt, w')).
Proof.
  rewrite getLinkById_run. intros [= Hl].
  assert (Hclicks : forall faults,
    clicks_of (linkId c)
      (store_at CLICKS_FILE (rows_of (clicks_file w) ++ [c])%list faults w)
    = (clicks_of (linkId c) w ++ [c])%list).
  { intros faults. unfold clicks_of. simpl. rewrite filter_snoc.
    rewrite String.eqb_refl. reflexivity. }
  assert (Hlink : forall faults,
    link_by_id (linkId c)
      (store_at CLICKS_FILE (rows_of (clicks_file w) ++ [c])%list faults w)
    = Some l) by (intros faults; exact Hl).
  split.
  - intros w' Hrun. unfold addClick in Hrun. unfold bind at 1 in Hrun.
    rewrite getAllClicks_run in Hrun. unfold bind at 1 in Hrun.
    destruct (writeJSONFile_cases CLICKS_FILE
                (rows_of (clicks_file w) ++ [c])%list w)
      as [(e & w1 & Hw & _)|(w1 & Hw & Hw1)];
      rewrite Hw in Hrun; [discriminate|].
    unfold updateLinkStats in Hrun. unfold bind at 1 in Hrun.
    rewrite getClicksByLinkId_run in Hrun. unfold bind at 1 in Hrun.
    subst w1. set (w1 := store_at CLICKS_FILE _ _ w) in *.
    destruct (updateLink_found (linkId c)
      {| p_id := None; p_originalUrl := None; p_shortCode := None;
         p_title := None; p_description := None; p_createdAt := None;
         p_updatedAt := None; p_isActive := None; p_expiresAt := None;
         p_password := None; p_userId := None;
         p_totalClicks := Some (length (clicks_of (linkId c) w1));
         p_uniqueClicks := Some (size (sessionIds (clicks_of (linkId c) w1)));
         p_lastClickAt := Some (timestamp <$> last (clicks_of (linkId c) w1)) |}
      nowS w1 l (Hlink _)) as (index & Hi & Hrow & Hupd).
    rewrite Hupd in Hrun. clear Hupd. unfold bind at 1 in Hrun.
    match type of Hrun with context [writeJSONFile LINKS_FILE ?d w1] =>
      destruct (writeJSONFile_cases LINKS_FILE d w1)
        as [(e & w2 & Hw2 & _)|(w2 & Hw2 & Hw2')]; rewrite Hw2 in Hrun
    end; [discriminate|].
    unfold ret in Hrun. injection Hrun as <-. subst w2.
    eexists. rewrite getLinkById_run, getClicksByLinkId_run.
    unfold link_by_id. simpl links_file. simpl rows_of.
    assert (Hp : String.eqb (id l) (linkId c) = true).
    { destruct (findIndex_find _ _ _ Hi) as (x & Hx & _ & Hp).
      rewrite Hrow in Hx. injection Hx as <-. exact Hp. }
    rewrite (find_insert_first _ _ _ _ Hi) by exact Hp.
    rewrite !clicks_of_store_links.
    assert (Hc1 : clicks_of (linkId c) w1 = (clicks_of (linkId c) w ++ [c])%list)
      by apply Hclicks.
    rewrite !Hc1. split; [reflexivity|]. split; [reflexivity|].
    simpl. split; [reflexivity|]. split; [reflexivity|].
    split; [apply size_sessionIds|]. split.
    + rewrite last_snoc_click. reflexivity.
    + intros ->. split; [reflexivity|]. apply size_sessionIds_one.
  - intros Hfaults. unfold addClick. unfold bind at 1.
    rewrite getAllClicks_run. unfold bind at 1.
    rewrite (writeJSONFile_no_fault _ _ _ Hfaults).
    unfold updateLinkStats. unfold bind at 1.
    rewrite getClicksByLinkId_run. unfold bind at 1.
    set (w1 := store_at CLICKS_FILE _ _ w).
    match goal with |- context [updateLink ?i ?u nowS w1] =>
      destruct (updateLink_found i u nowS w1 l (Hlink _)) as (index & _ & _ & Hupd);
      rewrite Hupd
    end.
    unfold bind at 1. rewrite writeJSONFile_no_fault by reflexivity.
    eexists. reflexivity.
Qed.

(** ** [deleteLink] cascades to the clicks (C7) *)

Lemma filter_length_le {A} (p : A -> bool) (l : list A) :
  length (List.filter p l) <= length l.
Proof.
  induction l as [|x l IH]; simpl; [lia|]. destruct (p x); simpl; lia.
Qed.

Lemma filter_drops_found {A} (p : A -> bool) (l : list A) (x : A) :
  find p l = Some x ->
  length (List.filter (fun y => negb (p y)) l) < length l.
Proof.
  induction l as [|y l IH]; simpl; [discriminate|].
  destruct (p y); simpl.
  - intros _. pose proof (filter_length_le (fun y => negb (p y)) l). lia.
  - intros H. specialize (IH H). lia.
Qed.

Lemma filter_keeps_all {A} (p : A -> bool) (l : list A) :
  find p l = None -> List.filter (fun y => negb (p y)) l = l.
Proof.
  induction l as [|y l IH]; simpl; [reflexivity|].
  destruct (p y); simpl; [discriminate|]. intros H. rewrite (IH H). reflexivity.
Qed.

Lemma filter_filter_within {A} (p q : A -> bool) (l : list A) :
  (forall x, p x = true -> q x = true) ->
  List.filter p (List.filter q l) = List.filter p l.
Proof.
  intros Hpq. induction l as [|x l IH]; simpl; [reflexivity|].
  destruct (q x) eqn:Hq; simpl.
  - rewrite IH. reflexivity.
  - destruct (p x) eqn:Hp; [|exact IH].
    rewrite (Hpq x Hp) in Hq. discriminate.
Qed.

Lemma filter_filter_neg {A} (p : A -> bool) (l : list A) :
  List.filter p (List.filter (fun y => negb (p y)) l) = [].
Proof.
  induction l as [|x l IH]; simpl; [reflexivity|].
  destruct (p x) eqn:Hp; simpl; [exact IH|]. rewrite Hp. exact IH.
Qed.

Lemma find_filter_within {A} (p q : A -> bool) (l : list A) :
  (forall x, p x = true -> q x = true) ->
  find p (List.filter q l) = find p l.
Proof.
  intros Hpq. induction l as [|x l IH]; simpl; [reflexivity|].
  destruct (q x) eqn:Hq; simpl.
  - rewrite IH. reflexivity.
  - destruct (p x) eqn:Hp; [|exact IH].
    rewrite (Hpq x Hp) in Hq. discriminate.
Qed.

Lemma find_filter_neg {A} (p : A -> bool) (l : list A) :
  find p (List.filter (fun y => negb (p y)) l) = None.
Proof.
  induction l as [|x l IH]; simpl; [reflexivity|].
  destruct (p x) eqn:Hp; simpl; [exact IH|]. rewrite Hp. exact IH.
Qed.

Lemma eqb_other (a other i : string) :
  other <> i -> String.eqb a other = true -> negb (String.eqb a i) = true.
Proof.
  intros Hne Ha. apply String.eqb_eq in Ha. subst a.
  apply negb_true_iff, String.eqb_neq. exact Hne.
Qed.

(** C7.  For a link id present in the store, a [deleteLink] that completes
    returns [true], leaves no link with that id and no click with that
    [linkId] (so [getClicksByLinkId] answers the empty list), and keeps the
    other links and the clicks of every other link as they were.  Without
    write faults it completes. *)
Theorem deleteLink_cascades (i : string) (w : World) (l : TrackingLink) :
  getLinkById i w = (Ok (Some l), w) ->
  (forall b w', deleteLink i w = (Ok b, w') ->
     b = true
     /\ getLinkById i w' = (Ok None, w')
     /\ getClicksByLinkId i w' = (Ok [], w')
     /\ rows_of (clicks_file w')
        = List.filter (fun click => negb (String.eqb (linkId click) i))
            (rows_of (clicks_file w))
     /\ (forall other, other <> i ->
           getClicksByLinkId other w' = (Ok (clicks_of other w), w'))
     /\ (forall other, other <> i ->
           getLinkById other w' = (Ok (link_by_id other w), w')))
  /\ (write_faults w = [] -> exists w', deleteLink i w = (Ok true, w')).
Proof.
  rewrite getLinkById_run. intros [= Hl].
  pose proof (filter_drops_found _ _ _ Hl) as Hlt.
  assert (Hneq : Nat.eqb
            (length (List.filter (fun link => negb (String.eqb (id link) i))
                       (rows_of (links_file w))))
            (length (rows_of (links_file w))) = false)
    by (apply Nat.eqb_neq; lia).
  split.
  - intros b w' Hrun. unfold deleteLink in Hrun. unfold bind at 1 in Hrun.
    rewrite getAllLinks_run, Hneq in Hrun. unfold bind at 1 in Hrun.
    match type of Hrun with context [writeJSONFile LINKS_FILE ?d w] =>
      destruct (writeJSONFile_cases LINKS_FILE d w)
        as [(e & w1 & Hw & _)|(w1 & Hw & Hw1)]; rewrite Hw in Hrun
    end; [discriminate|].
    unfold bind at 1 in Hrun. rewrite getAllClicks_run in Hrun.
    unfold bind at 1 in Hrun.
    match type of Hrun with context [writeJSONFile CLICKS_FILE ?d w1] =>
      destruct (writeJSONFile_cases CLICKS_FILE d w1)
        as [(e & w2 & Hw2 & _)|(w2 & Hw2 & Hw2')]; rewrite Hw2 in Hrun
    end; [discriminate|].
    unfold ret in Hrun. injection Hrun as <- <-. subst w2 w1.
    split; [reflexivity|].
    rewrite getLinkById_run, getClicksByLinkId_run.
    unfold link_by_id, clicks_of. simpl.
    rewrite (find_filter_neg (fun link => String.eqb (id link) i)).
    rewrite (filter_filter_neg (fun click => String.eqb (linkId click) i)).
    do 3 (split; [reflexivity|]). split.
    + intros other Hne. rewrite getClicksByLinkId_run. do 2 f_equal.
      unfold clicks_of. simpl. apply filter_filter_within.
      intros x. apply eqb_other; exact Hne.
    + intros other Hne. rewrite getLinkById_run. do 2 f_equal.
      unfold link_by_id. simpl. apply find_filter_within.
      intros x. apply eqb_other; exact Hne.
  - intros Hfaults. unfold deleteLink. unfold bind at 1.
    rewrite getAllLinks_run, Hneq. unfold bind at 1.
    rewrite (writeJSONFile_no_fault _ _ _ Hfaults). unfold bind at 1.
    rewrite getAllClicks_run. unfold bind at 1.
    rewrite writeJSONFile_no_fault by reflexivity.
    eexists. reflexivity.
Qed.

(** ** [createLink] and the uniqueness of short codes (C4) *)

Lemma find_None_all {A} (p : A -> bool) (l : list A) :
  find p l = None -> forall x, x ∈ l -> p x = false.
Proof.
  induction l as [|y l IH]; simpl; intros H x Hx.
  - inversion Hx.
  - destruct (p y) eqn:Hy; [discriminate|].
    apply elem_of_cons in Hx as [->|Hx]; [exact Hy | exact (IH H x Hx)].
Qed.

Lemma createLink_run (link : TrackingLink) (w : World) :
  createLink link w
  = writeJSONFile LINKS_FILE (rows_of (links_file w) ++ [link])%list w.
Proof. unfold createLink, bind. rewrite getAllLinks_run. reflexivity. Qed.

(** C4, counterexample.  [createLink] stores a second link under a short
    code that is already taken and reports no error. *)
Lemma createLink_accepts_taken_code :
  getLinkByShortCode (shortCode promo_again) promo_store
    = (Ok (Some promo_link), promo_store)
  /\ createLink promo_again promo_store
    = (Ok tt, store_of [promo_link; promo_again] [])
  /\ shortCode <$> [promo_link; promo_again] = ["promo"; "promo"].
Proof. repeat split. Qed.

(** C4, amended.  [createLink] never answers with a conflict: whenever it
    completes it has appended the link, whatever short codes are present, and
    without write faults it completes.  Short codes stay unique when the
    caller has checked the code first, as [generateUniqueShortCode] does:
    for a custom code already in the store it raises
    [Custom short code already exists]. *)
Theorem createLink_appends_unchecked (link : TrackingLink) (w : World) :
  (forall w', createLink link w = (Ok tt, w') ->
     rows_of (links_file w') = (rows_of (links_file w) ++ [link])%list
     /\ clicks_file w' = clicks_file w)
  /\ (write_faults w = [] ->
      createLink link w
      = (Ok tt, store_at LINKS_FILE (rows_of (links_file w) ++ [link])%list [] w))
  /\ (forall w', createLink link w = (Ok tt, w') ->
      NoDup (shortCode <$> rows_of (links_file w)) ->
      getLinkByShortCode (shortCode link) w = (Ok None, w) ->
      NoDup (shortCode <$> rows_of (links_file w')))
  /\ (forall code random taken,
      code <> "" ->
      getLinkByShortCode code w = (Ok (Some taken), w) ->
      generateUniqueShortCode (Some code) random w
      = (Throw "Custom short code already exists", w)).
Proof.
  assert (Happ : forall w', createLink link w = (Ok tt, w') ->
     rows_of (links_file w') = (rows_of (links_file w) ++ [link])%list
     /\ clicks_file w' = clicks_file w).
  { intros w'. rewrite createLink_run. intros Hrun.
    destruct (writeJSONFile_cases LINKS_FILE
                (rows_of (links_file w) ++ [link])%list w)
      as [(e & w1 & Hw & _)|(w1 & Hw & ->)]; rewrite Hw in Hrun;
      [discriminate|].
    injection Hrun as <-. split; reflexivity. }
  split; [exact Happ|]. split.
  { intros Hfaults. rewrite createLink_run.
    apply writeJSONFile_no_fault. exact Hfaults. }
  split.
  - intros w' Hrun Hnodup. rewrite getLinkByShortCode_run. intros [= Hfree].
    destruct (Happ w' Hrun) as [-> _].
    rewrite fmap_app. apply NoDup_app. split; [exact Hnodup|]. split.
    + intros code Hin Hin'. apply list_elem_of_singleton in Hin'. subst code.
      apply list_elem_of_fmap in Hin as (x & Hx & Hin).
      pose proof (find_None_all _ _ Hfree x Hin) as Hp. simpl in Hp.
      rewrite Hx, String.eqb_refl in Hp. discriminate.
    + apply NoDup_singleton.
  - intros code random taken Hcode. rewrite getLinkByShortCode_run.
    intros [= Htaken]. unfold generateUniqueShortCode. simpl.
    apply String.eqb_neq in Hcode. rewrite Hcode. simpl.
    unfold bind. rewrite getLinkByShortCode_run, Htaken. reflexivity.
Qed.

Lemma createLink_appends_unchecked_witness :
  (forall w', createLink promo_again (store_of [] []) = (Ok tt, w') ->
     rows_of (links_file w')
     = (rows_of (links_file (store_of [] [])) ++ [promo_again])%list
     /\ clicks_file w' = clicks_file (store_of [] []))
  /\ createLink promo_again (store_of [] [])
     = (Ok tt, store_of [promo_again] [])
  /\ NoDup (shortCode <$> [promo_again])
  /\ generateUniqueShortCode (Some "promo") (fun _ => 0) promo_store
     = (Throw "Custom short code already exists", promo_store).
Proof.
  destruct (createLink_appends_unchecked promo_again (store_of [] []))
    as (Happ & Hrun & Huniq & _).
  destruct (createLink_appends_unchecked promo_again promo_store)
    as (_ & _ & _ & Hconflict).
  split; [exact Happ|]. split; [exact (Hrun eq_refl)|]. split.
  - apply (Huniq (store_of [promo_again] []) (Hrun eq_refl)).
    + apply NoDup_nil_2.
    + reflexivity.
  - apply (Hconflict "promo" (fun _ => 0) promo_link); [discriminate|reflexivity].
Defined.

(** ** The short-code generator (C5) *)

Lemma length_append (s t : string) :
  String.length (s ++ t) = String.length s + String.length t.
Proof. induction s as [|c s IH]; simpl; [reflexivity|]. rewrite IH. reflexivity. Qed.

Lemma all_chars_append (p : ascii -> bool) (s t : string) :
  all_chars p (s ++ t) = all_chars p s && all_chars p t.
Proof.
  induction s as [|c s IH]; simpl; [reflexivity|].
  rewrite IH. apply andb_assoc.
Qed.

(** Every index below 62 selects one character of the alphabet. *)
Lemma charAt_alphabet (i : nat) :
  i < 62 ->
  String.length (charAt CHARACTERS i) = 1
  /\ all_chars is_alphabet_char (charAt CHARACTERS i) = true.
Proof.
  intros Hi.
  do 62 (destruct i as [|i]; [split; reflexivity|]). lia.
Qed.

Lemma generateRandomCode_shape (random : nat -> nat) (pos len : nat) :
  (forall k, random k < 62) ->
  String.length (generateRandomCode random pos len) = len
  /\ all_chars is_alphabet_char (generateRandomCode random pos len) = true.
Proof.
  intros Hrandom. revert pos. induction len as [|n IH]; intros pos; simpl.
  - split; reflexivity.
  - destruct (charAt_alphabet (random pos) (Hrandom pos)) as [Hlen Hall].
    destruct (IH (S pos)) as [IHlen IHall].
    rewrite length_append, all_chars_append, Hlen, Hall, IHlen, IHall.
    split; reflexivity.
Qed.

Lemma rollCodes_step (random : nat -> nat) (pos n : nat) :
  rollCodes random pos (S n)
  = (existing <- getLinkByShortCode
                   (generateRandomCode random pos SHORT_CODE_LENGTH) ;;
     match existing with
     | None => ret (Some (generateRandomCode random pos SHORT_CODE_LENGTH))
     | Some _ => rollCodes random (pos + SHORT_CODE_LENGTH) n
     end).
Proof. reflexivity. Qed.

(** The retry loop, run: it leaves the world alone, returns the first free
    code among the next [left] draws, and [None] when all of them are taken. *)
Lemma rollCodes_run (random : nat -> nat) (left k0 : nat) (w : World) :
  exists r,
    rollCodes random (k0 * SHORT_CODE_LENGTH) left w = (Ok r, w)
    /\ match r with
       | Some code =>
           exists k, k0 <= k < k0 + left
             /\ code = attempt random k
             /\ link_by_code code w = None
             /\ (forall j, k0 <= j < k -> link_by_code (attempt random j) w <> None)
       | None =>
           forall j, k0 <= j < k0 + left ->
             link_by_code (attempt random j) w <> None
       end.
Proof.
  revert k0. induction left as [|n IH]; intros k0.
  - exists None. split; [reflexivity|]. intros j Hj. lia.
  - rewrite rollCodes_step. unfold bind. rewrite getLinkByShortCode_run.
    fold (attempt random k0).
    destruct (link_by_code (attempt random k0) w) as [taken|] eqn:Hk0.
    + replace (k0 * SHORT_CODE_LENGTH + SHORT_CODE_LENGTH)
        with (S k0 * SHORT_CODE_LENGTH) by (unfold SHORT_CODE_LENGTH; lia).
      destruct (IH (S k0)) as (r & Hrun & Hr). exists r.
      split; [exact Hrun|]. destruct r as [code|].
      * destruct Hr as (k & Hk & Hcode & Hfree & Hbefore).
        exists k. split; [lia|]. split; [exact Hcode|]. split; [exact Hfree|].
        intros j Hj. destruct (decide (j = k0)) as [->|Hne].
        -- rewrite Hk0. discriminate.
        -- apply Hbefore. lia.
      * intros j Hj. destruct (decide (j = k0)) as [->|Hne].
        -- rewrite Hk0. discriminate.
        -- apply Hr. lia.
    + exists (Some (attempt random k0)). split; [reflexivity|].
      exists k0. split; [lia|]. split; [reflexivity|]. split; [exact Hk0|].
      intros j Hj. lia.
Qed.

Lemma generateUniqueShortCode_no_custom (random : nat -> nat) :
  generateUniqueShortCode None random
  = (rolled <- rollCodes random 0 maxAttempts ;;
     match rolled with
     | Some code => ret code
     | None =>
         existing <- getLinkByShortCode (longer_attempt random) ;;
         match existing with
         | None => ret (longer_attempt random)
         | Some _ => throw "Unable to generate unique short code"
         end
     end).
Proof. reflexivity. Qed.

(** C5, counterexample.  With the code of every one of the ten draws taken,
    the generator returns a code of length 10, not 8. *)
Lemma generateUniqueShortCode_length_ten :
  generateUniqueShortCode None (fun _ => 0) crowded_store
    = (Ok "AAAAAAAAAA", crowded_store)
  /\ String.length "AAAAAAAAAA" <> 8.
Proof. split; [reflexivity | discriminate]. Qed.

(** C5, amended.  Called without a custom code, with draws below 62, the
    generator always returns, leaves the store alone and
    - returns the first of the ten length-8 codes that is free, if there is one;
    - otherwise returns the length-10 code, if that one is free;
    - otherwise raises [Unable to generate unique short code].
    A returned code has length 8 or 10, consists of characters of the
    62-character alphabet and is not assigned to any link. *)
Theorem generateUniqueShortCode_random (random : nat -> nat) (w : World) :
  (forall k, random k < 62) ->
  exists r,
    generateUniqueShortCode None random w = (r, w)
    /\ match r with
       | Ok code =>
           all_chars is_alphabet_char code = true
           /\ getLinkByShortCode code w = (Ok None, w)
           /\ ((String.length code = 8
                /\ exists k, k < 10 /\ code = attempt random k
                     /\ forall j, j < k -> link_by_code (attempt random j) w <> None)
               \/ (String.length code = 10
                   /\ code = longer_attempt random
                   /\ forall j, j < 10 -> link_by_code (attempt random j) w <> None))
       | Throw e =>
           e = "Unable to generate unique short code"
           /\ (forall j, j < 10 -> link_by_code (attempt random j) w <> None)
           /\ link_by_code (longer_attempt random) w <> None
       end.
Proof.
  intros Hrandom. rewrite generateUniqueShortCode_no_custom.
  unfold bind at 1.
  destruct (rollCodes_run random maxAttempts 0 w) as (r & Hrun & Hr).
  change (0 * SHORT_CODE_LENGTH) with 0 in Hrun. rewrite Hrun.
  destruct r as [code|].
  - destruct Hr as (k & Hk & -> & Hfree & Hbefore).
    exists (Ok (attempt random k)). split; [reflexivity|].
    destruct (generateRandomCode_shape random (k * SHORT_CODE_LENGTH)
                SHORT_CODE_LENGTH Hrandom) as [Hlen Hall].
    split; [exact Hall|]. split.
    + rewrite getLinkByShortCode_run, Hfree. reflexivity.
    + left. split; [exact Hlen|]. exists k. split; [unfold maxAttempts in Hk; lia|].
      split; [reflexivity|]. intros j Hj. apply Hbefore. lia.
  - unfold bind. rewrite getLinkByShortCode_run.
    assert (Hall10 : forall j, j < 10 -> link_by_code (attempt random j) w <> None)
      by (intros j Hj; apply Hr; unfold maxAttempts; lia).
    destruct (link_by_code (longer_attempt random) w) as [taken|] eqn:Hlong.
    + exists (Throw "Unable to generate unique short code").
      split; [reflexivity|]. split; [reflexivity|]. split; [exact Hall10|].
      discriminate.
    + exists (Ok (longer_attempt random)). split; [reflexivity|].
      destruct (generateRandomCode_shape random (maxAttempts * SHORT_CODE_LENGTH)
                  (SHORT_CODE_LENGTH + 2) Hrandom) as [Hlen Hall].
      split; [exact Hall|]. split.
      * rewrite getLinkByShortCode_run, Hlong. reflexivity.
      * right. split; [exact Hlen|]. split; [reflexivity | exact Hall10].
Qed.

Lemma generateUniqueShortCode_random_witness :
  exists r,
    generateUniqueShortCode None (fun _ => 0) crowded_store = (r, crowded_store)
    /\ match r with
       | Ok code =>
           all_chars is_alphabet_char code = true
           /\ getLinkByShortCode code crowded_store = (Ok None, crowded_store)
           /\ ((String.length code = 8
                /\ exists k, k < 10 /\ code = attempt (fun _ => 0) k
                     /\ forall j, j < k ->
                          link_by_code (attempt (fun _ => 0) j) crowded_store <> None)
               \/ (String.length code = 10
                   /\ code = longer_attempt (fun _ => 0)
                   /\ forall j, j < 10 ->
                        link_by_code (attempt (fun _ => 0) j) crowded_store <> None))
       | Throw e =>
           e = "Unable to generate unique short code"
           /\ (forall j, j < 10 ->
                 link_by_code (attempt (fun _ => 0) j) crowded_store <> None)
           /\ link_by_code (longer_attempt (fun _ => 0)) crowded_store <> None
       end.
Proof.
  apply (generateUniqueShortCode_random (fun _ => 0) crowded_store).
  intros k. lia.
Defined.

(** ** Custom short codes (C8) *)

(** The character class is the 62 alphanumerics, the hyphen and the
    underscore. *)
Lemma is_code_char_spec (c : ascii) :
  is_code_char c = true
  <-> is_alphabet_char c = true \/ c = "-"%char \/ c = "_"%char.
Proof.
  split.
  - destruct c as [[] [] [] [] [] [] [] []]; vm_compute; intros H;
      first [discriminate H | left; reflexivity | right; left; reflexivity
            | right; right; reflexivity].
  - intros [H|[->| ->]]; [|reflexivity|reflexivity].
    destruct c as [[] [] [] [] [] [] [] []]; vm_compute in H |- *;
      first [reflexivity | discriminate H].
Qed.

Lemma all_chars_spec (s : string) :
  all_chars is_code_char s = true <-> code_alphabet s.
Proof.
  unfold code_alphabet. induction s as [|c s IH]; simpl.
  - split; [intros _ c [] | reflexivity].
  - rewrite andb_true_iff, IH, is_code_char_spec. split.
    + intros [Hc Hs] d [<-|Hd]; [exact Hc | exact (Hs d Hd)].
    + intros H. split; [apply H; left; reflexivity|].
      intros d Hd. apply H. right. exact Hd.
Qed.

Lemma code_regex_test_spec (s : string) :
  code_regex_test s = true <-> s <> "" /\ code_alphabet s.
Proof.
  unfold code_regex_test.
  rewrite andb_true_iff, negb_true_iff, String.eqb_neq, all_chars_spec.
  reflexivity.
Qed.

(** C8, counterexample.  Fifty-one letters are within the 3..52 of the
    claim, yet both validators refuse them. *)
Lemma fifty_one_chars_refused :
  code_alphabet (replicate_char 51 "a")
  /\ 3 <= String.length (replicate_char 51 "a") <= 52
  /\ isValidCustomCode (replicate_char 51 "a") = false
  /\ customCodeSchema (replicate_char 51 "a")
     = ["Custom code must be no more than 50 characters"].
Proof.
  split.
  - apply all_chars_spec. reflexivity.
  - split; [vm_compute; split; lia|]. split; reflexivity.
Qed.

(** C8, amended.  A string is accepted as a custom short code, by
    [isValidCustomCode] and by [customCodeSchema] alike, if and only if it
    consists solely of alphanumeric characters, hyphens and underscores and
    its length is between 3 and 50 inclusive. *)
Theorem custom_code_accepted_iff (code : string) :
  (isValidCustomCode code = true
   <-> code_alphabet code /\ 3 <= String.length code <= 50)
  /\ (customCodeSchema code = []
      <-> code_alphabet code /\ 3 <= String.length code <= 50)
  /\ (validateCustomCode code).1 = isValidCustomCode code.
Proof.
  assert (Hvalid : isValidCustomCode code = true
            <-> code_alphabet code /\ 3 <= String.length code <= 50).
  { unfold isValidCustomCode.
    rewrite !andb_true_iff, code_regex_test_spec, !Nat.leb_le.
    split.
    - intros [[[_ Halpha] Hlo] Hhi]. auto.
    - intros [Halpha [Hlo Hhi]]. repeat split; auto.
      intros ->. simpl in Hlo. lia. }
  assert (Hschema : customCodeSchema code = [] <-> isValidCustomCode code = true).
  { unfold customCodeSchema, isValidCustomCode.
    destruct (3 <=? String.length code)%nat, (String.length code <=? 50)%nat,
      (code_regex_test code); simpl; split; intros H;
      first [reflexivity | discriminate H]. }
  split; [exact Hvalid|]. split.
  - rewrite Hschema. exact Hvalid.
  - unfold validateCustomCode.
    destruct (isValidCustomCode code) eqn:Hv.
    + destruct Hschema as [_ ->]; reflexivity.
    + destruct (customCodeSchema code) as [|message rest]; [|reflexivity].
      destruct Hschema as [Hyes _]. discriminate (Hyes eq_refl).
Qed.

(** ** The redirect pipeline (C2, C3) *)

Lemma strict_eq_str_spec (v : jsval) (s : string) :
  strict_eq_str v s = true <-> v = JStr s.
Proof.
  destruct v; simpl; try (split; [discriminate | intros [=]]).
  rewrite String.eqb_eq. split; [intros ->; reflexivity | intros [= ->]; reflexivity].
Qed.

Lemma truthy_JStr (s : string) : truthy (JStr s) = true <-> s <> "".
Proof. simpl. rewrite negb_true_iff. apply String.eqb_neq. Qed.

(** The password test of the handler says what [password_not_given] says. *)
Lemma password_test_spec (request : Request) (link : TrackingLink) :
  truthy (password link) = true ->
  (negb (truthy_str (req_password request))
   || negb (strict_eq_str (password link) (default "" (req_password request)))
   = true)
  <-> password_not_given request link.
Proof.
  intros Hset. unfold password_not_given.
  destruct (req_password request) as [given|]; simpl.
  - rewrite orb_true_iff, !negb_true_iff. split.
    + intros H. right. exists given. split; [reflexivity|].
      intros Heq. destruct H as [H|H].
      * apply negb_false_iff, String.eqb_eq in H. subst given.
        rewrite Heq in Hset. discriminate.
      * apply strict_eq_str_spec in Heq. congruence.
    + intros [H|(g & [= <-] & Hne)]; [discriminate|]. right.
      destruct (strict_eq_str (password link) given) eqn:Heq; [|reflexivity].
      apply strict_eq_str_spec in Heq. contradiction.
  - split; [intros _; left; reflexivity | reflexivity].
Qed.

Section HandlerProperties.

Variable Date_of : jsval -> option Z.
Variable Date_of_json : json -> option Z.
Variable toISOString : Z -> string.
Variable getClientIP : Request -> outcome string.
Variable parseUserAgent : string -> outcome DeviceInfo.
Variable parseReferer : option string -> outcome RefererInfo.
Variable getIPGeolocation : string -> outcome GeolocationResult.

Local Abbreviation run_trackClick :=
  (trackClick toISOString getClientIP parseUserAgent parseReferer
     getIPGeolocation).
Local Abbreviation run_GET :=
  (GET Date_of toISOString getClientIP parseUserAgent parseReferer
     getIPGeolocation).
Local Abbreviation run_PUT := (PUT Date_of_json toISOString).

Lemma isLinkExpired_spec (link : TrackingLink) (now : Z) :
  isLinkExpired Date_of link now = true <-> expired_at Date_of link now.
Proof.
  unfold isLinkExpired, expired_at.
  destruct (truthy (expiresAt link)); simpl.
  - destruct (Date_of (expiresAt link)) as [t|].
    + rewrite Z.ltb_lt. split.
      * intros Ht. split; [reflexivity|]. exists t. auto.
      * intros (_ & t' & [= <-] & Ht). exact Ht.
    + split; [discriminate|]. intros (_ & t & [=] & _).
  - split; [discriminate|]. intros ([=] & _).
Qed.

(** [trackClick] swallows every failure of its body. *)
Lemma trackClick_never_raises (request : Request) (i code : string)
    (rt : Runtime) (w : World) :
  exists w', run_trackClick request i code rt w = (Ok tt, w').
Proof.
  unfold trackClick, try_catch.
  match goal with |- context [match ?m w with _ => _ end] =>
    destruct (m w) as [[[]|e] w']
  end; eexists; reflexivity.
Qed.

(** The handler past the gates: it redirects whatever tracking did. *)
Lemma GET_run (request : Request) (rt : Runtime) (w : World) :
  exists w',
    run_GET request rt w
    = (Ok match link_by_code (req_shortCode request) w with
          | None => Text "Link not found" 404
          | Some link =>
              if negb (truthy (isActive link))
              then Text "Link is disabled" 410
              else if isLinkExpired Date_of link (now rt)
              then Text "Link has expired" 410
              else if isPasswordProtected link
                      && (negb (truthy_str (req_password request))
                          || negb (strict_eq_str (password link)
                                     (default "" (req_password request))))
              then PasswordPrompt (req_shortCode request)
              else Redirect (originalUrl link) 302
          end, w')
    /\ (status_of
          match link_by_code (req_shortCode request) w with
          | None => Text "Link not found" 404
          | Some link =>
              if negb (truthy (isActive link))
              then Text "Link is disabled" 410
              else if isLinkExpired Date_of link (now rt)
              then Text "Link has expired" 410
              else if isPasswordProtected link
                      && (negb (truthy_str (req_password request))
                          || negb (strict_eq_str (password link)
                                     (default "" (req_password request))))
              then PasswordPrompt (req_shortCode request)
              else Redirect (originalUrl link) 302
          end <> 302 -> w' = w).
Proof.
  unfold GET, try_catch. unfold bind at 1. rewrite getLinkByShortCode_run.
  destruct (link_by_code (req_shortCode request) w) as [link|];
    [|exists w; split; [reflexivity | reflexivity]].
  destruct (negb (truthy (isActive link)));
    [exists w; split; [reflexivity | reflexivity]|].
  destruct (isLinkExpired Date_of link (now rt));
    [exists w; split; [reflexivity | reflexivity]|].
  match goal with |- context [if ?c then ret (PasswordPrompt _) else _] =>
    destruct c
  end; [exists w; split; [reflexivity | reflexivity]|].
  unfold bind.
  destruct (negb (isBot (or_else (req_headers request !! "user-agent") ""))).
  - destruct (trackClick_never_raises request (id link) (req_shortCode request)
                rt w) as (w' & ->).
    exists w'. split; [reflexivity|]. simpl. intros H. contradiction.
  - exists w. split; [reflexivity|]. reflexivity.
Qed.

(** C2.  The response to [GET /r/{shortCode}] is decided in this order:
    no link with the code: 404; link inactive or expired: 410; password set
    and the [password] parameter absent or different: the 200 HTML prompt;
    otherwise: 302 to [originalUrl].  No run answers 500: reads cannot fail
    and tracking failures stay inside [trackClick]. *)
Theorem GET_state_machine (request : Request) (rt : Runtime) (w : World) :
  exists response w',
    run_GET request rt w = (Ok response, w')
    /\ (getLinkByShortCode (req_shortCode request) w = (Ok None, w) ->
        status_of response = 404)
    /\ (forall link,
          getLinkByShortCode (req_shortCode request) w = (Ok (Some link), w) ->
          (truthy (isActive link) = false \/ expired_at Date_of link (now rt) ->
           status_of response = 410)
          /\ (truthy (isActive link) = true ->
              ~ expired_at Date_of link (now rt) ->
              truthy (password link) = true ->
              password_not_given request link ->
              response = PasswordPrompt (req_shortCode request)
              /\ status_of response = 200)
          /\ (truthy (isActive link) = true ->
              ~ expired_at Date_of link (now rt) ->
              ~ (truthy (password link) = true
                 /\ password_not_given request link) ->
              response = Redirect (originalUrl link) 302))
    /\ status_of response <> 500.
Proof.
  destruct (GET_run request rt w) as (w' & Hrun & _).
  eexists. exists w'. split; [exact Hrun|].
  rewrite getLinkByShortCode_run.
  destruct (link_by_code (req_shortCode request) w) as [found|].
  2:{ split; [reflexivity|]. split; [intros link [=]|]. simpl. lia. }
  split; [intros [=]|]. split.
  2:{ repeat match goal with |- context [if ?c then _ else _] => destruct c end;
        simpl; lia. }
  intros link [= <-].
  pose proof (isLinkExpired_spec found (now rt)) as Hexp.
  pose proof (password_test_spec request found) as Hpw.
  unfold isPasswordProtected.
  destruct (truthy (isActive found)) eqn:Hactive; simpl negb; cbv iota.
  2:{ split; [reflexivity|]. split; discriminate. }
  destruct (isLinkExpired Date_of found (now rt)) eqn:Hexpired.
  { split; [reflexivity|]. destruct Hexp as [Hexp _].
    split; intros _ Hnot; contradiction (Hnot (Hexp eq_refl)). }
  assert (Hnot : ~ expired_at Date_of found (now rt)).
  { intros H. apply Hexp in H. discriminate. }
  split; [intros [[=]|H]; contradiction|].
  destruct (truthy (password found)) eqn:Hset; simpl andb.
  2:{ split; [discriminate | reflexivity]. }
  specialize (Hpw eq_refl).
  match goal with |- context [if ?c then PasswordPrompt _ else _] =>
    destruct c eqn:Htest
  end.
  - split; [intros; split; reflexivity|].
    intros _ _ Hno. contradiction Hno. split; [reflexivity|].
    apply Hpw. reflexivity.
  - split; [|reflexivity]. intros _ _ _ Hgiven.
    apply Hpw in Hgiven. discriminate.
Qed.

(** C3.  [trackClick] never raises, whatever its collaborators and the disk
    do; so a request that passes the gates is answered 302 to the link's
    [originalUrl], tracked or not. *)
Theorem tracking_failure_keeps_redirect
    (request : Request) (rt : Runtime) (w : World) (link : TrackingLink) :
  getLinkByShortCode (req_shortCode request) w = (Ok (Some link), w) ->
  truthy (isActive link) = true ->
  ~ expired_at Date_of link (now rt) ->
  ~ (truthy (password link) = true /\ password_not_given request link) ->
  (exists w',
     run_trackClick request (id link) (req_shortCode request) rt w = (Ok tt, w'))
  /\ (exists w',
        run_GET request rt w = (Ok (Redirect (originalUrl link) 302), w')).
Proof.
  intros Hfound Hactive Hnot Hpw.
  split; [apply trackClick_never_raises|].
  destruct (GET_run request rt w) as (w' & Hrun & _).
  exists w'. rewrite Hrun. do 2 f_equal.
  rewrite getLinkByShortCode_run in Hfound. injection Hfound as ->.
  rewrite Hactive. simpl negb. cbv iota.
  destruct (isLinkExpired Date_of link (now rt)) eqn:Hexpired.
  { apply isLinkExpired_spec in Hexpired. contradiction. }
  unfold isPasswordProtected.
  destruct (truthy (password link)) eqn:Hset; [|reflexivity]. simpl andb.
  match goal with |- (if ?c then _ else _) = _ => destruct c eqn:Htest end;
    [|reflexivity].
  contradiction Hpw. split; [reflexivity|].
  apply (password_test_spec request link Hset). exact Htest.
Qed.

(** ** The PUT handler (C9) *)

Lemma collect_updates_lookup_from (entries : list (string * json))
    (start : gmap string json) (key : string) :
  fold_left
    (fun updates '(k, value) =>
       if bool_decide (k ∈ allowedUpdates) then <[k := value]> updates
       else updates)
    entries start !! key
  = if bool_decide (key ∈ allowedUpdates)
    then from_option Some (start !! key) (last_value key entries)
    else start !! key.
Proof.
  revert start. induction entries as [|[k v] rest IH]; intros start; simpl.
  - destruct (bool_decide (key ∈ allowedUpdates)); reflexivity.
  - rewrite IH. clear IH.
    destruct (bool_decide (key ∈ allowedUpdates)) eqn:Hkey.
    + destruct (last_value key rest) as [later|]; [reflexivity|]. simpl.
      destruct (String.eqb k key) eqn:Hk.
      * apply String.eqb_eq in Hk. subst k. rewrite Hkey.
        simpl. apply lookup_insert_eq.
      * apply String.eqb_neq in Hk.
        destruct (bool_decide (k ∈ allowedUpdates)); [|reflexivity].
        simpl. apply lookup_insert_ne. exact Hk.
    + destruct (bool_decide (k ∈ allowedUpdates)) eqn:Hk; [|reflexivity].
      apply lookup_insert_ne. intros ->. congruence.
Qed.

(** The allow-list: a key outside it never reaches [updates], and an allowed
    key carries the body's last value for it. *)
Lemma collect_updates_lookup (entries : list (string * json)) (key : string) :
  collect_updates entries !! key
  = if bool_decide (key ∈ allowedUpdates) then last_value key entries else None.
Proof.
  unfold collect_updates. rewrite collect_updates_lookup_from.
  rewrite lookup_empty.
  destruct (bool_decide (key ∈ allowedUpdates)); [|reflexivity].
  destruct (last_value key entries); reflexivity.
Qed.

(** The cast of the handler's [updates] is defined and touches only the five
    allowed properties. *)
Lemma as_partial_collect (entries : list (string * json)) :
  as_partial (collect_updates entries)
  = Some {| p_id := None; p_originalUrl := None; p_shortCode := None;
            p_title := stored <$> last_value "title" entries;
            p_description := stored <$> last_value "description" entries;
            p_createdAt := None; p_updatedAt := None;
            p_isActive := stored <$> last_value "isActive" entries;
            p_expiresAt := stored <$> last_value "expiresAt" entries;
            p_password := stored <$> last_value "password" entries;
            p_userId := None; p_totalClicks := None;
            p_uniqueClicks := None; p_lastClickAt := None |}.
Proof.
  unfold as_partial, typed. rewrite !collect_updates_lookup. reflexivity.
Qed.


(** The link a PUT with these entries stores in place of [link]. *)
Lemma PUT_run_known (i : string) (body : json) (rt : Runtime) (w : World)
    (link : TrackingLink) (entries : list (string * json)) :
  link_by_id i w = Some link ->
  Object_entries body = Ok entries ->
  exists index updates,
    findIndex (fun l => String.eqb (id l) i) (rows_of (links_file w)) = Some index
    /\ rows_of (links_file w) !! index = Some link
    /\ as_partial (collect_updates entries) = Some updates
    /\ run_PUT i (Ok body) rt w
       = if expiresAt_rejected Date_of_json (collect_updates entries) (now rt)
         then (Ok (ApiError "Expiration date must be in the future" 400), w)
         else match write_faults w with
              | true :: rest =>
                  (Ok (ApiError "Failed to update link" 500),
                   {| links_file := links_file w; clicks_file := clicks_file w;
                      write_faults := rest |})
              | _ =>
                  (Ok (ApiData
                         (Some (hide_password
                                  (spread link updates (toISOString (now rt)))))),
                   store_at LINKS_FILE
                     (<[index := spread link updates (toISOString (now rt))]>
                        (rows_of (links_file w)))
                     (tail (write_faults w)) w)
              end.
Proof.
  intros Hlink Hentries.
  destruct (find_findIndex _ _ _ Hlink) as (index & Hi & Hrow).
  pose proof (as_partial_collect entries) as Hcast.
  match type of Hcast with _ = Some ?u => set (updates_of_body := u) in * end.
  exists index, updates_of_body. split; [exact Hi|]. split; [exact Hrow|].
  split; [exact Hcast|].
  assert (Hp : String.eqb (id link) i = true).
  { destruct (findIndex_find _ _ _ Hi) as (x & Hx & _ & Hp).
    rewrite Hrow in Hx. injection Hx as <-. exact Hp. }
  unfold PUT.
  destruct (expiresAt_rejected Date_of_json (collect_updates entries) (now rt))
    eqn:Hrejected.
  { apply try_catch_ok.
    rewrite (bind_ok _ _ w w body) by reflexivity.
    rewrite (bind_ok _ _ _ _ _ (getLinkById_run i w)), Hlink.
    rewrite (bind_ok _ _ w w entries) by (rewrite Hentries; reflexivity).
    cbv zeta. rewrite Hrejected. reflexivity. }
  assert (Hupdate : updateLink i updates_of_body (toISOString (now rt)) w
            = bind (writeJSONFile LINKS_FILE
                      (<[index := spread link updates_of_body
                                    (toISOString (now rt))]>
                         (rows_of (links_file w))))
                   (fun _ => ret true) w)
    by (unfold updateLink; rewrite (bind_ok _ _ _ _ _ (getAllLinks_run w)), Hi,
          Hrow; reflexivity).
  destruct (write_faults w) as [|[] rest] eqn:Hfaults; simpl tail.
  1: erewrite bind_ok in Hupdate by (apply writeJSONFile_no_fault; exact Hfaults).
  2: erewrite bind_throw in Hupdate by (apply writeJSONFile_fault; exact Hfaults).
  3: erewrite bind_ok in Hupdate by (apply writeJSONFile_pass; exact Hfaults).
  - apply try_catch_ok.
    rewrite (bind_ok _ _ w w body) by reflexivity.
    rewrite (bind_ok _ _ _ _ _ (getLinkById_run i w)), Hlink.
    rewrite (bind_ok _ _ w w entries) by (rewrite Hentries; reflexivity).
    cbv zeta. rewrite Hrejected, Hcast.
    rewrite (bind_ok _ _ w w updates_of_body) by reflexivity.
    erewrite bind_ok by (rewrite Hupdate; reflexivity).
    cbn [negb].
    erewrite bind_ok by apply getLinkById_run.
    unfold link_by_id. simpl links_file. simpl rows_of.
    rewrite (find_insert_first _ _ _ _ Hi) by exact Hp. reflexivity.
  - erewrite try_catch_throw; [reflexivity|].
    rewrite (bind_ok _ _ w w body) by reflexivity.
    rewrite (bind_ok _ _ _ _ _ (getLinkById_run i w)), Hlink.
    rewrite (bind_ok _ _ w w entries) by (rewrite Hentries; reflexivity).
    cbv zeta. rewrite Hrejected, Hcast.
    rewrite (bind_ok _ _ w w updates_of_body) by reflexivity.
    erewrite bind_throw by (rewrite Hupdate; reflexivity). reflexivity.
  - apply try_catch_ok.
    rewrite (bind_ok _ _ w w body) by reflexivity.
    rewrite (bind_ok _ _ _ _ _ (getLinkById_run i w)), Hlink.
    rewrite (bind_ok _ _ w w entries) by (rewrite Hentries; reflexivity).
    cbv zeta. rewrite Hrejected, Hcast.
    rewrite (bind_ok _ _ w w updates_of_body) by reflexivity.
    erewrite bind_ok by (rewrite Hupdate; reflexivity).
    cbn [negb].
    erewrite bind_ok by apply getLinkById_run.
    unfold link_by_id. simpl links_file. simpl rows_of.
    rewrite (find_insert_first _ _ _ _ Hi) by exact Hp. reflexivity.
Qed.

Lemma PUT_run_unknown (i : string) (body : json) (rt : Runtime) (w : World) :
  link_by_id i w = None ->
  run_PUT i (Ok body) rt w = (Ok (ApiError "Link not found" 404), w).
Proof.
  intros Hlink. unfold PUT. apply try_catch_ok.
  rewrite (bind_ok _ _ w w body) by reflexivity.
  rewrite (bind_ok _ _ _ _ _ (getLinkById_run i w)), Hlink. reflexivity.
Qed.






(** ** Link statistics (C6) *)

Lemma count_in_bump (counts : list (string * nat)) (key other : string) :
  count_in (bump key counts) other
  = count_in counts other + (if String.eqb key other then 1 else 0).
Proof.
  unfold count_in. induction counts as [|[k n] rest IH]; simpl.
  - destruct (String.eqb key other); reflexivity.
  - destruct (String.eqb k key) eqn:Hk; simpl.
    + apply String.eqb_eq in Hk. subst k.
      destruct (String.eqb key other); simpl; lia.
    + destruct (String.eqb k other) eqn:Hother; simpl; [|exact IH].
      apply String.eqb_eq in Hother. subst k. rewrite String.eqb_sym, Hk. lia.
Qed.

Lemma bump_keys (counts : list (string * nat)) (key : string) :
  (bump key counts).*1
  = if bool_decide (key ∈ counts.*1) then counts.*1
    else (counts.*1 ++ [key])%list.
Proof.
  induction counts as [|[k n] rest IH].
  - reflexivity.
  - cbn [bump]. destruct (String.eqb k key) eqn:Hk; rewrite !fmap_cons;
      cbn [fst].
    + apply String.eqb_eq in Hk. subst k.
      rewrite bool_decide_eq_true_2 by apply list_elem_of_here. reflexivity.
    + apply String.eqb_neq in Hk. rewrite IH.
      destruct (bool_decide (key ∈ rest.*1)) eqn:Hin.
      * apply bool_decide_eq_true in Hin.
        rewrite bool_decide_eq_true_2 by (apply list_elem_of_further; exact Hin).
        reflexivity.
      * apply bool_decide_eq_false in Hin.
        rewrite bool_decide_eq_false_2; [reflexivity|].
        intros H. apply elem_of_cons in H as [H|H]; [congruence | contradiction].
Qed.

Lemma bump_NoDup (counts : list (string * nat)) (key : string) :
  NoDup counts.*1 -> NoDup (bump key counts).*1.
Proof.
  intros Hnodup. rewrite bump_keys.
  destruct (bool_decide (key ∈ counts.*1)) eqn:Hin; [exact Hnodup|].
  apply bool_decide_eq_false in Hin.
  apply NoDup_app. split; [exact Hnodup|]. split; [|apply NoDup_singleton].
  intros x Hx Hx'. apply list_elem_of_singleton in Hx'. subst x. contradiction.
Qed.

Lemma count_in_entry (counts : list (string * nat)) (key : string) (n : nat) :
  NoDup counts.*1 -> (key, n) ∈ counts -> count_in counts key = n.
Proof.
  unfold count_in. induction counts as [|[k m] rest IH]; simpl; intros Hnodup Hin.
  - inversion Hin.
  - apply NoDup_cons in Hnodup as [Hk Hrest].
    apply elem_of_cons in Hin as [[= <- <-]|Hin].
    + rewrite String.eqb_refl. reflexivity.
    + destruct (String.eqb k key) eqn:Heq; [|exact (IH Hrest Hin)].
      apply String.eqb_eq in Heq. subst k. contradiction Hk.
      apply list_elem_of_fmap. exists (key, n). split; [reflexivity | exact Hin].
Qed.

Lemma bump_all (keys : list string) (start : list (string * nat)) :
  NoDup start.*1 ->
  NoDup (fold_left (fun counts key => bump key counts) keys start).*1
  /\ forall other,
       count_in (fold_left (fun counts key => bump key counts) keys start) other
       = count_in start other
         + length (List.filter (fun key => String.eqb key other) keys).
Proof.
  revert start. induction keys as [|key keys IH]; intros start Hnodup; simpl.
  - split; [exact Hnodup|]. intros other. lia.
  - destruct (IH (bump key start) (bump_NoDup _ _ Hnodup)) as [Hnd Hcount].
    split; [exact Hnd|]. intros other. rewrite Hcount, count_in_bump.
    destruct (String.eqb key other); simpl; lia.
Qed.

(** The country grouping of the [forEach] is the counting of the keys. *)
Lemma byCountry_fold (clicks : list LinkClick) (g : Groups) :
  byCountry (fold_left group_click clicks g)
  = fold_left (fun counts key => bump key counts) (country_keys clicks)
      (byCountry g).
Proof.
  revert g. induction clicks as [|click clicks IH]; intros g; simpl.
  - reflexivity.
  - rewrite IH. unfold country_keys. simpl.
    destruct (truthy_str (country (location click))); reflexivity.
Qed.

Lemma country_keys_count (clicks : list LinkClick) (name : string) :
  name <> "" ->
  length (List.filter (fun key => String.eqb key name) (country_keys clicks))
  = length (clicks_from name clicks).
Proof.
  intros Hname. unfold country_keys, clicks_from.
  induction clicks as [|click clicks IH]; simpl; [reflexivity|].
  destruct (country (location click)) as [c|] eqn:Hc; simpl.
  - destruct (String.eqb c "") eqn:Hempty; simpl.
    + apply String.eqb_eq in Hempty. subst c.
      rewrite bool_decide_eq_false_2 by congruence. exact IH.
    + destruct (String.eqb c name) eqn:Hcn; simpl.
      * apply String.eqb_eq in Hcn. subst c.
        rewrite bool_decide_eq_true_2 by reflexivity. simpl. rewrite IH.
        reflexivity.
      * apply String.eqb_neq in Hcn.
        rewrite bool_decide_eq_false_2 by congruence. exact IH.
  - exact IH.
Qed.

Lemma country_keys_truthy (clicks : list LinkClick) (name : string) :
  name ∈ country_keys clicks -> name <> "".
Proof.
  unfold country_keys. induction clicks as [|click clicks IH]; simpl.
  - intros H. inversion H.
  - intros H. apply elem_of_app in H as [H|H]; [|exact (IH H)].
    destruct (country (location click)) as [c|]; simpl in H.
    + destruct (String.eqb c "") eqn:Hc; simpl in H; [inversion H|].
      apply list_elem_of_singleton in H. subst name.
      apply String.eqb_neq. exact Hc.
    + inversion H.
Qed.

Lemma bump_positive (counts : list (string * nat)) (key : string) :
  Forall (fun entry => 1 <= entry.2) counts ->
  Forall (fun entry => 1 <= entry.2) (bump key counts).
Proof.
  induction counts as [|[k n] rest IH]; simpl; intros Hall.
  - repeat constructor.
  - apply Forall_cons in Hall as [Hn Hrest].
    destruct (String.eqb k key); constructor; simpl in *; auto. lia.
Qed.

Lemma bump_all_positive (keys : list string) (start : list (string * nat)) :
  Forall (fun entry => 1 <= entry.2) start ->
  Forall (fun entry => 1 <= entry.2)
    (fold_left (fun counts key => bump key counts) keys start).
Proof.
  revert start. induction keys as [|key keys IH]; intros start Hall; simpl.
  - exact Hall.
  - apply IH, bump_positive, Hall.
Qed.

Lemma elem_of_sort_insert {A} (compare : A -> A -> Z) (x y : A) (l : list A) :
  y ∈ sort_insert compare x l <-> y = x \/ y ∈ l.
Proof.
  induction l as [|z l IH]; simpl.
  - rewrite list_elem_of_singleton. split; [auto|]. intros [H|H]; [exact H|].
    inversion H.
  - destruct (0 <? compare x z)%Z.
    + rewrite !elem_of_cons, IH. tauto.
    + rewrite !elem_of_cons. tauto.
Qed.

(** Sorting neither adds nor drops elements. *)
Lemma elem_of_js_sort {A} (compare : A -> A -> Z) (y : A) (l : list A) :
  y ∈ js_sort compare l <-> y ∈ l.
Proof.
  unfold js_sort. induction l as [|x l IH]; simpl; [reflexivity|].
  rewrite elem_of_sort_insert, IH, elem_of_cons. reflexivity.
Qed.

(** [Math.ceil]: the least integer not below the quotient. *)
Lemma ceil_div_spec (a b : Z) :
  (0 < b)%Z -> ((ceil_div a b - 1) * b < a <= ceil_div a b * b)%Z.
Proof.
  intros Hb. unfold ceil_div.
  pose proof (Z.div_mod (- a) b ltac:(lia)) as Hdiv.
  pose proof (Z.mod_pos_bound (- a) b Hb) as Hmod. nia.
Qed.

(** Every entry of the country grouping counts the clicks from that country. *)
Lemma byCountry_entry (clicks : list LinkClick) (name : string) (n : nat) :
  (name, n) ∈ byCountry (fold_left group_click clicks no_groups) ->
  n = length (clicks_from name clicks) /\ 1 <= n.
Proof.
  rewrite byCountry_fold. simpl byCountry. intros Hin.
  destruct (bump_all (country_keys clicks) [] (NoDup_nil_2)) as [Hnodup Hcount].
  pose proof (bump_all_positive (country_keys clicks) [] (Forall_nil_2 _)) as Hpos.
  rewrite Forall_forall in Hpos. specialize (Hpos _ Hin). simpl in Hpos.
  pose proof (count_in_entry _ _ _ Hnodup Hin) as Hn.
  rewrite Hcount in Hn. simpl in Hn.
  assert (Hname : name <> "").
  { destruct (List.filter (fun key => String.eqb key name) (country_keys clicks))
      as [|key rest] eqn:Hfilter; [simpl in Hn; lia|].
    assert (Hkey : List.In key (List.filter (fun key => String.eqb key name)
                                  (country_keys clicks)))
      by (rewrite Hfilter; left; reflexivity).
    apply List.filter_In in Hkey as [Hkey Heq].
    apply String.eqb_eq in Heq. subst key.
    apply (country_keys_truthy clicks). apply list_elem_of_In. exact Hkey. }
  rewrite (country_keys_count clicks name Hname) in Hn. split; [lia | exact Hpos].
Qed.

Lemma close_to_exact (exact q : Q) : (q == exact)%Q -> close_to exact q.
Proof.
  intros Heq. unfold close_to.
  assert (Hzero : (q - exact == 0)%Q) by (rewrite Heq; ring).
  rewrite Hzero. change (Qabs 0) with 0%Q.
  apply Qmult_le_0_compat; [discriminate | apply Qabs_nonneg].
Qed.

Lemma ceil_div_covers (a b : Z) :
  (0 < b)%Z -> units_covering a b (Z.max 1 (ceil_div a b)).
Proof.
  intros Hb. unfold units_covering, ceil_div.
  pose proof (Z.div_mod (- a) b ltac:(lia)) as Hdiv.
  pose proof (Z.mod_pos_bound (- a) b Hb) as Hmod.
  destruct (Z.max_spec 1 (- (- a / b))) as [[Hlt ->]|[Hle ->]]; nia.
Qed.

(** C6.  For a known link, every entry of [topLocations] carries the number
    of the link's clicks from its country, and its percentage is that number
    divided by the counter stored on the link, times 100: a number within
    double rounding of the exact value when the stored counter is not zero,
    and [Infinity] when it is, however many clicks there are.  When
    [createdAt] is a date, [averageClicksPerDay] is within double rounding of
    the stored counter divided by the least number of days, at least one,
    that cover the time since creation; it is [NaN] otherwise. *)
Theorem getLinkStats_divides_by_stored_counter
    (i : string) (now : Z) (w : World) (link : TrackingLink) :
  getLinkById i w = (Ok (Some link), w) ->
  exists stats,
    getLinkStats Date_of i now w = (Ok (Some stats), w)
    /\ (forall entry, entry ∈ LinkStats.topLocations stats ->
          TopLocation.clicks entry
          = length (clicks_from (TopLocation.country entry) (clicks_of i w))
          /\ 1 <= TopLocation.clicks entry
          /\ match TopLocation.percentage entry with
             | Num percentage =>
                 totalClicks link <> 0
                 /\ close_to
                      (inject_Z (Z.of_nat (TopLocation.clicks entry))
                       / inject_Z (Z.of_nat (totalClicks link)) * 100)
                      percentage
             | PosInfinity => totalClicks link = 0
             | NaN => False
             end)
    /\ (forall created,
          Date_of (JStr (createdAt link)) = Some created ->
          exists days average,
            units_covering (now - created) day_ms days
            /\ LinkStats.averageClicksPerDay stats = Num average
            /\ close_to
                 (inject_Z (Z.of_nat (totalClicks link)) / inject_Z days)
                 average)
    /\ (Date_of (JStr (createdAt link)) = None ->
        LinkStats.averageClicksPerDay stats = NaN)
    /\ LinkStats.totalClicks stats = totalClicks link.
Proof.
  rewrite getLinkById_run. intros [= Hlink].
  unfold getLinkStats.
  rewrite (bind_ok _ _ _ _ _ (getLinkById_run i w)), Hlink.
  rewrite (bind_ok _ _ _ _ _ (getClicksByLinkId_run i w)).
  eexists. split; [reflexivity|]. cbn [LinkStats.topLocations
    LinkStats.averageClicksPerDay LinkStats.totalClicks]. split.
  - intros entry Hin. unfold slice0 in Hin.
    apply subseteq_take, elem_of_js_sort, list_elem_of_fmap in Hin
      as ([name n] & -> & Hin).
    apply byCountry_entry in Hin as [Hn Hpos]. simpl.
    split; [exact Hn|]. split; [exact Hpos|].
    destruct n as [|n]; [lia|]. unfold js_div.
    destruct (totalClicks link) as [|total]; [reflexivity|].
    cbn [js_times]. split; [discriminate|]. apply close_to_exact.
    rewrite (Qmake_Qdiv (Z.of_nat (S n)) (Pos.of_nat (S total))).
    replace (Z.pos (Pos.of_nat (S total))) with (Z.of_nat (S total)) by lia.
    reflexivity.
  - split; [|split; [|reflexivity]].
    + intros created Hcreated. unfold daysSinceCreation. rewrite Hcreated.
      simpl. set (days := Z.max 1 (ceil_div (now - created) day_ms)).
      assert (Hcover : units_covering (now - created) day_ms days)
        by (apply ceil_div_covers; reflexivity).
      exists days. eexists. split; [exact Hcover|]. split; [reflexivity|].
      apply close_to_exact. rewrite Qmake_Qdiv.
      replace (Z.pos (Z.to_pos days)) with days
        by (destruct Hcover as [Hone _]; lia).
      reflexivity.
    + intros Hcreated. unfold daysSinceCreation. rewrite Hcreated. reflexivity.
Qed.

(** ** Reads never fail (C10) *)

Lemma getAnalyticsOverview_run (now : Z) (w : World) :
  exists overview,
    getAnalyticsOverview Date_of toISOString now w = (Ok overview, w)
    /\ AnalyticsOverview.totalLinks overview = length (rows_of (links_file w))
    /\ AnalyticsOverview.totalClicks overview = length (rows_of (clicks_file w))
    /\ (rows_of (links_file w) = [] -> rows_of (clicks_file w) = [] ->
        overview = empty_overview).
Proof.
  unfold getAnalyticsOverview.
  rewrite (bind_ok _ _ _ _ _ (getAllLinks_run w)).
  rewrite (bind_ok _ _ _ _ _ (getAllClicks_run w)).
  eexists. split; [reflexivity|]. split; [reflexivity|]. split; [reflexivity|].
  intros -> ->. reflexivity.
Qed.

Lemma getLinkStats_unknown (i : string) (now : Z) (w : World) :
  link_by_id i w = None -> getLinkStats Date_of i now w = (Ok None, w).
Proof.
  intros Hlink. unfold getLinkStats.
  rewrite (bind_ok _ _ _ _ _ (getLinkById_run i w)), Hlink. reflexivity.
Qed.

(** C10.  The five read operations always return, never raise and leave the
    world alone.  A file that cannot be read or parsed reads as the empty
    array: lookups answer [null], the click list is empty, the statistics of a
    link are [null] and, with both files unreadable, the overview is all
    zeros.  No read tells a store with unreadable files from the same store
    with empty files. *)
Theorem reads_never_raise (w : World) (i code : string) (now : Z) :
  getAllLinks w = (Ok (rows_of (links_file w)), w)
  /\ getAllClicks w = (Ok (rows_of (clicks_file w)), w)
  /\ (exists found, getLinkByShortCode code w = (Ok found, w))
  /\ (exists found, getLinkById i w = (Ok found, w))
  /\ (exists clicks, getClicksByLinkId i w = (Ok clicks, w))
  /\ (links_file w = Unreadable ->
      getAllLinks w = (Ok [], w)
      /\ getLinkByShortCode code w = (Ok None, w)
      /\ getLinkById i w = (Ok None, w)
      /\ getLinkStats Date_of i now w = (Ok None, w))
  /\ (clicks_file w = Unreadable ->
      getAllClicks w = (Ok [], w) /\ getClicksByLinkId i w = (Ok [], w))
  /\ (links_file w = Unreadable -> clicks_file w = Unreadable ->
      getAnalyticsOverview Date_of toISOString now w = (Ok empty_overview, w))
  /\ (getAllLinks w).1 = (getAllLinks (blank w)).1
  /\ (getAllClicks w).1 = (getAllClicks (blank w)).1
  /\ (getLinkByShortCode code w).1 = (getLinkByShortCode code (blank w)).1
  /\ (getLinkById i w).1 = (getLinkById i (blank w)).1
  /\ (getClicksByLinkId i w).1 = (getClicksByLinkId i (blank w)).1.
Proof.
  split; [apply getAllLinks_run|]. split; [apply getAllClicks_run|].
  split; [eexists; apply getLinkByShortCode_run|].
  split; [eexists; apply getLinkById_run|].
  split; [eexists; apply getClicksByLinkId_run|].
  split.
  { intros Hlinks.
    rewrite getAllLinks_run, getLinkByShortCode_run, getLinkById_run.
    rewrite (getLinkStats_unknown i now w);
      unfold link_by_code, link_by_id; rewrite Hlinks; repeat split. }
  split.
  { intros Hclicks. rewrite getAllClicks_run, getClicksByLinkId_run.
    unfold clicks_of. rewrite Hclicks. split; reflexivity. }
  split.
  { intros Hlinks Hclicks.
    destruct (getAnalyticsOverview_run now w) as (overview & -> & _ & _ & Hzero).
    rewrite Hzero; [reflexivity | rewrite Hlinks | rewrite Hclicks]; reflexivity. }
  rewrite !getAllLinks_run, !getAllClicks_run, !getLinkByShortCode_run,
    !getLinkById_run, !getClicksByLinkId_run.
  repeat split.
Qed.

End HandlerProperties.

(** ** The statements at sample inputs *)

Lemma addClick_recomputes_counters_witness :
  getLinkById (linkId first_click) promo_store
    = (Ok (Some promo_link), promo_store)
  /\ exists w' l',
       addClick first_click "2024-01-01T00:00:00.000Z" promo_store = (Ok tt, w')
       /\ getLinkById "l1" w' = (Ok (Some l'), w')
       /\ totalClicks l' = 1 /\ uniqueClicks l' = 1
       /\ lastClickAt l' = Some (timestamp first_click).
Proof.
  split; [reflexivity|].
  destruct (addClick_recomputes_counters first_click
              "2024-01-01T00:00:00.000Z" promo_store promo_link eq_refl)
    as [Hafter Hcompletes].
  destruct (Hcompletes eq_refl) as [w' Hrun].
  destruct (Hafter w' Hrun) as (l' & Hlink & _ & _ & _ & _ & Hlast & Hfirst).
  destruct (Hfirst eq_refl) as [Htotal Hunique].
  exists w', l'. repeat split; assumption.
Defined.

Lemma deleteLink_cascades_witness :
  getLinkById "l1" clicked_store = (Ok (Some promo_link_clicked), clicked_store)
  /\ exists w',
       deleteLink "l1" clicked_store = (Ok true, w')
       /\ getLinkById "l1" w' = (Ok None, w')
       /\ getClicksByLinkId "l1" w' = (Ok [], w').
Proof.
  split; [reflexivity|].
  destruct (deleteLink_cascades "l1" clicked_store promo_link_clicked eq_refl)
    as [Hafter Hcompletes].
  destruct (Hcompletes eq_refl) as [w' Hrun].
  destruct (Hafter true w' Hrun) as (_ & Hlink & Hclicks & _).
  exists w'. repeat split; assumption.
Defined.

Lemma GET_state_machine_witness :
  exists w',
    GET sample_Date_of sample_toISOString sample_getClientIP
      sample_parseUserAgent sample_parseReferer failing_geolocation
      promo_request sample_runtime promo_store
    = (Ok (Redirect "https://example.com" 302), w').
Proof.
  destruct (GET_state_machine sample_Date_of sample_toISOString
              sample_getClientIP sample_parseUserAgent sample_parseReferer
              failing_geolocation promo_request sample_runtime promo_store)
    as (response & w' & Hrun & _ & Hcases & _).
  destruct (Hcases promo_link eq_refl) as (_ & _ & Hredirect).
  exists w'. rewrite Hrun, Hredirect; [reflexivity | reflexivity | |].
  - intros [Hset _]. discriminate Hset.
  - intros [Hset _]. discriminate Hset.
Defined.

(** The geolocation service is down and the disk rejects the write: the
    visitor is redirected all the same. *)
Lemma tracking_failure_keeps_redirect_witness :
  getLinkByShortCode (req_shortCode promo_request) promo_store_faulty
    = (Ok (Some promo_link), promo_store_faulty)
  /\ isBot "Mozilla/5.0 Firefox/126.0" = false
  /\ exists w',
       GET sample_Date_of sample_toISOString sample_getClientIP
         sample_parseUserAgent sample_parseReferer failing_geolocation
         promo_request sample_runtime promo_store_faulty
       = (Ok (Redirect (originalUrl promo_link) 302), w').
Proof.
  split; [reflexivity|]. split; [reflexivity|].
  apply (tracking_failure_keeps_redirect sample_Date_of sample_toISOString
           sample_getClientIP sample_parseUserAgent sample_parseReferer
           failing_geolocation promo_request sample_runtime promo_store_faulty
           promo_link eq_refl eq_refl).
  - intros [Hset _]. discriminate Hset.
  - intros [Hset _]. discriminate Hset.
Defined.


(** An [expiresAt] that is no date at all is stored as well: the comparison
    with an invalid date is false. *)
Example PUT_stores_unparseable_expiresAt :
  sample_Date_of_json (JsonString "soon") = None
  /\ PUT sample_Date_of_json sample_toISOString "l1" (Ok garbled_expiry_body)
       sample_runtime promo_store
     = (Ok (ApiData (Some (hide_password (promo_link_expiring (JStr "soon"))))),
        store_of [promo_link_expiring (JStr "soon")] []).
Proof. split; [reflexivity | vm_compute; reflexivity]. Qed.

(** A number beyond the double range is stored as [null]. *)
Example PUT_stores_infinity_as_null :
  exists data w',
    PUT sample_Date_of_json sample_toISOString "l1" (Ok overflow_body)
      sample_runtime promo_store
    = (Ok (ApiData (Some data)), w')
    /\ title data = JNull /\ isActive data = JNull.
Proof. eexists _, _. split; [vm_compute; reflexivity|]. split; reflexivity. Qed.


(** Four clicks are stored for the promo link, three of them with a country:
    the percentages are 2/4 and 1/4 of 100, which doubles hold exactly, and
    do not add up to 100, as they would if the divisor were the sum of the
    country counts. *)
Lemma percentages_use_stored_counter :
  exists stats,
    getLinkStats sample_Date_of "l1" (now sample_runtime) clicked_store
      = (Ok (Some stats), clicked_store)
    /\ TopLocation.country <$> LinkStats.topLocations stats = ["France"; "Peru"]
    /\ TopLocation.clicks <$> LinkStats.topLocations stats = [2; 1]
    /\ TopLocation.percentage <$> LinkStats.topLocations stats
       = [Num (200 # 4); Num (100 # 4)].
Proof. eexists. split; [reflexivity|]. repeat split. Qed.

Lemma getLinkStats_divides_by_stored_counter_witness :
  getLinkById "l1" clicked_store = (Ok (Some promo_link_clicked), clicked_store)
  /\ exists stats,
       getLinkStats sample_Date_of "l1" (now sample_runtime) clicked_store
         = (Ok (Some stats), clicked_store)
       /\ forall entry, entry ∈ LinkStats.topLocations stats ->
            exists percentage,
              TopLocation.percentage entry = Num percentage
              /\ close_to
                   (inject_Z (Z.of_nat (TopLocation.clicks entry)) / 4 * 100)
                   percentage.
Proof.
  split; [reflexivity|].
  destruct (getLinkStats_divides_by_stored_counter sample_Date_of "l1"
              (now sample_runtime) clicked_store promo_link_clicked eq_refl)
    as (stats & Hrun & Hentries & _).
  exists stats. split; [exact Hrun|]. intros entry Hin.
  destruct (Hentries entry Hin) as (_ & _ & Hpercentage).
  destruct (TopLocation.percentage entry) as [percentage| |].
  - exists percentage. split; [reflexivity|]. exact (proj2 Hpercentage).
  - discriminate Hpercentage.
  - contradiction.
Defined.

Lemma reads_never_raise_witness :
  links_file unreadable_store = Unreadable
  /\ clicks_file unreadable_store = Unreadable
  /\ getLinkByShortCode "promo" unreadable_store = (Ok None, unreadable_store)
  /\ getClicksByLinkId "l1" unreadable_store = (Ok [], unreadable_store)
  /\ getAnalyticsOverview sample_Date_of sample_toISOString 0 unreadable_store
     = (Ok empty_overview, unreadable_store).
Proof.
  destruct (reads_never_raise sample_Date_of sample_toISOString
              unreadable_store "l1" "promo" 0)
    as (_ & _ & _ & _ & _ & Hlinks & Hclicks & Hoverview & _).
  split; [reflexivity|]. split; [reflexivity|].
  destruct (Hlinks eq_refl) as (_ & Hcode & _).
  destruct (Hclicks eq_refl) as (_ & Hlist).
  split; [exact Hcode|]. split; [exact Hlist|]. exact (Hoverview eq_refl eq_refl).
Defined.

(** ** The redirect handler on the gated store *)

Example GET_unknown_code :
  (sample_GET (request_for "nope" None "Firefox") sample_runtime gated_store).1
  = Ok (Text "Link not found" 404).
Proof. vm_compute. reflexivity. Qed.

Example GET_disabled :
  (sample_GET (request_for "off" None "Firefox") sample_runtime gated_store).1
  = Ok (Text "Link is disabled" 410).
Proof. vm_compute. reflexivity. Qed.

Example GET_expired :
  (sample_GET (request_for "old" None "Firefox") sample_runtime gated_store).1
  = Ok (Text "Link has expired" 410).
Proof. vm_compute. reflexivity. Qed.

Example GET_password_missing :
  sample_GET (request_for "vip" None "Firefox") sample_runtime gated_store
  = (Ok (PasswordPrompt "vip"), gated_store).
Proof. vm_compute. reflexivity. Qed.

Example GET_password_wrong :
  sample_GET (request_for "vip" (Some "guess") "Firefox") sample_runtime
    gated_store
  = (Ok (PasswordPrompt "vip"), gated_store).
Proof. vm_compute. reflexivity. Qed.

(** The right password: the visitor is redirected and the first click is
    counted. *)
Example GET_password_right :
  exists w',
    sample_GET (request_for "vip" (Some "secret1") "Firefox") sample_runtime
      gated_store
    = (Ok (Redirect "https://example.com/vip" 302), w')
    /\ (totalClicks <$> link_by_id "l5" w') = Some 1
    /\ length (clicks_of "l5" w') = 1.
Proof. eexists. split; [vm_compute; reflexivity|]. split; reflexivity. Qed.

(** A crawler is redirected without being tracked. *)
Example GET_bot_not_tracked :
  sample_GET (request_for "promo" None "Googlebot/2.1") sample_runtime
    gated_store
  = (Ok (Redirect "https://example.com" 302), gated_store).
Proof. vm_compute. reflexivity. Qed.

(** * Further properties of the store *)

Lemma addClick_unfold (c : LinkClick) (nowS : string) (w : World) :
  addClick c nowS w
  = bind (writeJSONFile CLICKS_FILE (rows_of (clicks_file w) ++ [c])%list)
      (fun _ => updateLinkStats (linkId c) nowS) w.
Proof.
  unfold addClick. rewrite (bind_ok _ _ _ _ _ (getAllClicks_run w)). reflexivity.
Qed.

Lemma updateLinkStats_unfold (i nowS : string) (w : World) :
  updateLinkStats i nowS w
  = bind (updateLink i (stats_update (clicks_of i w)) nowS) (fun _ => ret tt) w.
Proof.
  unfold updateLinkStats.
  rewrite (bind_ok _ _ _ _ _ (getClicksByLinkId_run i w)). reflexivity.
Qed.

Lemma clicks_of_snoc (i : string) (c : LinkClick) (faults : list bool)
    (w : World) :
  clicks_of i (store_at CLICKS_FILE (rows_of (clicks_file w) ++ [c])%list faults w)
  = (clicks_of i w ++ (if String.eqb (linkId c) i then [c] else []))%list.
Proof. unfold clicks_of. simpl. rewrite filter_snoc. reflexivity. Qed.

Lemma found_has_id (i : string) (w : World) (l : TrackingLink) :
  link_by_id i w = Some l -> id l = i.
Proof.
  intros Hfound. destruct (find_findIndex _ _ _ Hfound) as (index & Hi & Hrow).
  destruct (findIndex_find _ _ _ Hi) as (x & Hx & _ & Hp).
  rewrite Hrow in Hx. injection Hx as <-. apply String.eqb_eq. exact Hp.
Qed.

Lemma writeJSONFile_run {T} (filePath : path T) (data : list T) (w : World) :
  writeJSONFile filePath data w
  = match write_faults w with
    | true :: rest =>
        (Throw "writeFile failed",
         {| links_file := links_file w; clicks_file := clicks_file w;
            write_faults := rest |})
    | _ => (Ok tt, store_at filePath data (tail (write_faults w)) w)
    end.
Proof. unfold writeJSONFile. destruct (write_faults w) as [|[] rest]; reflexivity. Qed.

Lemma updateLink_run (i : string) (updates : PartialLink) (nowS : string)
    (w : World) :
  updateLink i updates nowS w
  = match link_by_id i w,
          findIndex (fun l => String.eqb (id l) i) (rows_of (links_file w)) with
    | Some link, Some index =>
        match write_faults w with
        | true :: rest =>
            (Throw "writeFile failed",
             {| links_file := links_file w; clicks_file := clicks_file w;
                write_faults := rest |})
        | _ =>
            (Ok true,
             store_at LINKS_FILE
               (<[index := spread link updates nowS]> (rows_of (links_file w)))
               (tail (write_faults w)) w)
        end
    | _, _ => (Ok false, w)
    end.
Proof.
  destruct (link_by_id i w) as [link|] eqn:Hlink.
  - destruct (updateLink_found i updates nowS w link Hlink)
      as (index & Hi & Hrow & ->).
    rewrite Hi. unfold bind. rewrite writeJSONFile_run.
    destruct (write_faults w) as [|[] rest]; reflexivity.
  - rewrite (updateLink_missing i updates nowS w Hlink). reflexivity.
Qed.

(** Every way [addClick] can end, by the fate of its two writes. *)
Lemma addClick_run (c : LinkClick) (nowS : string) (w : World) :
  addClick c nowS w
  = match write_faults w with
    | true :: rest =>
        (Throw "writeFile failed",
         {| links_file := links_file w; clicks_file := clicks_file w;
            write_faults := rest |})
    | _ =>
        let w1 := store_at CLICKS_FILE (rows_of (clicks_file w) ++ [c])%list
                    (tail (write_faults w)) w in
        match link_by_id (linkId c) w,
              findIndex (fun l => String.eqb (id l) (linkId c))
                (rows_of (links_file w)) with
        | Some link, Some index =>
            match tail (write_faults w) with
            | true :: rest =>
                (Throw "writeFile failed",
                 {| links_file := links_file w;
                    clicks_file :=
                      Contents (rows_of (clicks_file w) ++ [c])%list;
                    write_faults := rest |})
            | _ =>
                (Ok tt,
                 store_at LINKS_FILE
                   (<[index := spread link
                        (stats_update (clicks_of (linkId c) w ++ [c])%list)
                        nowS]> (rows_of (links_file w)))
                   (tail (tail (write_faults w))) w1)
            end
        | _, _ => (Ok tt, w1)
        end
    end.
Proof.
  rewrite addClick_unfold. unfold bind at 1. rewrite writeJSONFile_run.
  destruct (write_faults w) as [|[] rest] eqn:Hfaults; [|reflexivity|];
    cbv zeta; simpl tail; rewrite updateLinkStats_unfold; unfold bind;
    rewrite updateLink_run, clicks_of_snoc, String.eqb_refl;
    change (link_by_id (linkId c) (store_at CLICKS_FILE _ _ w))
      with (link_by_id (linkId c) w);
    simpl links_file; simpl write_faults;
    destruct (link_by_id (linkId c) w) as [link|]; try reflexivity;
    match goal with |- context [findIndex ?p ?l] =>
      destruct (findIndex p l) as [index|]
    end; try reflexivity.
  destruct rest as [|[] rest']; reflexivity.
Qed.

(** A lookup by id after the first link with id [i] has been replaced by a
    link with the same id. *)
Lemma find_after_patch (rows : list TrackingLink) (i j : string) (index : nat)
    (l l' : TrackingLink) :
  findIndex (fun x => String.eqb (id x) i) rows = Some index ->
  rows !! index = Some l -> id l' = id l ->
  find (fun x => String.eqb (id x) j) (<[index := l']> rows)
  = if String.eqb i j then Some l'
    else find (fun x => String.eqb (id x) j) rows.
Proof.
  intros Hi Hrow Hid.
  assert (Hl : id l = i).
  { destruct (findIndex_find _ _ _ Hi) as (x & Hx & _ & Hp).
    rewrite Hrow in Hx. injection Hx as <-. apply String.eqb_eq. exact Hp. }
  destruct (String.eqb i j) eqn:Hij.
  - apply String.eqb_eq in Hij. subst j.
    apply (find_insert_first _ _ _ _ Hi). rewrite Hid, Hl. apply String.eqb_refl.
  - apply (find_insert_other _ _ _ l); [exact Hrow | rewrite Hid; reflexivity|].
    intros Hj. apply String.eqb_eq in Hj. apply String.eqb_neq in Hij.
    congruence.
Qed.

(** X1.  [addClick] keeps the counters of every link consistent with the
    clicks: if each link found by id carries the number of its clicks and of
    their distinct sessions, the same holds after any [addClick] that
    completes, whichever link the click names. *)
Theorem addClick_keeps_counters_consistent
    (c : LinkClick) (nowS : string) (w w' : World) :
  counters_consistent w ->
  addClick c nowS w = (Ok tt, w') ->
  counters_consistent w'.
Proof.
  intros Hinv Hrun. rewrite addClick_run in Hrun.
  assert (Hplain : forall faults, counters_consistent
            (store_at CLICKS_FILE (rows_of (clicks_file w) ++ [c])%list faults w)
          \/ link_by_id (linkId c) w <> None).
  { intros faults. destruct (link_by_id (linkId c) w) eqn:Hlink;
      [right; discriminate|]. left. intros i l Hl.
    change (link_by_id i w = Some l) in Hl.
    rewrite clicks_of_snoc. destruct (String.eqb (linkId c) i) eqn:Hi.
    - apply String.eqb_eq in Hi. subst i. congruence.
    - rewrite app_nil_r. apply Hinv, Hl. }
  assert (Hpatched : forall link index faults faults',
    link_by_id (linkId c) w = Some link ->
    findIndex (fun l => String.eqb (id l) (linkId c)) (rows_of (links_file w))
      = Some index ->
    counters_consistent
      (store_at LINKS_FILE
         (<[index := spread link
              (stats_update (clicks_of (linkId c) w ++ [c])%list) nowS]>
            (rows_of (links_file w))) faults'
         (store_at CLICKS_FILE (rows_of (clicks_file w) ++ [c])%list faults w))).
  { intros link index faults faults' Hlink Hi i l.
    destruct (find_findIndex _ _ _ Hlink) as (index' & Hi' & Hrow).
    rewrite Hi in Hi'. injection Hi' as <-.
    unfold link_by_id. simpl links_file. simpl rows_of.
    rewrite (find_after_patch _ (linkId c) i index link) by (auto; reflexivity).
    change (clicks_of i (store_at LINKS_FILE _ _ ?w1)) with (clicks_of i w1).
    rewrite clicks_of_snoc.
    destruct (String.eqb (linkId c) i) eqn:Hci.
    - apply String.eqb_eq in Hci. subst i. intros [= <-]. split; reflexivity.
    - rewrite app_nil_r. apply Hinv. }
  destruct (write_faults w) as [|[] rest]; [| discriminate |]; cbv zeta in Hrun;
    simpl tail in Hrun.
  - destruct (link_by_id (linkId c) w) as [link|] eqn:Hlink.
    + destruct (find_findIndex _ _ _ Hlink) as (index & Hi & _).
      rewrite Hi in Hrun. injection Hrun as <-.
      apply (Hpatched link index [] [] eq_refl Hi).
    + injection Hrun as <-. destruct (Hplain []) as [H|H]; [exact H|].
      contradiction.
  - destruct (link_by_id (linkId c) w) as [link|] eqn:Hlink.
    + destruct (find_findIndex _ _ _ Hlink) as (index & Hi & _).
      rewrite Hi in Hrun. destruct rest as [|[] rest']; [| discriminate |];
        injection Hrun as <-.
      * apply (Hpatched link index [] [] eq_refl Hi).
      * apply (Hpatched link index (false :: rest') rest' eq_refl Hi).
    + injection Hrun as <-. destruct (Hplain rest) as [H|H]; [exact H|].
      contradiction.
Qed.

Lemma promo_store_consistent : counters_consistent promo_store.
Proof.
  intros i l. unfold link_by_id.
  change (rows_of (links_file promo_store)) with [promo_link]. cbn [find].
  destruct (String.eqb (id promo_link) i); [|discriminate].
  intros [= <-]. split; reflexivity.
Qed.

Lemma addClick_keeps_counters_consistent_witness :
  counters_consistent promo_store
  /\ exists w',
       addClick first_click "2024-01-01T00:00:00.000Z" promo_store = (Ok tt, w')
       /\ counters_consistent w'.
Proof.
  split; [exact promo_store_consistent|].
  eexists. split; [vm_compute; reflexivity|].
  apply (addClick_keeps_counters_consistent first_click
           "2024-01-01T00:00:00.000Z" promo_store _ promo_store_consistent).
  vm_compute. reflexivity.
Defined.

(** X2.  [addClick] does not check that the click's link exists: for a
    [linkId] that no link has, every run that completes has appended the
    click and left the links file alone, and without write faults it
    completes. *)
Theorem addClick_accepts_orphan (c : LinkClick) (nowS : string) (w : World) :
  getLinkById (linkId c) w = (Ok None, w) ->
  (forall w', addClick c nowS w = (Ok tt, w') ->
     links_file w' = links_file w
     /\ rows_of (clicks_file w') = (rows_of (clicks_file w) ++ [c])%list)
  /\ (write_faults w = [] -> exists w', addClick c nowS w = (Ok tt, w')).
Proof.
  rewrite getLinkById_run. intros [= Hlink]. rewrite addClick_run, Hlink.
  destruct (write_faults w) as [|[] rest]; cbv zeta; simpl tail.
  - split; [intros w' [= <-]; split; reflexivity|]. intros _. eexists. reflexivity.
  - split; [intros w' [=]|]. intros [=].
  - split; [intros w' [= <-]; split; reflexivity|]. intros [=].
Qed.

Lemma addClick_accepts_orphan_witness :
  getLinkById "l7" promo_store = (Ok None, promo_store)
  /\ addClick (sample_click "c9" "l7" "gone" "s9" None)
       "2024-01-01T00:00:00.000Z" promo_store
     = (Ok tt, store_of [promo_link] [sample_click "c9" "l7" "gone" "s9" None]).
Proof.
  split; [reflexivity|].
  destruct (addClick_accepts_orphan (sample_click "c9" "l7" "gone" "s9" None)
              "2024-01-01T00:00:00.000Z" promo_store eq_refl) as [_ Hcompletes].
  destruct (Hcompletes eq_refl) as [w' Hrun].
  rewrite Hrun. vm_compute in Hrun. injection Hrun as <-. reflexivity.
Defined.

(** X3.  [addClick] is two writes, not one: when the clicks file is written
    and the write of the links file fails, [addClick] raises, the click stays
    recorded and the link keeps its old counters. *)
Theorem addClick_not_atomic
    (c : LinkClick) (nowS : string) (w : World) (l : TrackingLink)
    (rest : list bool) :
  getLinkById (linkId c) w = (Ok (Some l), w) ->
  write_faults w = false :: true :: rest ->
  exists w',
    addClick c nowS w = (Throw "writeFile failed", w')
    /\ getClicksByLinkId (linkId c) w'
       = (Ok (clicks_of (linkId c) w ++ [c])%list, w')
    /\ getLinkById (linkId c) w' = (Ok (Some l), w').
Proof.
  rewrite getLinkById_run. intros [= Hlink] Hfaults.
  rewrite addClick_run, Hfaults, Hlink. cbv zeta. simpl tail.
  destruct (find_findIndex _ _ _ Hlink) as (index & -> & _).
  eexists. split; [reflexivity|].
  rewrite getClicksByLinkId_run, getLinkById_run. split.
  - do 2 f_equal. unfold clicks_of. simpl clicks_file. simpl rows_of.
    rewrite filter_snoc, String.eqb_refl. reflexivity.
  - do 2 f_equal. exact Hlink.
Qed.

Lemma addClick_not_atomic_witness :
  exists w',
    addClick first_click "2024-01-01T00:00:00.000Z"
      {| links_file := Contents [promo_link]; clicks_file := Contents [];
         write_faults := [false; true] |}
    = (Throw "writeFile failed", w')
    /\ getClicksByLinkId "l1" w' = (Ok [first_click], w')
    /\ (totalClicks <$> link_by_id "l1" w') = Some 0.
Proof.
  destruct (addClick_not_atomic first_click "2024-01-01T00:00:00.000Z"
              {| links_file := Contents [promo_link]; clicks_file := Contents [];
                 write_faults := [false; true] |} promo_link [] eq_refl eq_refl)
    as (w' & Hrun & Hclicks & Hlink).
  exists w'. split; [exact Hrun|]. split; [exact Hclicks|].
  rewrite getLinkById_run in Hlink. injection Hlink as ->. reflexivity.
Defined.

(** ** [deleteLink] and [updateLink] at the edges *)

Lemma deleteLink_run (i : string) (w : World) :
  deleteLink i w
  = match link_by_id i w with
    | None => (Ok false, w)
    | Some _ =>
        match write_faults w with
        | true :: rest =>
            (Throw "writeFile failed",
             {| links_file := links_file w; clicks_file := clicks_file w;
                write_faults := rest |})
        | _ =>
            let remaining :=
              List.filter (fun link => negb (String.eqb (id link) i))
                (rows_of (links_file w)) in
            match tail (write_faults w) with
            | true :: rest =>
                (Throw "writeFile failed",
                 {| links_file := Contents remaining;
                    clicks_file := clicks_file w; write_faults := rest |})
            | _ =>
                (Ok true,
                 {| links_file := Contents remaining;
                    clicks_file :=
                      Contents
                        (List.filter
                           (fun click => negb (String.eqb (linkId click) i))
                           (rows_of (clicks_file w)));
                    write_faults := tail (tail (write_faults w)) |})
            end
        end
    end.
Proof.
  unfold deleteLink. rewrite (bind_ok _ _ _ _ _ (getAllLinks_run w)).
  unfold link_by_id.
  destruct (find (fun link => String.eqb (id link) i) (rows_of (links_file w)))
    as [l|] eqn:Hlink.
  - pose proof (filter_drops_found _ _ _ Hlink) as Hlt.
    replace (Nat.eqb _ _) with false by (symmetry; apply Nat.eqb_neq; simpl; lia).
    unfold bind. rewrite writeJSONFile_run.
    destruct (write_faults w) as [|[] rest]; [| reflexivity |]; simpl tail;
      rewrite getAllClicks_run, writeJSONFile_run; simpl write_faults;
      [reflexivity|].
    destruct rest as [|[] rest']; reflexivity.
  - rewrite (filter_keeps_all _ _ Hlink), Nat.eqb_refl. reflexivity.
Qed.

(** X4.  [deleteLink] for an id that no link has returns [false] and
    attempts no write: the world, pending write faults included, is as
    before. *)
Theorem deleteLink_unknown_id (i : string) (w : World) :
  getLinkById i w = (Ok None, w) -> deleteLink i w = (Ok false, w).
Proof.
  rewrite getLinkById_run. intros [= Hlink]. rewrite deleteLink_run, Hlink.
  reflexivity.
Qed.

Lemma deleteLink_unknown_id_witness :
  deleteLink "l7" promo_store_faulty = (Ok false, promo_store_faulty).
Proof. apply (deleteLink_unknown_id "l7" promo_store_faulty). reflexivity. Defined.

(** X5.  The cascade of [deleteLink] is two writes: when the links file is
    written and the write of the clicks file fails, [deleteLink] raises, the
    link is gone and its clicks are still in the store. *)
Theorem deleteLink_not_atomic
    (i : string) (w : World) (l : TrackingLink) (rest : list bool) :
  getLinkById i w = (Ok (Some l), w) ->
  write_faults w = false :: true :: rest ->
  exists w',
    deleteLink i w = (Throw "writeFile failed", w')
    /\ getLinkById i w' = (Ok None, w')
    /\ getClicksByLinkId i w' = (Ok (clicks_of i w), w').
Proof.
  rewrite getLinkById_run. intros [= Hlink] Hfaults.
  rewrite deleteLink_run, Hlink, Hfaults. cbv zeta. simpl tail.
  eexists. split; [reflexivity|].
  rewrite getLinkById_run, getClicksByLinkId_run. split; [|reflexivity].
  do 2 f_equal. unfold link_by_id. simpl.
  apply (find_filter_neg (fun link => String.eqb (id link) i)).
Qed.

Lemma deleteLink_not_atomic_witness :
  exists w',
    deleteLink "l1"
      {| links_file := links_file clicked_store;
         clicks_file := clicks_file clicked_store;
         write_faults := [false; true] |}
    = (Throw "writeFile failed", w')
    /\ getLinkById "l1" w' = (Ok None, w')
    /\ length (clicks_of "l1" w') = 4.
Proof.
  destruct (deleteLink_not_atomic "l1"
              {| links_file := links_file clicked_store;
                 clicks_file := clicks_file clicked_store;
                 write_faults := [false; true] |}
              promo_link_clicked [] eq_refl eq_refl)
    as (w' & Hrun & Hlink & Hclicks).
  exists w'. split; [exact Hrun|]. split; [exact Hlink|].
  rewrite getClicksByLinkId_run in Hclicks. injection Hclicks as ->. reflexivity.
Defined.

(** X6.  [updateLink] returns [false] exactly when no link has the id, and
    then writes nothing.  When it completes with [true], the row of the first
    link with that id, and no other row, has been replaced by the merge of
    that link with the updates, stamped with the time of the call even if the
    updates carry an [updatedAt] of their own; the clicks are as before.
    When the updates carry no [id], a lookup of the id then returns the merged
    link and the lookup of every other id returns what it returned before. *)
Theorem updateLink_result
    (i : string) (updates : PartialLink) (nowS : string) (w w' : World)
    (b : bool) :
  updateLink i updates nowS w = (Ok b, w') ->
  (b = false <-> getLinkById i w = (Ok None, w))
  /\ (b = false -> w' = w)
  /\ clicks_file w' = clicks_file w
  /\ (forall l, getLinkById i w = (Ok (Some l), w) ->
        exists index,
          findIndex (fun link => String.eqb (id link) i) (rows_of (links_file w))
          = Some index
          /\ rows_of (links_file w) !! index = Some l
          /\ rows_of (links_file w')
             = <[index := spread l updates nowS]> (rows_of (links_file w))
          /\ updatedAt (spread l updates nowS) = nowS
          /\ (p_id updates = None ->
              getLinkById i w' = (Ok (Some (spread l updates nowS)), w')
              /\ forall other, other <> i ->
                   getLinkById other w' = (Ok (link_by_id other w), w'))).
Proof.
  rewrite updateLink_run, !getLinkById_run.
  destruct (link_by_id i w) as [link|] eqn:Hlink.
  - destruct (find_findIndex _ _ _ Hlink) as (index & Hi & Hrow). rewrite Hi.
    assert (Hdone : forall faults,
      let w1 := store_at LINKS_FILE
                  (<[index := spread link updates nowS]> (rows_of (links_file w)))
                  faults w in
      (true = false <-> (Ok (Some link), w) = (Ok (@None TrackingLink), w))
      /\ (true = false -> w1 = w)
      /\ clicks_file w1 = clicks_file w
      /\ (forall l, (Ok (Some link), w) = (Ok (Some l), w) ->
            exists index',
              Some index = Some index'
              /\ rows_of (links_file w) !! index' = Some l
              /\ rows_of (links_file w1)
                 = <[index' := spread l updates nowS]> (rows_of (links_file w))
              /\ updatedAt (spread l updates nowS) = nowS
              /\ (p_id updates = None ->
                  getLinkById i w1 = (Ok (Some (spread l updates nowS)), w1)
                  /\ forall other, other <> i ->
                       getLinkById other w1 = (Ok (link_by_id other w), w1)))).
    { intros faults w1. split; [split; discriminate|]. split; [discriminate|].
      split; [reflexivity|].
      intros l [= <-]. exists index. split; [reflexivity|].
      split; [exact Hrow|]. split; [reflexivity|]. split; [reflexivity|].
      intros Hid. split.
      - rewrite getLinkById_run. do 2 f_equal. unfold link_by_id.
        simpl. rewrite (find_after_patch _ i i index link)
          by (auto; simpl; rewrite Hid; reflexivity).
        rewrite String.eqb_refl. reflexivity.
      - intros other Hne. rewrite getLinkById_run. do 2 f_equal.
        unfold link_by_id. simpl.
        rewrite (find_after_patch _ i other index link)
          by (auto; simpl; rewrite Hid; reflexivity).
        apply String.eqb_neq in Hne. rewrite String.eqb_sym, Hne. reflexivity. }
    destruct (write_faults w) as [|[] rest]; [| discriminate |];
      intros [= <- <-]; apply Hdone.
  - intros [= <- <-]. split; [split; reflexivity|]. split; [reflexivity|].
    split; [reflexivity|]. intros l [=].
Qed.

Lemma updateLink_result_witness :
  updateLink "l1" (stats_update [first_click]) "2025-01-01T00:00:00.000Z"
    promo_store
  = (Ok true,
     store_of [spread promo_link (stats_update [first_click])
                 "2025-01-01T00:00:00.000Z"] [])
  /\ updateLink "l7" (stats_update []) "2025-01-01T00:00:00.000Z" promo_store
     = (Ok false, promo_store)
  /\ getLinkById "l1"
       (store_of [spread promo_link (stats_update [first_click])
                    "2025-01-01T00:00:00.000Z"] [])
     = (Ok (Some (spread promo_link (stats_update [first_click])
                    "2025-01-01T00:00:00.000Z")),
        store_of [spread promo_link (stats_update [first_click])
                    "2025-01-01T00:00:00.000Z"] []).
Proof.
  assert (Hrun : updateLink "l1" (stats_update [first_click])
                   "2025-01-01T00:00:00.000Z" promo_store
                 = (Ok true,
                    store_of [spread promo_link (stats_update [first_click])
                                "2025-01-01T00:00:00.000Z"] []))
    by reflexivity.
  split; [exact Hrun|]. split; [reflexivity|].
  destruct (updateLink_result "l1" (stats_update [first_click])
              "2025-01-01T00:00:00.000Z" promo_store _ true Hrun)
    as (_ & _ & _ & Hmerged).
  destruct (Hmerged promo_link eq_refl) as (index & _ & _ & _ & _ & Hlookup).
  destruct (Hlookup eq_refl) as [Hfound _]. exact Hfound.
Defined.

(** ** Inserting and looking up *)

Lemma find_snoc {A} (p : A -> bool) (l : list A) (x : A) :
  find p (l ++ [x])
  = match find p l with
    | Some y => Some y
    | None => if p x then Some x else None
    end.
Proof.
  induction l as [|y l IH]; simpl; [reflexivity|].
  destruct (p y); [reflexivity | exact IH].
Qed.

(** X7.  After a [createLink] that completes, a lookup by id or by short
    code returns the new link when no stored link had that id or code; when
    one had, the lookup still returns the older link and the new one is
    shadowed.  Lookups of other ids and codes are not affected. *)
Theorem createLink_then_lookup (link : TrackingLink) (w w' : World) :
  createLink link w = (Ok tt, w') ->
  getLinkById (id link) w'
    = (Ok (Some (default link (link_by_id (id link) w))), w')
  /\ getLinkByShortCode (shortCode link) w'
     = (Ok (Some (default link (link_by_code (shortCode link) w))), w')
  /\ (forall other, other <> id link ->
        getLinkById other w' = (Ok (link_by_id other w), w'))
  /\ (forall code, code <> shortCode link ->
        getLinkByShortCode code w' = (Ok (link_by_code code w), w')).
Proof.
  rewrite createLink_run, writeJSONFile_run.
  assert (Hstored : forall faults,
    let w1 := store_at LINKS_FILE (rows_of (links_file w) ++ [link])%list
                faults w in
    getLinkById (id link) w1
      = (Ok (Some (default link (link_by_id (id link) w))), w1)
    /\ getLinkByShortCode (shortCode link) w1
       = (Ok (Some (default link (link_by_code (shortCode link) w))), w1)
    /\ (forall other, other <> id link ->
          getLinkById other w1 = (Ok (link_by_id other w), w1))
    /\ (forall code, code <> shortCode link ->
          getLinkByShortCode code w1 = (Ok (link_by_code code w), w1))).
  { intros faults w1. rewrite getLinkById_run, getLinkByShortCode_run.
    unfold link_by_id, link_by_code. simpl links_file. simpl rows_of.
    rewrite !find_snoc, !String.eqb_refl. split.
    { destruct (find _ (rows_of (links_file w))); reflexivity. }
    split.
    { destruct (find _ (rows_of (links_file w))); reflexivity. }
    split.
    - intros other Hne. rewrite getLinkById_run. do 2 f_equal.
      unfold link_by_id. simpl links_file. simpl rows_of. rewrite find_snoc.
      apply not_eq_sym, String.eqb_neq in Hne. rewrite Hne.
      destruct (find _ (rows_of (links_file w))); reflexivity.
    - intros code Hne. rewrite getLinkByShortCode_run. do 2 f_equal.
      unfold link_by_code. simpl links_file. simpl rows_of. rewrite find_snoc.
      apply not_eq_sym, String.eqb_neq in Hne. rewrite Hne.
      destruct (find _ (rows_of (links_file w))); reflexivity. }
  destruct (write_faults w) as [|[] rest]; [| discriminate |];
    intros [= <-]; apply Hstored.
Qed.

Lemma createLink_then_lookup_witness :
  createLink promo_again promo_store
    = (Ok tt, store_of [promo_link; promo_again] [])
  /\ getLinkById "l2" (store_of [promo_link; promo_again] [])
     = (Ok (Some promo_again), store_of [promo_link; promo_again] [])
  /\ getLinkByShortCode "promo" (store_of [promo_link; promo_again] [])
     = (Ok (Some promo_link), store_of [promo_link; promo_again] []).
Proof.
  split; [reflexivity|].
  destruct (createLink_then_lookup promo_again promo_store
              (store_of [promo_link; promo_again] []) eq_refl)
    as (Hid & Hcode & _).
  split; [exact Hid | exact Hcode].
Defined.

Lemma NoDup_fmap_filter {A B} (f : A -> B) (p : A -> bool) (l : list A) :
  NoDup (f <$> l) -> NoDup (f <$> List.filter p l).
Proof.
  induction l as [|x l IH]; [auto|].
  rewrite fmap_cons. intros Hnodup. apply NoDup_cons in Hnodup as [Hx Hl].
  cbn [List.filter]. destruct (p x); [|auto].
  rewrite fmap_cons. apply NoDup_cons. split; [|auto].
  intros Hin. apply Hx. apply list_elem_of_fmap in Hin as (y & -> & Hy).
  apply list_elem_of_fmap. exists y. split; [reflexivity|].
  apply list_elem_of_In. apply list_elem_of_In in Hy.
  apply List.filter_In in Hy. tauto.
Qed.

(** X8.  A [deleteLink] that completes keeps both store invariants: the
    counters of the remaining links still match their clicks, and short codes
    that were unique stay unique. *)
Theorem deleteLink_keeps_invariants (i : string) (w w' : World) (b : bool) :
  deleteLink i w = (Ok b, w') ->
  (counters_consistent w -> counters_consistent w')
  /\ (codes_unique w -> codes_unique w').
Proof.
  rewrite deleteLink_run.
  assert (Hdeleted : forall faults,
    let w1 := {| links_file :=
                   Contents (List.filter
                               (fun link => negb (String.eqb (id link) i))
                               (rows_of (links_file w)));
                 clicks_file :=
                   Contents (List.filter
                               (fun click => negb (String.eqb (linkId click) i))
                               (rows_of (clicks_file w)));
                 write_faults := faults |} in
    (counters_consistent w -> counters_consistent w1)
    /\ (codes_unique w -> codes_unique w1)).
  { intros faults w1. split.
    - intros Hinv j l. unfold link_by_id, clicks_of. simpl.
      destruct (String.eqb j i) eqn:Hji.
      + apply String.eqb_eq in Hji. subst j.
        rewrite (find_filter_neg (fun link => String.eqb (id link) i)).
        discriminate.
      + apply String.eqb_neq in Hji.
        rewrite find_filter_within, filter_filter_within
          by (intros x; apply eqb_other; exact Hji).
        apply Hinv.
    - unfold codes_unique. simpl. apply NoDup_fmap_filter. }
  destruct (link_by_id i w); [|intros [= <- <-]; tauto].
  destruct (write_faults w) as [|[] rest]; [| discriminate |]; cbv zeta;
    simpl tail; [intros [= <- <-]; apply Hdeleted|].
  destruct rest as [|[] rest']; [| discriminate |]; intros [= <- <-];
    apply Hdeleted.
Qed.

Lemma clicked_store_consistent : counters_consistent clicked_store.
Proof.
  intros i l. unfold link_by_id.
  change (rows_of (links_file clicked_store)) with [promo_link_clicked].
  cbn [find]. destruct (String.eqb (id promo_link_clicked) i) eqn:Hi;
    [|discriminate].
  apply String.eqb_eq in Hi. subst i. intros [= <-]. split; reflexivity.
Qed.

Lemma deleteLink_keeps_invariants_witness :
  counters_consistent clicked_store /\ codes_unique clicked_store
  /\ exists w',
       deleteLink "l1" clicked_store = (Ok true, w')
       /\ counters_consistent w' /\ codes_unique w'.
Proof.
  assert (Hcodes : codes_unique clicked_store).
  { unfold codes_unique. simpl. apply NoDup_singleton. }
  split; [exact clicked_store_consistent|]. split; [exact Hcodes|].
  exists (store_of [] []). split; [reflexivity|].
  destruct (deleteLink_keeps_invariants "l1" clicked_store (store_of [] [])
              true eq_refl)
    as [Hcounters Hunique].
  split; [exact (Hcounters clicked_store_consistent) | exact (Hunique Hcodes)].
Defined.

(** * Further properties of the analytics *)

Lemma total_count_bump (counts : list (string * nat)) (key : string) :
  total_count (bump key counts) = total_count counts + 1.
Proof.
  unfold total_count. induction counts as [|[k n] rest IH]; [reflexivity|].
  cbn [bump]. destruct (String.eqb k key); rewrite !fmap_cons;
    cbn [snd sum_list].
  - unfold Datatypes.id. lia.
  - rewrite IH. unfold Datatypes.id. lia.
Qed.

(** What one more click does to the five grouping objects. *)
Lemma group_click_step (g : Groups) (click : LinkClick) :
  let g' := group_click g click in
  total_count (byDate g') = total_count (byDate g) + 1
  /\ total_count (byDevice g') = total_count (byDevice g) + 1
  /\ total_count (byBrowser g') = total_count (byBrowser g) + 1
  /\ total_count (byReferer g') = total_count (byReferer g) + 1
  /\ total_count (byCountry g')
     = total_count (byCountry g)
       + (if truthy_str (country (location click)) then 1 else 0)
  /\ (NoDup (byDate g).*1 -> NoDup (byDate g').*1)
  /\ (NoDup (byDevice g).*1 -> NoDup (byDevice g').*1)
  /\ (NoDup (byBrowser g).*1 -> NoDup (byBrowser g').*1)
  /\ (NoDup (byReferer g).*1 -> NoDup (byReferer g').*1)
  /\ (NoDup (byCountry g).*1 -> NoDup (byCountry g').*1).
Proof.
  unfold group_click. cbn [byDate byDevice byBrowser byReferer byCountry].
  rewrite !total_count_bump.
  repeat split; try apply bump_NoDup.
  - destruct (truthy_str (country (location click)));
      [apply total_count_bump | lia].
  - destruct (truthy_str (country (location click)));
      [apply bump_NoDup | auto].
Qed.

Lemma group_clicks_totals (clicks : list LinkClick) (g : Groups) :
  let g' := fold_left group_click clicks g in
  total_count (byDate g') = total_count (byDate g) + length clicks
  /\ total_count (byDevice g') = total_count (byDevice g) + length clicks
  /\ total_count (byBrowser g') = total_count (byBrowser g) + length clicks
  /\ total_count (byReferer g') = total_count (byReferer g) + length clicks
  /\ total_count (byCountry g')
     = total_count (byCountry g) + length (located clicks)
  /\ (NoDup (byDate g).*1 -> NoDup (byDate g').*1)
  /\ (NoDup (byDevice g).*1 -> NoDup (byDevice g').*1)
  /\ (NoDup (byBrowser g).*1 -> NoDup (byBrowser g').*1)
  /\ (NoDup (byReferer g).*1 -> NoDup (byReferer g').*1)
  /\ (NoDup (byCountry g).*1 -> NoDup (byCountry g').*1).
Proof.
  revert g. induction clicks as [|click clicks IH]; intros g.
  - simpl. repeat split; auto; lia.
  - cbn [fold_left]. cbv zeta.
    destruct (group_click_step g click)
      as (S1 & S2 & S3 & S4 & S5 & N1 & N2 & N3 & N4 & N5).
    destruct (IH (group_click g click))
      as (T1 & T2 & T3 & T4 & T5 & M1 & M2 & M3 & M4 & M5).
    rewrite T1, T2, T3, T4, T5, S1, S2, S3, S4, S5.
    unfold located. cbn [List.filter length].
    destruct (truthy_str (country (location click))); cbn [length];
      repeat split; auto; lia.
Qed.

Lemma remove_dups_length {A} `{EqDecision A} (l : list A) :
  length (remove_dups l) <= length l.
Proof.
  induction l as [|x l IH]; simpl; [lia|].
  destruct (decide_rel elem_of x l); simpl; lia.
Qed.

Lemma getLinkStats_run (Date_of : jsval -> option Z) (i : string) (now : Z)
    (w : World) (link : TrackingLink) :
  link_by_id i w = Some link ->
  exists stats,
    getLinkStats Date_of i now w = (Ok (Some stats), w)
    /\ LinkStats.clicksByDate stats
       = byDate (fold_left group_click (clicks_of i w) no_groups)
    /\ LinkStats.clicksByCountry stats
       = byCountry (fold_left group_click (clicks_of i w) no_groups)
    /\ LinkStats.clicksByDevice stats
       = byDevice (fold_left group_click (clicks_of i w) no_groups)
    /\ LinkStats.clicksByBrowser stats
       = byBrowser (fold_left group_click (clicks_of i w) no_groups)
    /\ LinkStats.clicksByReferer stats
       = byReferer (fold_left group_click (clicks_of i w) no_groups)
    /\ LinkStats.uniqueClicks stats = size (sessionIds (clicks_of i w))
    /\ LinkStats.totalClicks stats = totalClicks link
    /\ LinkStats.topLocations stats
       = take 10 (js_sort most_clicks_first
                    (to_top_location link <$> LinkStats.clicksByCountry stats))
    /\ LinkStats.recentClicks stats
       = take 50 (js_sort (newest_first Date_of) (clicks_of i w)).
Proof.
  intros Hlink. unfold getLinkStats.
  rewrite (bind_ok _ _ _ _ _ (getLinkById_run i w)), Hlink.
  rewrite (bind_ok _ _ _ _ _ (getClicksByLinkId_run i w)).
  eexists. split; [reflexivity|]. repeat split.
Qed.

(** X9.  When no click of the link is counted under a property name that a
    plain object inherits ([constructor], [__proto__] and the like, which a
    visitor can send as a referer), every grouping of [getLinkStats] is a
    partition of the link's clicks: the keys of each grouping object are
    distinct; the counts by date, by device, by browser and by referer each
    add up to the number of clicks of the link, and the counts by country to
    the number of those clicks that carry a country.  The unique-click figure
    never exceeds the number of clicks. *)
Theorem getLinkStats_groups_partition
    (Date_of : jsval -> option Z) (i : string) (now : Z) (w : World)
    (link : TrackingLink) :
  getLinkById i w = (Ok (Some link), w) ->
  plain_keys (clicks_of i w) ->
  exists stats,
    getLinkStats Date_of i now w = (Ok (Some stats), w)
    /\ total_count (LinkStats.clicksByDate stats) = length (clicks_of i w)
    /\ total_count (LinkStats.clicksByDevice stats) = length (clicks_of i w)
    /\ total_count (LinkStats.clicksByBrowser stats) = length (clicks_of i w)
    /\ total_count (LinkStats.clicksByReferer stats) = length (clicks_of i w)
    /\ total_count (LinkStats.clicksByCountry stats)
       = length (located (clicks_of i w))
    /\ NoDup (LinkStats.clicksByDate stats).*1
    /\ NoDup (LinkStats.clicksByDevice stats).*1
    /\ NoDup (LinkStats.clicksByBrowser stats).*1
    /\ NoDup (LinkStats.clicksByReferer stats).*1
    /\ NoDup (LinkStats.clicksByCountry stats).*1
    /\ LinkStats.uniqueClicks stats <= length (clicks_of i w).
Proof.
  rewrite getLinkById_run. intros [= Hlink] _.
  destruct (getLinkStats_run Date_of i now w link Hlink)
    as (stats & Hrun & E1 & E2 & E3 & E4 & E5 & E6 & _).
  exists stats. split; [exact Hrun|]. rewrite E1, E2, E3, E4, E5, E6.
  destruct (group_clicks_totals (clicks_of i w) no_groups)
    as (T1 & T2 & T3 & T4 & T5 & M1 & M2 & M3 & M4 & M5).
  rewrite T1, T2, T3, T4, T5. simpl.
  repeat split; auto using NoDup_nil_2.
  rewrite size_sessionIds.
  etransitivity; [apply remove_dups_length|]. rewrite length_fmap. lia.
Qed.

Lemma clicked_store_plain_keys : plain_keys (clicks_of "l1" clicked_store).
Proof.
  intros click key Hclick Hkey Hinherited.
  apply list_elem_of_In in Hclick, Hkey, Hinherited.
  vm_compute in Hclick.
  repeat (destruct Hclick as [<-|Hclick];
          [vm_compute in Hkey;
           repeat (destruct Hkey as [<-|Hkey];
                   [vm_compute in Hinherited; intuition discriminate|]);
           exact Hkey|]).
  exact Hclick.
Qed.

Lemma getLinkStats_groups_partition_witness :
  exists stats,
    getLinkStats sample_Date_of "l1" 0 clicked_store
      = (Ok (Some stats), clicked_store)
    /\ total_count (LinkStats.clicksByDate stats) = 4
    /\ total_count (LinkStats.clicksByCountry stats) = 3
    /\ LinkStats.uniqueClicks stats <= 4.
Proof.
  destruct (getLinkStats_groups_partition sample_Date_of "l1" 0 clicked_store
              promo_link_clicked eq_refl clicked_store_plain_keys)
    as (stats & Hrun & Hdate & _ & _ & _ & Hcountry & _ & _ & _ & _ & _ & Hunique).
  exists stats. split; [exact Hrun|]. split; [exact Hdate|].
  split; [exact Hcountry | exact Hunique].
Defined.

(** ** Sorting and cutting *)

Lemma sort_insert_perm {A} (compare : A -> A -> Z) (x : A) (l : list A) :
  sort_insert compare x l ≡ₚ x :: l.
Proof.
  induction l as [|y l IH]; simpl; [reflexivity|].
  destruct (0 <? compare x y)%Z; [|reflexivity].
  rewrite IH. apply Permutation_swap.
Qed.

Lemma js_sort_perm {A} (compare : A -> A -> Z) (l : list A) :
  js_sort compare l ≡ₚ l.
Proof.
  unfold js_sort. induction l as [|x l IH]; simpl; [reflexivity|].
  rewrite sort_insert_perm, IH. reflexivity.
Qed.

Lemma sort_insert_descending {A} (compare : A -> A -> Z) (key : A -> Z)
    (x : A) (l : list A) :
  (forall y, y ∈ l -> compare x y = (key y - key x)%Z) ->
  descending key l -> descending key (sort_insert compare x l).
Proof.
  induction l as [|y l IH]; intros Hcmp Hsorted.
  - simpl. split; [intros y Hy; inversion Hy | exact I].
  - cbn [sort_insert]. destruct Hsorted as [Hy Hl].
    pose proof (Hcmp y (list_elem_of_here _ _)) as Hxy.
    destruct (0 <? compare x y)%Z eqn:Hlt.
    + apply Z.ltb_lt in Hlt. split.
      * intros z Hz. apply elem_of_sort_insert in Hz as [->|Hz]; [lia | auto].
      * apply IH; [|exact Hl]. intros z Hz. apply Hcmp.
        apply list_elem_of_further. exact Hz.
    + apply Z.ltb_ge in Hlt. split; [|split; assumption].
      intros z Hz. apply elem_of_cons in Hz as [->|Hz]; [lia|].
      specialize (Hy z Hz). lia.
Qed.

(** [sort] orders by a key when its comparison is the difference of keys. *)
Lemma js_sort_descending {A} (compare : A -> A -> Z) (key : A -> Z)
    (l : list A) :
  (forall a b, a ∈ l -> b ∈ l -> compare a b = (key b - key a)%Z) ->
  descending key (js_sort compare l).
Proof.
  unfold js_sort. induction l as [|x l IH]; intros Hcmp; [exact I|].
  cbn [foldr]. apply sort_insert_descending.
  - intros y Hy. apply Hcmp; [apply list_elem_of_here|].
    apply list_elem_of_further. apply (elem_of_js_sort compare y l). exact Hy.
  - apply IH. intros a b Ha Hb.
    apply Hcmp; apply list_elem_of_further; assumption.
Qed.

(** The first [n] of a descending list are its [n] largest. *)
Lemma descending_take_drop {A} (key : A -> Z) (n : nat) (l : list A) :
  descending key l ->
  descending key (take n l)
  /\ forall a b, a ∈ take n l -> b ∈ drop n l -> (key b <= key a)%Z.
Proof.
  revert n. induction l as [|x l IH]; intros n Hsorted.
  - rewrite take_nil, drop_nil. split; [exact I|]. intros a b Ha. inversion Ha.
  - destruct n as [|n].
    + rewrite take_0. split; [exact I|]. intros a b Ha. inversion Ha.
    + destruct Hsorted as [Hx Hl]. destruct (IH n Hl) as [Htake Hcut].
      cbn [take drop]. split.
      * split; [|exact Htake]. intros y Hy. apply Hx.
        apply (subseteq_take n l). exact Hy.
      * intros a b Ha Hb. apply elem_of_cons in Ha as [->|Ha].
        -- apply Hx. apply (subseteq_drop n l). exact Hb.
        -- apply Hcut; assumption.
Qed.

(** The first [n] of a sorted list, and what is cut off. *)
Lemma top_of_sorted {A} (compare : A -> A -> Z) (key : A -> Z) (n : nat)
    (l : list A) :
  (forall a b, a ∈ l -> b ∈ l -> compare a b = (key b - key a)%Z) ->
  exists rest,
    (take n (js_sort compare l) ++ rest)%list ≡ₚ l
    /\ length (take n (js_sort compare l)) = min n (length l)
    /\ descending key (take n (js_sort compare l))
    /\ forall a b, a ∈ take n (js_sort compare l) -> b ∈ rest ->
         (key b <= key a)%Z.
Proof.
  intros Hcmp. exists (drop n (js_sort compare l)).
  destruct (descending_take_drop key n _ (js_sort_descending compare key l Hcmp))
    as [Htake Hcut].
  split; [rewrite take_drop; apply js_sort_perm|].
  split; [rewrite length_take, (Permutation_length (js_sort_perm compare l));
          reflexivity|].
  split; assumption.
Qed.

(** X10.  [topLocations] holds the countries with the most clicks: its
    entries are taken from the country grouping, there are ten of them or as
    many as there are countries, they come in descending order of clicks, and
    no country that is left out has more clicks than one that is listed. *)
Theorem getLinkStats_top_locations
    (Date_of : jsval -> option Z) (i : string) (now : Z) (w : World)
    (link : TrackingLink) :
  getLinkById i w = (Ok (Some link), w) ->
  exists stats left_out,
    getLinkStats Date_of i now w = (Ok (Some stats), w)
    /\ (LinkStats.topLocations stats ++ left_out)%list
       ≡ₚ to_top_location link <$> LinkStats.clicksByCountry stats
    /\ length (LinkStats.topLocations stats)
       = min 10 (length (LinkStats.clicksByCountry stats))
    /\ descending (fun entry => Z.of_nat (TopLocation.clicks entry))
         (LinkStats.topLocations stats)
    /\ forall listed other,
         listed ∈ LinkStats.topLocations stats -> other ∈ left_out ->
         TopLocation.clicks other <= TopLocation.clicks listed.
Proof.
  rewrite getLinkById_run. intros [= Hlink].
  destruct (getLinkStats_run Date_of i now w link Hlink)
    as (stats & Hrun & _ & _ & _ & _ & _ & _ & _ & Htop & _).
  destruct (top_of_sorted most_clicks_first
              (fun entry => Z.of_nat (TopLocation.clicks entry)) 10
              (to_top_location link <$> LinkStats.clicksByCountry stats))
    as (rest & Hperm & Hlen & Hsorted & Hcut); [reflexivity|].
  exists stats, rest. rewrite Htop. split; [exact Hrun|].
  split; [exact Hperm|]. split; [rewrite Hlen, length_fmap; reflexivity|].
  split; [exact Hsorted|]. intros listed other Hl Ho.
  specialize (Hcut listed other Hl Ho). lia.
Qed.

Lemma getLinkStats_top_locations_witness :
  exists stats,
    getLinkStats sample_Date_of "l1" 0 clicked_store
      = (Ok (Some stats), clicked_store)
    /\ length (LinkStats.topLocations stats) = 2
    /\ descending (fun entry => Z.of_nat (TopLocation.clicks entry))
         (LinkStats.topLocations stats).
Proof.
  destruct (getLinkStats_top_locations sample_Date_of "l1" 0 clicked_store
              promo_link_clicked eq_refl)
    as (stats & left_out & Hrun & _ & Hlen & Hsorted & _).
  exists stats. split; [exact Hrun|]. split; [|exact Hsorted].
  rewrite Hlen. vm_compute in Hrun. injection Hrun as <-. reflexivity.
Defined.

(** X11.  When the timestamps of the link's clicks are dates,
    [recentClicks] holds the newest clicks of the link: fifty of them or all
    there are, newest first, and no click that is left out is newer than one
    that is listed. *)
Theorem getLinkStats_recent_clicks
    (Date_of : jsval -> option Z) (i : string) (now : Z) (w : World)
    (link : TrackingLink) :
  getLinkById i w = (Ok (Some link), w) ->
  (forall click, click ∈ clicks_of i w ->
     is_Some (Date_of (JStr (timestamp click)))) ->
  exists stats left_out,
    getLinkStats Date_of i now w = (Ok (Some stats), w)
    /\ (LinkStats.recentClicks stats ++ left_out)%list ≡ₚ clicks_of i w
    /\ length (LinkStats.recentClicks stats) = min 50 (length (clicks_of i w))
    /\ descending (time_of Date_of) (LinkStats.recentClicks stats)
    /\ forall listed other,
         listed ∈ LinkStats.recentClicks stats -> other ∈ left_out ->
         (time_of Date_of other <= time_of Date_of listed)%Z.
Proof.
  rewrite getLinkById_run. intros [= Hlink] Hdates.
  destruct (getLinkStats_run Date_of i now w link Hlink)
    as (stats & Hrun & _ & _ & _ & _ & _ & _ & _ & _ & Hrecent).
  destruct (top_of_sorted (newest_first Date_of) (time_of Date_of) 50
              (clicks_of i w))
    as (rest & Hperm & Hlen & Hsorted & Hcut).
  { intros a b Ha Hb. unfold newest_first, time_of.
    destruct (Hdates a Ha) as [ta ->]. destruct (Hdates b Hb) as [tb ->].
    reflexivity. }
  exists stats, rest. rewrite Hrecent. split; [exact Hrun|].
  split; [exact Hperm|]. split; [exact Hlen|]. split; assumption.
Qed.

Lemma getLinkStats_recent_clicks_witness :
  exists stats,
    getLinkStats sample_Date_of "l1" 0 clicked_store
      = (Ok (Some stats), clicked_store)
    /\ length (LinkStats.recentClicks stats) = 4
    /\ descending (time_of sample_Date_of) (LinkStats.recentClicks stats).
Proof.
  destruct (getLinkStats_recent_clicks sample_Date_of "l1" 0 clicked_store
              promo_link_clicked eq_refl)
    as (stats & left_out & Hrun & _ & Hlen & Hsorted & _).
  { intros click Hclick. vm_compute in Hclick.
    repeat (apply elem_of_cons in Hclick as [->|Hclick]; [eexists; reflexivity|]).
    inversion Hclick. }
  exists stats. split; [exact Hrun|]. split; [exact Hlen | exact Hsorted].
Defined.

Lemma clicks_from_length (name : string) (clicks : list LinkClick) :
  length (clicks_from name clicks) <= length clicks.
Proof. apply filter_length_le. Qed.

(** X12.  In a store whose counters are consistent, every percentage of
    [topLocations] is a number above 0 and at most 100: the division by the
    stored counter cannot give [Infinity] or exceed the whole. *)
Theorem getLinkStats_percentages_bounded
    (Date_of : jsval -> option Z) (i : string) (now : Z) (w : World)
    (link : TrackingLink) :
  counters_consistent w ->
  getLinkById i w = (Ok (Some link), w) ->
  exists stats,
    getLinkStats Date_of i now w = (Ok (Some stats), w)
    /\ forall entry, entry ∈ LinkStats.topLocations stats ->
         exists q, TopLocation.percentage entry = Num q /\ (0 < q)%Q /\ (q <= 100)%Q.
Proof.
  intros Hinv. rewrite getLinkById_run. intros [= Hlink].
  destruct (Hinv i link Hlink) as [Htotal _].
  destruct (getLinkStats_run Date_of i now w link Hlink)
    as (stats & Hrun & _ & Hcountry & _ & _ & _ & _ & _ & Htop & _).
  exists stats. split; [exact Hrun|]. intros entry Hin.
  rewrite Htop, Hcountry in Hin.
  apply subseteq_take, elem_of_js_sort, list_elem_of_fmap in Hin
    as ([name n] & -> & Hin).
  apply byCountry_entry in Hin as [Hn Hpos].
  pose proof (clicks_from_length name (clicks_of i w)) as Hle.
  unfold to_top_location. cbn [TopLocation.percentage fst snd].
  rewrite Htotal. unfold js_div.
  destruct (length (clicks_of i w)) as [|t] eqn:Ht; [lia|].
  eexists. split; [reflexivity|].
  unfold Qlt, Qle, Qmult. cbn [Qnum Qden].
  rewrite Pos2Z.inj_mul.
  assert (Hden : Z.pos (Pos.of_nat (S t)) = Z.of_nat (S t))
    by (rewrite <- positive_nat_Z, Nat2Pos.id by lia; reflexivity).
  rewrite Hden. split; nia.
Qed.

Lemma getLinkStats_percentages_bounded_witness :
  counters_consistent clicked_store
  /\ exists stats,
       getLinkStats sample_Date_of "l1" 0 clicked_store
         = (Ok (Some stats), clicked_store)
       /\ forall entry, entry ∈ LinkStats.topLocations stats ->
            exists q, TopLocation.percentage entry = Num q /\ (0 < q)%Q /\ (q <= 100)%Q.
Proof.
  split; [exact clicked_store_consistent|].
  apply (getLinkStats_percentages_bounded sample_Date_of "l1" 0 clicked_store
           promo_link_clicked clicked_store_consistent eq_refl).
Defined.

(** X13.  The figures of [getAnalyticsOverview] fit together: the link and
    click totals are the sizes of the two collections; the unique clicks and
    the clicks of today, of the week and of the month are each at most the
    click total; [topPerformingLinks] holds the five links with the most
    stored clicks (or all links), in descending order; [recentActivity] has
    ten entries or one per click. *)
Theorem getAnalyticsOverview_figures
    (Date_of : jsval -> option Z) (toISOString : Z -> string) (now : Z)
    (w : World) :
  exists overview left_out,
    getAnalyticsOverview Date_of toISOString now w = (Ok overview, w)
    /\ AnalyticsOverview.totalLinks overview = length (rows_of (links_file w))
    /\ AnalyticsOverview.totalClicks overview = length (rows_of (clicks_file w))
    /\ AnalyticsOverview.uniqueClicks overview
       <= AnalyticsOverview.totalClicks overview
    /\ AnalyticsOverview.clicksToday overview
       <= AnalyticsOverview.totalClicks overview
    /\ AnalyticsOverview.clicksThisWeek overview
       <= AnalyticsOverview.totalClicks overview
    /\ AnalyticsOverview.clicksThisMonth overview
       <= AnalyticsOverview.totalClicks overview
    /\ (AnalyticsOverview.topPerformingLinks overview ++ left_out)%list
       ≡ₚ to_top_link <$> rows_of (links_file w)
    /\ length (AnalyticsOverview.topPerformingLinks overview)
       = min 5 (length (rows_of (links_file w)))
    /\ descending (fun entry => Z.of_nat (TopLink.clicks entry))
         (AnalyticsOverview.topPerformingLinks overview)
    /\ (forall listed other,
          listed ∈ AnalyticsOverview.topPerformingLinks overview ->
          other ∈ left_out -> TopLink.clicks other <= TopLink.clicks listed)
    /\ length (AnalyticsOverview.recentActivity overview)
       = min 10 (length (rows_of (clicks_file w))).
Proof.
  destruct (top_of_sorted top_link_order
              (fun entry => Z.of_nat (TopLink.clicks entry)) 5
              (to_top_link <$> rows_of (links_file w)))
    as (rest & Hperm & Hlen & Hsorted & Hcut); [reflexivity|].
  unfold getAnalyticsOverview.
  rewrite (bind_ok _ _ _ _ _ (getAllLinks_run w)).
  rewrite (bind_ok _ _ _ _ _ (getAllClicks_run w)).
  eexists. exists rest. split; [reflexivity|].
  cbn [AnalyticsOverview.totalLinks AnalyticsOverview.totalClicks
       AnalyticsOverview.uniqueClicks AnalyticsOverview.clicksToday
       AnalyticsOverview.clicksThisWeek AnalyticsOverview.clicksThisMonth
       AnalyticsOverview.topPerformingLinks AnalyticsOverview.recentActivity].
  split; [reflexivity|]. split; [reflexivity|]. split.
  { rewrite size_sessionIds. etransitivity; [apply remove_dups_length|].
    rewrite length_fmap. lia. }
  do 3 (split; [apply filter_length_le|]).
  unfold slice0. split; [exact Hperm|].
  split; [rewrite Hlen, length_fmap; reflexivity|]. split; [exact Hsorted|].
  split.
  - intros listed other Hl Ho. specialize (Hcut listed other Hl Ho). lia.
  - rewrite length_fmap, length_take,
      (Permutation_length (js_sort_perm _ _)). reflexivity.
Qed.

(** * Further properties of the generator and of the link helpers *)

Lemma generateUniqueShortCode_custom (code : string) (random : nat -> nat)
    (w : World) :
  code <> "" ->
  generateUniqueShortCode (Some code) random w
  = match link_by_code code w with
    | Some _ => (Throw "Custom short code already exists", w)
    | None => (Ok code, w)
    end.
Proof.
  intros Hcode. unfold generateUniqueShortCode, truthy_str.
  apply String.eqb_neq in Hcode. rewrite Hcode. cbn [negb default].
  rewrite (bind_ok _ _ _ _ _ (getLinkByShortCode_run code w)).
  destruct (link_by_code code w); reflexivity.
Qed.

Lemma generateUniqueShortCode_falsy (customCode : option string)
    (random : nat -> nat) :
  truthy_str customCode = false ->
  generateUniqueShortCode customCode random
  = generateUniqueShortCode None random.
Proof. intros H. unfold generateUniqueShortCode. rewrite H. reflexivity. Qed.

(** The generator without a custom code, run: the store is left alone and a
    returned code is free. *)
Lemma generateUniqueShortCode_random_run (random : nat -> nat) (w : World) :
  exists r,
    generateUniqueShortCode None random w = (r, w)
    /\ forall code, r = Ok code -> link_by_code code w = None.
Proof.
  rewrite generateUniqueShortCode_no_custom. unfold bind at 1.
  destruct (rollCodes_run random maxAttempts 0 w) as (r & Hrun & Hr).
  change (0 * SHORT_CODE_LENGTH) with 0 in Hrun. rewrite Hrun.
  destruct r as [code|].
  - destruct Hr as (k & _ & _ & Hfree & _). eexists. split; [reflexivity|].
    intros code' [= <-]. exact Hfree.
  - unfold bind. rewrite getLinkByShortCode_run.
    destruct (link_by_code (longer_attempt random) w) eqn:Hlong;
      eexists; (split; [reflexivity|]); intros code [=]. subst code. exact Hlong.
Qed.

(** X14.  Whatever the custom code and whatever the draws,
    [generateUniqueShortCode] leaves the store alone and a code it returns
    is assigned to no link; a non-empty custom code is returned as it is, and
    an empty one counts as absent. *)
Theorem generateUniqueShortCode_returns_free_code
    (customCode : option string) (random : nat -> nat) (w w' : World)
    (code : string) :
  generateUniqueShortCode customCode random w = (Ok code, w') ->
  w' = w
  /\ getLinkByShortCode code w = (Ok None, w)
  /\ (truthy_str customCode = true -> customCode = Some code)
  /\ (customCode = Some "" ->
      generateUniqueShortCode None random w = (Ok code, w)).
Proof.
  intros Hrun. rewrite getLinkByShortCode_run.
  destruct (truthy_str customCode) eqn:Htruthy.
  - destruct customCode as [custom|]; [|discriminate].
    assert (Hcustom : custom <> "").
    { intros ->. discriminate. }
    rewrite (generateUniqueShortCode_custom custom random w Hcustom) in Hrun.
    destruct (link_by_code custom w) eqn:Hfree; [discriminate|].
    injection Hrun as <- <-. split; [reflexivity|]. rewrite Hfree.
    split; [reflexivity|]. split; [reflexivity|]. intros [= ->].
    contradiction Hcustom. reflexivity.
  - rewrite (generateUniqueShortCode_falsy customCode random Htruthy) in Hrun.
    destruct (generateUniqueShortCode_random_run random w) as (r & Hr & Hfree).
    rewrite Hr in Hrun. injection Hrun as -> <-.
    split; [reflexivity|]. rewrite (Hfree code eq_refl).
    split; [reflexivity|]. split; [discriminate|]. intros _. exact Hr.
Qed.

Lemma generateUniqueShortCode_returns_free_code_witness :
  generateUniqueShortCode (Some "summer") (fun _ => 0) promo_store
    = (Ok "summer", promo_store)
  /\ getLinkByShortCode "summer" promo_store = (Ok None, promo_store).
Proof.
  split; [reflexivity|].
  apply (generateUniqueShortCode_returns_free_code (Some "summer") (fun _ => 0)
           promo_store promo_store "summer" eq_refl).
Defined.

(** X15.  The password test written out in the redirect handler is the
    negation of [validateLinkPassword] at the [password] parameter, an absent
    parameter counting as the empty string: the handler shows the prompt
    exactly when the helper would refuse. *)
Theorem handler_test_is_validateLinkPassword
    (request : Request) (link : TrackingLink) :
  isPasswordProtected link
  && (negb (truthy_str (req_password request))
      || negb (strict_eq_str (password link)
                 (default "" (req_password request))))
  = negb (validateLinkPassword link (or_else (req_password request) "")).
Proof.
  unfold isPasswordProtected, validateLinkPassword, or_else.
  destruct (truthy (password link)) eqn:Hset; [|reflexivity]. simpl negb at 3.
  cbv iota. simpl andb.
  assert (Hempty : strict_eq_str (password link) "" = false).
  { destruct (strict_eq_str (password link) "") eqn:Heq; [|reflexivity].
    apply strict_eq_str_spec in Heq. rewrite Heq in Hset. discriminate. }
  destruct (req_password request) as [given|]; simpl.
  - destruct (String.eqb given "") eqn:Hgiven; simpl; [|reflexivity].
    rewrite Hempty. reflexivity.
  - rewrite Hempty. reflexivity.
Qed.


(** * Further properties of the routes *)

(** Every way the generator can end. *)
Lemma generateUniqueShortCode_run (customCode : option string)
    (random : nat -> nat) (w : World) :
  exists r,
    generateUniqueShortCode customCode random w = (r, w)
    /\ (forall code, r = Ok code -> link_by_code code w = None)
    /\ (forall message, r = Throw message ->
          (message = "Custom short code already exists"
           /\ truthy_str customCode = true
           /\ link_by_code (default "" customCode) w <> None)
          \/ (message = "Unable to generate unique short code"
              /\ truthy_str customCode = false))
    /\ (truthy_str customCode = true ->
        link_by_code (default "" customCode) w <> None ->
        r = Throw "Custom short code already exists").
Proof.
  destruct (truthy_str customCode) eqn:Htruthy.
  - destruct customCode as [custom|]; [|discriminate].
    assert (Hcustom : custom <> "") by (intros ->; discriminate).
    rewrite (generateUniqueShortCode_custom custom random w Hcustom).
    simpl default. destruct (link_by_code custom w) eqn:Hfree;
      eexists; (split; [reflexivity|]).
    + split; [intros code [=]|]. split; [|reflexivity].
      intros message [= <-]. left. repeat split. discriminate.
    + split; [intros code [= <-]; exact Hfree|]. split; [intros message [=]|].
      intros _ H. contradiction.
  - rewrite (generateUniqueShortCode_falsy customCode random Htruthy).
    rewrite generateUniqueShortCode_no_custom. unfold bind at 1.
    destruct (rollCodes_run random maxAttempts 0 w) as (r & Hrun & Hr).
    change (0 * SHORT_CODE_LENGTH) with 0 in Hrun. rewrite Hrun.
    destruct r as [code|].
    + destruct Hr as (k & _ & _ & Hfree & _). eexists. split; [reflexivity|].
      split; [intros code' [= <-]; exact Hfree|].
      split; [intros message [=] | discriminate].
    + unfold bind. rewrite getLinkByShortCode_run.
      destruct (link_by_code (longer_attempt random) w) eqn:Hlong;
        eexists; (split; [reflexivity|]).
      * split; [intros code [=]|]. split; [|discriminate].
        intros message [= <-]. right. split; reflexivity.
      * split; [intros code [= <-]; exact Hlong|].
        split; [intros message [=] | discriminate].
Qed.

Section RouteProperties.

Variable createLinkSchema_parse : json -> ParseResult.
Variable new_URL : string -> option URL.
Variable Date_of : jsval -> option Z.
Variable Date_of_json : json -> option Z.
Variable toISOString : Z -> string.
Variable getClientIP : Request -> outcome string.
Variable parseUserAgent : string -> outcome DeviceInfo.
Variable parseReferer : option string -> outcome RefererInfo.
Variable getIPGeolocation : string -> outcome GeolocationResult.

Local Abbreviation run_POST :=
  (LinksRoute.POST createLinkSchema_parse new_URL toISOString).
Local Abbreviation run_redirect :=
  (GET Date_of toISOString getClientIP parseUserAgent parseReferer
     getIPGeolocation).

(** The link that [POST] builds for a parsed input and a short code. *)
Local Abbreviation link_for input code rt :=
  (createTrackingLink (CreateLinkInput.originalUrl input) code
     (CreateLinkInput.title input) (CreateLinkInput.description input)
     (CreateLinkInput.password input) (CreateLinkInput.expiresAt input)
     None (toISOString (now rt)) (freshId rt)).

(** [POST] on a body that parses and passes the two format checks. *)
Lemma POST_run_valid (body : json) (headers : gmap string string)
    (random : nat -> nat) (rt : Runtime) (w : World)
    (input : CreateLinkInput.t) :
  createLinkSchema_parse body = Parsed input ->
  isValidUrl new_URL (CreateLinkInput.originalUrl input) = true ->
  truthy_str (CreateLinkInput.customCode input)
  && negb (isValidCustomCode (default "" (CreateLinkInput.customCode input)))
  = false ->
  run_POST (Ok body) headers random rt w
  = match generateUniqueShortCode (CreateLinkInput.customCode input) random w
    with
    | (Throw message, _) =>
        if String.eqb message "Custom short code already exists"
        then (Ok (LinksRoute.Error "Custom short code already exists" None 409), w)
        else (Ok (LinksRoute.Error "Failed to create link" None 500), w)
    | (Ok shortCode, _) =>
        match write_faults w with
        | true :: rest =>
            (Ok (LinksRoute.Error "Failed to create link" None 500),
             {| links_file := links_file w; clicks_file := clicks_file w;
                write_faults := rest |})
        | _ =>
            (Ok (LinksRoute.Created
                   (hide_password (link_for input shortCode rt))
                   (or_else (headers !! "origin") "http://localhost:3000"
                    ++ "/r/" ++ shortCode)),
             store_at LINKS_FILE
               (rows_of (links_file w) ++ [link_for input shortCode rt])%list
               (tail (write_faults w)) w)
        end
    end.
Proof.
  intros Hparse Hurl Hcustom.
  destruct (generateUniqueShortCode_run (CreateLinkInput.customCode input)
              random w) as (r & Hgen & _).
  rewrite Hgen.
  unfold LinksRoute.POST, try_catch, bind, lift, ret, throw,
    validateCreateLinkData.
  cbv zeta. rewrite Hparse.
  cbn [Validation.isValid Validation.data Validation.errors negb].
  rewrite Hurl, Hcustom. cbn [negb]. rewrite Hgen.
  destruct r as [shortCode|message].
  - rewrite createLink_run, writeJSONFile_run.
    destruct (write_faults w) as [|[] rest]; reflexivity.
  - destruct (String.eqb message "Custom short code already exists");
      reflexivity.
Qed.

(** Every way [POST] can end. *)
Lemma POST_cases (body : outcome json) (headers : gmap string string)
    (random : nat -> nat) (rt : Runtime) (w : World) :
  (exists error details status w',
      run_POST body headers random rt w
      = (Ok (LinksRoute.Error error details status), w')
      /\ links_file w' = links_file w /\ clicks_file w' = clicks_file w
      /\ (status = 400 \/ status = 409 \/ status = 500)
      /\ (status = 409 <->
          exists b input custom,
            body = Ok b /\ createLinkSchema_parse b = Parsed input
            /\ isValidUrl new_URL (CreateLinkInput.originalUrl input) = true
            /\ CreateLinkInput.customCode input = Some custom
            /\ custom <> "" /\ isValidCustomCode custom = true
            /\ link_by_code custom w <> None))
  \/ (exists b input shortCode,
        body = Ok b /\ createLinkSchema_parse b = Parsed input
        /\ link_by_code shortCode w = None
        /\ (forall custom, CreateLinkInput.customCode input = Some custom ->
            custom <> "" ->
            shortCode = custom /\ isValidCustomCode custom = true)
        /\ run_POST body headers random rt w
           = (Ok (LinksRoute.Created
                    (hide_password (link_for input shortCode rt))
                    (or_else (headers !! "origin") "http://localhost:3000"
                     ++ "/r/" ++ shortCode)),
              store_at LINKS_FILE
                (rows_of (links_file w) ++ [link_for input shortCode rt])%list
                (tail (write_faults w)) w)).
Proof.
  destruct body as [b|e].
  2:{ left. exists "Failed to create link", None, 500, w.
      split; [reflexivity|]. split; [reflexivity|]. split; [reflexivity|].
      split; [auto|]. split; [discriminate|].
      intros (b & ? & ? & [=] & _). }
  destruct (createLinkSchema_parse b) as [input|messages|] eqn:Hparse.
  2:{ left. exists "Invalid input data", (Some messages), 400, w.
      split.
      { unfold LinksRoute.POST, try_catch, bind, lift, ret,
          validateCreateLinkData. cbv zeta. rewrite Hparse. reflexivity. }
      split; [reflexivity|]. split; [reflexivity|]. split; [auto|].
      split; [discriminate|].
      intros (b' & ? & ? & [= <-] & Hp & _). congruence. }
  2:{ left. exists "Invalid input data", (Some ["Invalid data"]), 400, w.
      split.
      { unfold LinksRoute.POST, try_catch, bind, lift, ret,
          validateCreateLinkData. cbv zeta. rewrite Hparse. reflexivity. }
      split; [reflexivity|]. split; [reflexivity|]. split; [auto|].
      split; [discriminate|].
      intros (b' & ? & ? & [= <-] & Hp & _). congruence. }
  destruct (isValidUrl new_URL (CreateLinkInput.originalUrl input)) eqn:Hurl.
  2:{ left. exists "Invalid URL format", None, 400, w.
      split.
      { unfold LinksRoute.POST, try_catch, bind, lift, ret,
          validateCreateLinkData. cbv zeta. rewrite Hparse.
        cbn [Validation.isValid Validation.data negb]. rewrite Hurl.
        reflexivity. }
      split; [reflexivity|]. split; [reflexivity|]. split; [auto|].
      split; [discriminate|].
      intros (b' & input' & ? & [= <-] & Hp & Hu & _).
      rewrite Hparse in Hp. injection Hp as <-. congruence. }
  destruct (truthy_str (CreateLinkInput.customCode input)
            && negb (isValidCustomCode
                       (default "" (CreateLinkInput.customCode input))))
    eqn:Hcustom.
  { left. exists "Invalid custom code format", None, 400, w.
    split.
    { unfold LinksRoute.POST, try_catch, bind, lift, ret,
        validateCreateLinkData. cbv zeta. rewrite Hparse.
      cbn [Validation.isValid Validation.data negb]. rewrite Hurl, Hcustom.
      reflexivity. }
    split; [reflexivity|]. split; [reflexivity|]. split; [auto|].
    split; [discriminate|].
    intros (b' & input' & custom & [= <-] & Hp & _ & Hc & _ & Hvalid & _).
    rewrite Hparse in Hp. injection Hp as <-.
    rewrite Hc in Hcustom. simpl in Hcustom. rewrite Hvalid in Hcustom.
    rewrite andb_false_r in Hcustom. discriminate. }
  rewrite (POST_run_valid b headers random rt w input Hparse Hurl Hcustom).
  destruct (generateUniqueShortCode_run (CreateLinkInput.customCode input)
              random w) as (r & Hgen & Hfree & Hthrown & Htaken).
  rewrite Hgen.
  assert (Hformat : forall custom,
            CreateLinkInput.customCode input = Some custom -> custom <> "" ->
            isValidCustomCode custom = true).
  { intros custom Hc Hne. rewrite Hc in Hcustom. simpl in Hcustom.
    apply String.eqb_neq in Hne. rewrite Hne in Hcustom. simpl in Hcustom.
    destruct (isValidCustomCode custom); [reflexivity | discriminate]. }
  destruct r as [shortCode|message].
  - destruct (write_faults w) as [|[] rest] eqn:Hfaults.
    + right. exists b, input, shortCode.
      split; [reflexivity|]. split; [exact Hparse|].
      split; [apply Hfree; reflexivity|]. split; [|reflexivity].
      intros custom Hc Hne. split; [|exact (Hformat custom Hc Hne)].
      rewrite Hc in Hgen.
      rewrite (generateUniqueShortCode_custom custom random w Hne) in Hgen.
      destruct (link_by_code custom w); congruence.
    + left. eexists _, _, 500, _. split; [reflexivity|].
      split; [reflexivity|]. split; [reflexivity|]. split; [auto|].
      split; [discriminate|].
      intros (b' & input' & custom & [= <-] & Hp & _ & Hc & Hne & _ & Hused).
      rewrite Hparse in Hp. injection Hp as <-. rewrite Hc in Htaken.
      apply String.eqb_neq in Hne. simpl in Htaken. rewrite Hne in Htaken.
      specialize (Htaken eq_refl Hused). discriminate.
    + right. exists b, input, shortCode.
      split; [reflexivity|]. split; [exact Hparse|].
      split; [apply Hfree; reflexivity|]. split; [|reflexivity].
      intros custom Hc Hne. split; [|exact (Hformat custom Hc Hne)].
      rewrite Hc in Hgen.
      rewrite (generateUniqueShortCode_custom custom random w Hne) in Hgen.
      destruct (link_by_code custom w); congruence.
  - destruct (Hthrown message eq_refl)
      as [(-> & Htruthy & Hused) | (-> & Htruthy)].
    + left. eexists _, _, 409, w. split; [reflexivity|].
      split; [reflexivity|]. split; [reflexivity|]. split; [auto|].
      split; [intros _ | reflexivity].
      destruct (CreateLinkInput.customCode input) as [custom|] eqn:Hc;
        [|discriminate].
      assert (Hne : custom <> "") by (intros ->; discriminate).
      exists b, input, custom. repeat split; auto.
    + left. eexists _, _, 500, w. split; [reflexivity|].
      split; [reflexivity|]. split; [reflexivity|]. split; [auto|].
      split; [discriminate|].
      intros (b' & input' & custom & [= <-] & Hp & _ & Hc & Hne & _).
      rewrite Hparse in Hp. injection Hp as <-. rewrite Hc in Htruthy.
      apply String.eqb_neq in Hne. simpl in Htruthy. rewrite Hne in Htruthy.
      discriminate.
Qed.

(** The stored link is found again under its code. *)
Lemma lookup_created (link : TrackingLink) (faults : list bool) (w : World) :
  link_by_code (shortCode link) w = None ->
  link_by_code (shortCode link)
    (store_at LINKS_FILE (rows_of (links_file w) ++ [link])%list faults w)
  = Some link.
Proof.
  unfold link_by_code. simpl. intros Hfree. rewrite find_snoc, Hfree.
  rewrite String.eqb_refl. reflexivity.
Qed.

Lemma codes_unique_created (link : TrackingLink) (faults : list bool)
    (w : World) :
  link_by_code (shortCode link) w = None -> codes_unique w ->
  codes_unique
    (store_at LINKS_FILE (rows_of (links_file w) ++ [link])%list faults w).
Proof.
  unfold codes_unique, link_by_code. simpl. intros Hfree Hunique.
  rewrite fmap_app. apply NoDup_app. split; [exact Hunique|].
  split; [|apply NoDup_singleton].
  intros code Hin Hnew. apply list_elem_of_singleton in Hnew as ->.
  apply list_elem_of_fmap in Hin as (other & Hcode & Hother).
  pose proof (find_None_all _ _ Hfree other Hother) as Hne.
  simpl in Hne. rewrite <- Hcode, String.eqb_refl in Hne. discriminate.
Qed.

(** X17.  [POST /api/links] always answers, with 201, 400, 409 or 500, and
    never touches the clicks.  Only a 201 changes the links: it appends one
    link, with zero counters and active, under a short code no stored link
    had, so that short codes that were unique stay unique; the link is found
    under that code afterwards, and the response carries it without its
    password together with [origin/r/code]. *)
Theorem POST_outcomes (body : outcome json) (headers : gmap string string)
    (random : nat -> nat) (rt : Runtime) (w : World) :
  exists response w',
    run_POST body headers random rt w = (Ok response, w')
    /\ clicks_file w' = clicks_file w
    /\ LinksRoute.status_of response ∈ [201; 400; 409; 500]
    /\ (LinksRoute.status_of response <> 201 -> links_file w' = links_file w)
    /\ (codes_unique w -> codes_unique w')
    /\ (LinksRoute.status_of response = 201 ->
        exists link,
          response
          = LinksRoute.Created (hide_password link)
              (or_else (headers !! "origin") "http://localhost:3000"
               ++ "/r/" ++ shortCode link)
          /\ rows_of (links_file w') = (rows_of (links_file w) ++ [link])%list
          /\ link_by_code (shortCode link) w = None
          /\ link_by_code (shortCode link) w' = Some link
          /\ totalClicks link = 0 /\ uniqueClicks link = 0
          /\ isActive link = JBool true).
Proof.
  destruct (POST_cases body headers random rt w)
    as [(error & details & status & w' & Hrun & Hlinks & Hclicks & Hstatus & _)
       |(b & input & code & _ & _ & Hfree & _ & Hrun)].
  - exists (LinksRoute.Error error details status), w'.
    split; [exact Hrun|]. split; [exact Hclicks|].
    split; [simpl; destruct Hstatus as [Hs|[Hs|Hs]]; rewrite Hs;
            repeat constructor|].
    split; [intros _; exact Hlinks|].
    split; [unfold codes_unique; rewrite Hlinks; auto|].
    simpl. intros ->. destruct Hstatus as [|[|]]; discriminate.
  - eexists _, _. split; [exact Hrun|]. split; [reflexivity|].
    split; [simpl; constructor|]. split; [simpl; congruence|].
    split; [apply (codes_unique_created (link_for input code rt)); exact Hfree|].
    intros _. exists (link_for input code rt).
    split; [reflexivity|]. split; [reflexivity|]. split; [exact Hfree|].
    split; [apply (lookup_created (link_for input code rt)); exact Hfree|].
    repeat split.
Qed.

(** X18.  [POST /api/links] answers 409 exactly when the body parses, its
    URL passes [isValidUrl], and it asks for a non-empty custom code of valid
    format that a stored link already has. *)
Theorem POST_conflict (body : outcome json) (headers : gmap string string)
    (random : nat -> nat) (rt : Runtime) (w w' : World)
    (response : LinksRoute.Response) :
  run_POST body headers random rt w = (Ok response, w') ->
  LinksRoute.status_of response = 409
  <-> exists b input custom,
        body = Ok b /\ createLinkSchema_parse b = Parsed input
        /\ isValidUrl new_URL (CreateLinkInput.originalUrl input) = true
        /\ CreateLinkInput.customCode input = Some custom
        /\ custom <> "" /\ isValidCustomCode custom = true
        /\ link_by_code custom w <> None.
Proof.
  destruct (POST_cases body headers random rt w)
    as [(error & details & status & w1 & -> & _ & _ & _ & Hconflict)
       |(b & input & code & Hbody & Hparse & Hfree & Hcustom & ->)].
  - intros [= <- <-]. exact Hconflict.
  - intros [= <- <-]. simpl. split; [discriminate|].
    intros (b' & input' & custom & Hb & Hp & _ & Hc & Hne & _ & Hused).
    rewrite Hbody in Hb. injection Hb as <-. rewrite Hparse in Hp.
    injection Hp as <-. destruct (Hcustom custom Hc Hne) as [-> _].
    contradiction.
Qed.

(** X19.  A link created by [POST] without an expiry can be followed at
    once: the redirect handler answers 302 to the posted URL when the link has
    no password or the request gives that password, and the password prompt
    when the link has a password and the request gives another or none. *)
Theorem POST_then_redirect (b : json) (headers : gmap string string)
    (random : nat -> nat) (rt rt' : Runtime) (w w1 : World)
    (input : CreateLinkInput.t) (data : TrackingLink) (shortUrl : string)
    (request : Request) :
  run_POST (Ok b) headers random rt w
  = (Ok (LinksRoute.Created data shortUrl), w1) ->
  createLinkSchema_parse b = Parsed input ->
  CreateLinkInput.expiresAt input = None ->
  req_shortCode request = shortCode data ->
  exists response w2,
    run_redirect request rt' w1 = (Ok response, w2)
    /\ (truthy_str (CreateLinkInput.password input) = false
        \/ req_password request = CreateLinkInput.password input ->
        response = Redirect (CreateLinkInput.originalUrl input) 302)
    /\ (truthy_str (CreateLinkInput.password input) = true ->
        req_password request <> CreateLinkInput.password input ->
        response = PasswordPrompt (shortCode data)).
Proof.
  intros Hrun Hparse Hexpires Hcode.
  destruct (POST_cases (Ok b) headers random rt w)
    as [(error & details & status & w' & Hrun' & _)
       |(b' & input' & code & [= <-] & Hp & Hfree & _ & Hrun')];
    rewrite Hrun' in Hrun; [discriminate|].
  rewrite Hparse in Hp. injection Hp as <-.
  assert (Hdata : data = hide_password (link_for input code rt))
    by congruence.
  assert (Hw1 : w1 = store_at LINKS_FILE
                       (rows_of (links_file w) ++ [link_for input code rt])%list
                       (tail (write_faults w)) w) by congruence.
  clear Hrun Hrun'. subst data.
  pose proof (lookup_created (link_for input code rt)
                (tail (write_faults w)) w Hfree) as Hfound.
  rewrite <- Hw1 in Hfound. clear Hw1.
  change (shortCode (hide_password (link_for input code rt)))
    with (shortCode (link_for input code rt)) in *.
  destruct (GET_run Date_of toISOString getClientIP parseUserAgent
              parseReferer getIPGeolocation request rt' w1)
    as (w2 & Hget & _).
  rewrite Hcode, Hfound in Hget.
  unfold isLinkExpired, isPasswordProtected in Hget. simpl in Hget.
  rewrite Hexpires in Hget. simpl in Hget.
  eexists _, w2. split; [exact Hget|].
  destruct (CreateLinkInput.password input) as [given|]; simpl.
  - destruct (String.eqb_spec given "") as [->|Hgiven]; simpl.
    + split; [reflexivity | discriminate].
    + split.
      * intros [|Hsame]; [discriminate|]. rewrite Hsame. simpl.
        apply String.eqb_neq in Hgiven. rewrite Hgiven, String.eqb_refl.
        reflexivity.
      * intros _ Hother.
        destruct (req_password request) as [asked|]; simpl; [|reflexivity].
        destruct (String.eqb_spec asked ""); simpl; [reflexivity|].
        destruct (String.eqb_spec given asked) as [->|]; [congruence|].
        reflexivity.
  - split; [reflexivity | discriminate].
Qed.

(** X20.  [DELETE /api/links/{id}] always answers: 404 for an unknown id,
    with nothing written; 500 exactly when the link exists and one of the two
    writes fails; otherwise 200, after which the link and its clicks are gone
    and a second [DELETE] answers 404.  An existing link is thus never
    answered with 500 unless a write fails. *)
Theorem DELETE_outcomes (i : string) (w : World) :
  exists w',
    LinksIdRoute.DELETE i w
    = (Ok match link_by_id i w with
          | None => LinksIdRoute.Error "Link not found" 404
          | Some _ =>
              if write_fails 2 w
              then LinksIdRoute.Error "Failed to delete link" 500
              else LinksIdRoute.Message "Link deleted successfully"
          end, w')
    /\ (link_by_id i w = None -> w' = w)
    /\ (link_by_id i w <> None -> write_fails 2 w = false ->
        link_by_id i w' = None /\ clicks_of i w' = []
        /\ LinksIdRoute.DELETE i w'
           = (Ok (LinksIdRoute.Error "Link not found" 404), w')).
Proof.
  assert (Hunknown : forall w0, link_by_id i w0 = None ->
            LinksIdRoute.DELETE i w0
            = (Ok (LinksIdRoute.Error "Link not found" 404), w0)).
  { intros w0 Hnone. unfold LinksIdRoute.DELETE, try_catch, bind.
    rewrite getLinkById_run, Hnone. reflexivity. }
  destruct (link_by_id i w) as [link|] eqn:Hlink.
  2:{ exists w. split; [apply Hunknown; exact Hlink|].
      split; [reflexivity|]. intros H. contradiction. }
  unfold LinksIdRoute.DELETE, try_catch, bind.
  rewrite getLinkById_run, Hlink, deleteLink_run, Hlink. unfold write_fails.
  destruct (write_faults w) as [|[] [|[] rest]];
    (eexists; split; [reflexivity|]; split; [discriminate|]);
    intros _ Hfails; try discriminate Hfails;
    (assert (Hgone : forall w0,
        rows_of (links_file w0)
        = List.filter (fun link => negb (String.eqb (id link) i))
            (rows_of (links_file w)) ->
        link_by_id i w0 = None)
       by (intros w0 Hrows; unfold link_by_id; rewrite Hrows;
           apply (find_filter_neg (fun l => String.eqb (id l) i)));
     split; [apply Hgone; reflexivity|];
     split; [|apply Hunknown, Hgone; reflexivity]);
    unfold clicks_of; simpl;
    apply (filter_filter_neg (fun click => String.eqb (linkId click) i)).
Qed.

Lemma GET_link_run (i : string) (includeStats : option string)
    (rt : Runtime) (w : World) :
  exists response,
    LinksIdRoute.GET Date_of i includeStats rt w = (Ok response, w)
    /\ match link_by_id i w with
       | None => response = LinksIdRoute.Error "Link not found" 404
       | Some link =>
           exists stats,
             response = LinksIdRoute.Link (hide_password link) stats
             /\ (stats = None <-> includeStats <> Some "true")
             /\ (forall s, stats = Some s ->
                 getLinkStats Date_of i (now rt) w = (Ok s, w))
       end.
Proof.
  unfold LinksIdRoute.GET, try_catch. unfold bind at 1.
  rewrite getLinkById_run.
  destruct (link_by_id i w) as [link|] eqn:Hlink;
    [|eexists; split; reflexivity].
  destruct includeStats as [given|]; cbn [from_option].
  - destruct (String.eqb_spec "true" given) as [<-|Hother].
    + destruct (getLinkStats_run Date_of i (now rt) w link Hlink)
        as (stats & Hstats & _).
      unfold bind. rewrite Hstats. eexists. split; [reflexivity|].
      exists (Some (Some stats)). split; [reflexivity|].
      split; [split; [discriminate | intros H; contradiction]|].
      intros s [= <-]. reflexivity.
    + eexists. split; [reflexivity|]. exists None. split; [reflexivity|].
      split; [split; [congruence | reflexivity] | discriminate].
  - eexists. split; [reflexivity|]. exists None. split; [reflexivity|].
    split; [split; [discriminate | reflexivity] | discriminate].
Qed.

(** X21.  [GET /api/links/{id}] writes nothing and never answers 500: an
    unknown id gives 404, a known one the link without its password.  The
    statistics of [getLinkStats] are attached exactly when the parameter
    [includeStats] is the string [true]; any other value, [TRUE] and [1]
    included, leaves them out. *)
Theorem GET_link_outcomes (i : string) (includeStats : option string)
    (rt : Runtime) (w : World) :
  exists response,
    LinksIdRoute.GET Date_of i includeStats rt w = (Ok response, w)
    /\ match link_by_id i w with
       | None => response = LinksIdRoute.Error "Link not found" 404
       | Some link =>
           exists stats,
             response = LinksIdRoute.Link (hide_password link) stats
             /\ (stats = None <-> includeStats <> Some "true")
             /\ (forall s, stats = Some s ->
                 getLinkStats Date_of i (now rt) w = (Ok s, w))
       end.
Proof. exact (GET_link_run i includeStats rt w). Qed.

(** ** The redirect handler and its tracking *)

Local Abbreviation agent_of request :=
  (or_else (req_headers request !! "user-agent") "").

(** The world after the redirect handler: the one [trackClick] leaves when
    the answer is a 302 to a visitor that is no bot, the same one otherwise. *)
Lemma GET_world (request : Request) (rt : Runtime) (w : World) :
  exists response,
    run_redirect request rt w
    = (Ok response,
       match link_by_code (req_shortCode request) w with
       | Some link =>
           if Nat.eqb (status_of response) 302 && negb (isBot (agent_of request))
           then snd (trackClick toISOString getClientIP parseUserAgent
                       parseReferer getIPGeolocation request (id link)
                       (req_shortCode request) rt w)
           else w
       | None => w
       end)
    /\ (status_of response = 302 ->
        exists link, link_by_code (req_shortCode request) w = Some link
                     /\ response = Redirect (originalUrl link) 302).
Proof.
  unfold GET, try_catch. unfold bind at 1. rewrite getLinkByShortCode_run.
  destruct (link_by_code (req_shortCode request) w) as [link|];
    [|exists (Text "Link not found" 404); split; [reflexivity | discriminate]].
  destruct (negb (truthy (isActive link)));
    [exists (Text "Link is disabled" 410);
     split; [reflexivity | discriminate]|].
  destruct (isLinkExpired Date_of link (now rt));
    [exists (Text "Link has expired" 410);
     split; [reflexivity | discriminate]|].
  match goal with |- context [if ?c then ret (PasswordPrompt _) else _] =>
    destruct c
  end; [exists (PasswordPrompt (req_shortCode request));
        split; [reflexivity | discriminate]|].
  unfold bind. exists (Redirect (originalUrl link) 302).
  destruct (negb (isBot (agent_of request))).
  - destruct (trackClick_never_raises toISOString getClientIP parseUserAgent
                parseReferer getIPGeolocation request (id link)
                (req_shortCode request) rt w) as (w' & Htrack).
    rewrite Htrack. split; [reflexivity|]. intros _. eauto.
  - split; [reflexivity|]. intros _. eauto.
Qed.




(** X22.  The redirect handler writes only when it tracks: a request that is
    not answered by a 302, and any request of a bot, leaves both files and
    the pending write faults exactly as they were. *)
Theorem untracked_requests_write_nothing (request : Request) (rt : Runtime)
    (w w' : World) (response : Response) :
  run_redirect request rt w = (Ok response, w') ->
  status_of response <> 302 \/ isBot (agent_of request) = true ->
  w' = w.
Proof.
  destruct (GET_world request rt w) as (response' & -> & _).
  intros [= <- <-] Hquiet.
  destruct (link_by_code (req_shortCode request) w); [|reflexivity].
  destruct Hquiet as [Hstatus|Hbot].
  - apply Nat.eqb_neq in Hstatus. rewrite Hstatus. reflexivity.
  - rewrite Hbot, andb_false_r. reflexivity.
Qed.


(** ** What the responses show *)

(** X24.  No response of the link routes shows a password: the links listed
    by [GET /api/links], the link returned by [POST], by [GET] and by [PUT]
    on [/api/links/{id}] all have [password] undefined, whatever is stored
    and whatever the body of the [PUT] sets. *)
Theorem responses_hide_passwords (w : World) :
  (forall r w', LinksRoute.GET w = (Ok r, w') ->
     forall l, l ∈ links_shown r -> password l = JUndefined)
  /\ (forall body headers random rt r w',
        run_POST body headers random rt w = (Ok r, w') ->
        forall l, l ∈ links_shown r -> password l = JUndefined)
  /\ (forall i includeStats rt r w',
        LinksIdRoute.GET Date_of i includeStats rt w = (Ok r, w') ->
        forall l, l ∈ link_shown r -> password l = JUndefined)
  /\ (forall i body rt r w',
        PUT Date_of_json toISOString i body rt w = (Ok r, w') ->
        forall l, l ∈ data_shown r -> password l = JUndefined).
Proof.
  split; [|split; [|split]].
  - intros r w'. unfold LinksRoute.GET, try_catch, bind.
    rewrite getAllLinks_run. intros [= <- _] l Hl. simpl in Hl.
    apply list_elem_of_fmap in Hl as (stored & -> & _). reflexivity.
  - intros body headers random rt r w' Hrun l Hl.
    destruct (POST_cases body headers random rt w)
      as [(error & details & status & w1 & Hrun' & _)
         |(b & input & code & _ & _ & _ & _ & Hrun')];
      rewrite Hrun' in Hrun; injection Hrun as <- _; simpl in Hl.
    + inversion Hl.
    + apply list_elem_of_singleton in Hl as ->. reflexivity.
  - intros i includeStats rt r w' Hrun l Hl.
    destruct (GET_link_run i includeStats rt w) as (r' & Hrun' & Hshape).
    rewrite Hrun' in Hrun. injection Hrun as <- _.
    destruct (link_by_id i w) as [link|].
    + destruct Hshape as (stats & -> & _). simpl in Hl.
      apply list_elem_of_singleton in Hl as ->. reflexivity.
    + rewrite Hshape in Hl. inversion Hl.
  - intros i body rt r w' Hrun l Hl.
    destruct body as [body|e].
    2:{ injection Hrun as <- _. inversion Hl. }
    destruct (link_by_id i w) as [link|] eqn:Hlink.
    2:{ rewrite (PUT_run_unknown Date_of_json toISOString i body rt w Hlink) in Hrun.
        injection Hrun as <- _. inversion Hl. }
    destruct (Object_entries body) as [entries|e] eqn:Hentries.
    2:{ unfold PUT, try_catch, bind, lift in Hrun.
        rewrite getLinkById_run, Hlink, Hentries in Hrun.
        injection Hrun as <- _. inversion Hl. }
    destruct (PUT_run_known Date_of_json toISOString i body rt w link entries
                Hlink Hentries) as (index & updates & _ & _ & _ & Hrun').
    rewrite Hrun' in Hrun.
    destruct (expiresAt_rejected Date_of_json (collect_updates entries) (now rt));
      [injection Hrun as <- _; inversion Hl|].
    destruct (write_faults w) as [|[] rest]; injection Hrun as <- _;
      simpl in Hl; try (inversion Hl; fail);
      apply list_elem_of_singleton in Hl as ->; reflexivity.
Qed.

(** ** Updating and then following a link *)




End RouteProperties.

Lemma POST_conflict_witness :
  sample_POST promo_body None promo_store
  = (Ok (LinksRoute.Error "Custom short code already exists" None 409),
     promo_store)
  /\ exists b input custom,
       Ok promo_body = Ok b /\ sample_parse b = Parsed input
       /\ isValidUrl sample_new_URL (CreateLinkInput.originalUrl input) = true
       /\ CreateLinkInput.customCode input = Some custom
       /\ custom <> "" /\ isValidCustomCode custom = true
       /\ link_by_code custom promo_store <> None.
Proof.
  split; [vm_compute; reflexivity|].
  apply (POST_conflict sample_parse sample_new_URL sample_toISOString
           (Ok promo_body) ∅ (fun _ => 0) sample_runtime promo_store
           promo_store
           (LinksRoute.Error "Custom short code already exists" None 409));
    [vm_compute; reflexivity | reflexivity].
Defined.

Lemma POST_then_redirect_witness :
  exists data shortUrl w1 w2,
    sample_POST secret_body None promo_store
    = (Ok (LinksRoute.Created data shortUrl), w1)
    /\ shortUrl = "http://localhost:3000/r/AAAAAAAA"
    /\ sample_GET (request_for "AAAAAAAA" (Some "hunter2") "Mozilla/5.0")
         sample_runtime w1
       = (Ok (Redirect "https://example.org" 302), w2).
Proof.
  pose (run := sample_POST secret_body None promo_store).
  assert (Hrun : run = (Ok (LinksRoute.Created
                              (hide_password
                                 (createTrackingLink "https://example.org"
                                    "AAAAAAAA" None None (Some "hunter2") None
                                    None "2025-06-01T12:00:00.000Z" "c1"))
                              "http://localhost:3000/r/AAAAAAAA"),
                        store_of
                          [promo_link;
                           createTrackingLink "https://example.org" "AAAAAAAA"
                             None None (Some "hunter2") None None
                             "2025-06-01T12:00:00.000Z" "c1"] []))
    by (vm_compute; reflexivity).
  destruct (POST_then_redirect sample_parse sample_new_URL sample_Date_of
              sample_toISOString sample_getClientIP sample_parseUserAgent
              sample_parseReferer sample_geolocation secret_body ∅
              (fun _ => 0) sample_runtime sample_runtime promo_store _
              (sample_input "https://example.org" None (Some "hunter2")) _ _
              (request_for "AAAAAAAA" (Some "hunter2") "Mozilla/5.0")
              Hrun eq_refl eq_refl eq_refl)
    as (response & w2 & Hget & Hopen & _).
  rewrite (Hopen (or_intror eq_refl)) in Hget.
  eexists _, _, _, w2. split; [exact Hrun|]. split; [reflexivity | exact Hget].
Defined.

Lemma untracked_requests_write_nothing_witness :
  isBot "Mozilla/5.0 (compatible; Googlebot/2.1)" = true
  /\ snd (sample_GET crawler_request sample_runtime promo_store) = promo_store.
Proof.
  split; [reflexivity|].
  apply (untracked_requests_write_nothing sample_Date_of sample_toISOString
           sample_getClientIP sample_parseUserAgent sample_parseReferer
           sample_geolocation crawler_request sample_runtime promo_store
           (snd (sample_GET crawler_request sample_runtime promo_store))
           (Redirect "https://example.com" 302));
    [vm_compute; reflexivity | right; vm_compute; reflexivity].
Defined.



(** * Further properties of the request helpers *)

Lemma trimStart_head (s : string) :
  match trimStart s with
  | EmptyString => True
  | String c _ => is_space c = false
  end.
Proof.
  induction s as [|c s IH]; simpl; [exact I|].
  destruct (is_space c) eqn:Hc; [exact IH | exact Hc].
Qed.

Lemma trimEnd_keeps_head (c : ascii) (s : string) :
  is_space c = false -> trimEnd (String c s) = String c (trimEnd s).
Proof. intros Hc. simpl. rewrite Hc. destruct (trimEnd s); reflexivity. Qed.

Lemma trimEnd_cons (c : ascii) (s : string) :
  trimEnd (String c s)
  = match trimEnd s with
    | EmptyString => if is_space c then "" else String c ""
    | kept => String c kept
    end.
Proof. reflexivity. Qed.

Lemma trimEnd_idempotent (s : string) : trimEnd (trimEnd s) = trimEnd s.
Proof.
  induction s as [|c s IH]; [reflexivity|]. rewrite trimEnd_cons.
  destruct (trimEnd s) as [|d kept].
  - destruct (is_space c) eqn:Hc; [reflexivity|]. simpl. rewrite Hc.
    reflexivity.
  - rewrite trimEnd_cons, IH. reflexivity.
Qed.

Lemma trim_idempotent (s : string) : trim (trim s) = trim s.
Proof.
  unfold trim. pose proof (trimStart_head s) as Hhead.
  destruct (trimStart s) as [|c rest]; [reflexivity|].
  rewrite (trimEnd_keeps_head c rest Hhead). simpl trimStart. rewrite Hhead.
  rewrite (trimEnd_keeps_head c _ Hhead), trimEnd_idempotent. reflexivity.
Qed.

Lemma trimEnd_empty (s : string) :
  trimEnd s = "" <-> forallb is_space (list_ascii_of_string s) = true.
Proof.
  induction s as [|c s IH]; simpl; [tauto|].
  destruct (trimEnd s) as [|d kept].
  - destruct (is_space c); simpl; [tauto|]. split; discriminate.
  - split; [discriminate|]. intros H. apply andb_true_iff in H as [_ H].
    apply IH in H. discriminate.
Qed.

Lemma trimStart_spaces (s : string) :
  forallb is_space (list_ascii_of_string (trimStart s))
  = forallb is_space (list_ascii_of_string s).
Proof.
  induction s as [|c s IH]; [reflexivity|]. simpl.
  destruct (is_space c) eqn:Hc; simpl; [exact IH|]. rewrite Hc. reflexivity.
Qed.

Lemma trim_empty (s : string) :
  trim s = "" <-> forallb is_space (list_ascii_of_string s) = true.
Proof. unfold trim. rewrite trimEnd_empty, trimStart_spaces. tauto. Qed.

Lemma trimStart_chars (s : string) (c : ascii) :
  In c (list_ascii_of_string (trimStart s)) -> In c (list_ascii_of_string s).
Proof.
  induction s as [|d s IH]; simpl; [tauto|].
  destruct (is_space d); simpl; tauto.
Qed.

Lemma trimEnd_chars (s : string) (c : ascii) :
  In c (list_ascii_of_string (trimEnd s)) -> In c (list_ascii_of_string s).
Proof.
  induction s as [|d s IH]; simpl; [tauto|].
  destruct (trimEnd s) as [|e kept].
  - destruct (is_space d); simpl; tauto.
  - simpl. simpl in IH. tauto.
Qed.

Lemma before_comma_chars (s : string) :
  ~ In ","%char (list_ascii_of_string (before_comma s)).
Proof.
  induction s as [|c s IH]; simpl; [tauto|].
  destruct (Ascii.eqb_spec c ","); simpl; [tauto|]. intros [H|H]; auto.
Qed.

(** X26.  The address [getClientIP] returns is always trimmed.  It is taken
    from [x-forwarded-for] whenever that header is non-empty, as its first
    comma-separated element: it then holds no comma, and it is the empty
    string, not the next header nor the fallback, exactly when that element is
    blank.  A request on which the three headers are absent or empty gets
    [127.0.0.1]. *)
Theorem getClientIP_result (request : Request) :
  let ip := Geolocation.getClientIP request in
  trim ip = ip
  /\ (forall forwarded,
        req_headers request !! "x-forwarded-for" = Some forwarded ->
        forwarded <> "" ->
        ip = trim (before_comma forwarded)
        /\ ~ In ","%char (list_ascii_of_string ip)
        /\ (ip = "" <->
            forallb is_space (list_ascii_of_string (before_comma forwarded))
            = true))
  /\ (truthy_str (req_headers request !! "x-forwarded-for") = false ->
      truthy_str (req_headers request !! "x-real-ip") = false ->
      truthy_str (req_headers request !! "cf-connecting-ip") = false ->
      ip = "127.0.0.1").
Proof.
  unfold Geolocation.getClientIP. cbv zeta. split; [|split].
  - destruct (truthy_str (req_headers request !! "x-forwarded-for"));
      [apply trim_idempotent|].
    destruct (truthy_str (req_headers request !! "x-real-ip"));
      [apply trim_idempotent|].
    destruct (truthy_str (req_headers request !! "cf-connecting-ip"));
      [apply trim_idempotent | reflexivity].
  - intros forwarded -> Hne. apply String.eqb_neq in Hne.
    unfold truthy_str. rewrite Hne. simpl negb. cbv iota. simpl default.
    split; [reflexivity|]. split; [|apply trim_empty].
    intros Hin. apply (before_comma_chars forwarded).
    apply trimStart_chars, trimEnd_chars. exact Hin.
  - intros -> -> ->. reflexivity.
Qed.

Lemma getClientIP_result_witness :
  Geolocation.getClientIP (proxied_request " 203.0.113.7 , 10.0.0.1")
  = "203.0.113.7"
  /\ Geolocation.getClientIP (proxied_request " ,10.0.0.1") = "".
Proof.
  split; [vm_compute; reflexivity|].
  destruct (getClientIP_result (proxied_request " ,10.0.0.1"))
    as (_ & Hforwarded & _).
  destruct (Hforwarded " ,10.0.0.1") as (_ & _ & Hblank);
    [vm_compute; reflexivity | discriminate|].
  apply Hblank. reflexivity.
Defined.

(** X27.  Combining the two lookups fails only when both failed: the result
    carries an error exactly when the IP lookup has one and the browser
    position is absent or has one too.  When neither has an error the result
    is marked [both], takes the place names from the IP lookup and the
    accuracy from the browser; the browser's latitude is used unless it is
    absent or zero, a position on the equator being replaced by the IP
    lookup's latitude. *)
Theorem getCombinedGeolocation_result (ipLocation : GeolocationResult)
    (browserLocation : option GeolocationResult) :
  let result := Geolocation.getCombinedGeolocation ipLocation browserLocation in
  (truthy_str (geo_error result) = true
   <-> truthy_str (geo_error ipLocation) = true
       /\ from_option (fun b => truthy_str (geo_error b)) true browserLocation
          = true)
  /\ (forall b,
        browserLocation = Some b ->
        truthy_str (geo_error b) = false ->
        truthy_str (geo_error ipLocation) = false ->
        geo_source result = src_both
        /\ geo_country result = geo_country ipLocation
        /\ geo_city result = geo_city ipLocation
        /\ geo_accuracy result = geo_accuracy b
        /\ (forall q, geo_latitude b = Some q -> ~ (q == 0)%Q ->
            geo_latitude result = Some q)
        /\ (forall q, geo_latitude b = Some q -> (q == 0)%Q ->
            geo_latitude result = geo_latitude ipLocation)
        /\ (geo_latitude b = None ->
            geo_latitude result = geo_latitude ipLocation)).
Proof.
  unfold Geolocation.getCombinedGeolocation. cbv zeta. split.
  - destruct browserLocation as [b|]; simpl from_option.
    + destruct (truthy_str (geo_error b)) eqn:Hb; [tauto|].
      destruct (truthy_str (geo_error ipLocation)) eqn:Hip.
      * rewrite Hb. split; [discriminate | intros [_ H]; discriminate H].
      * simpl. split; [discriminate | intros [H _]; discriminate H].
    + tauto.
  - intros b -> Hb Hip. rewrite Hb, Hip. simpl.
    split; [reflexivity|]. split; [reflexivity|]. split; [reflexivity|].
    split; [reflexivity|]. unfold Geolocation.or_number.
    split; [|split].
    + intros q -> Hq. destruct (Qeq_bool q 0) eqn:Hzero; [|reflexivity].
      apply Qeq_bool_iff in Hzero. contradiction.
    + intros q -> Hq. apply Qeq_bool_iff in Hq. rewrite Hq. reflexivity.
    + intros ->. reflexivity.
Qed.

Lemma any_unit_between (lo hi : N) (s : code_units) :
  any_unit (unit_between lo hi) s = true
  <-> exists c, c ∈ s /\ (lo <= c <= hi)%N.
Proof.
  unfold any_unit, unit_between. rewrite existsb_exists. split.
  - intros (c & Hin & Hc). apply andb_true_iff in Hc as [Hlo Hhi].
    apply N.leb_le in Hlo, Hhi. exists c. rewrite list_elem_of_In. auto.
  - intros (c & Hin & Hlo & Hhi). exists c. rewrite <- list_elem_of_In.
    split; [exact Hin|]. apply andb_true_iff. split; apply N.leb_le; assumption.
Qed.

Lemma any_unit_special (s : code_units) :
  any_unit is_special_unit s = true
  <-> exists c, c ∈ s /\ c ∈ special_units.
Proof.
  unfold any_unit, is_special_unit. rewrite existsb_exists. split.
  - intros (c & Hin & Hc). apply existsb_exists in Hc as (d & Hd & Heq).
    apply N.eqb_eq in Heq. subst d. exists c. rewrite !list_elem_of_In. auto.
  - intros (c & Hin & Hc). exists c. rewrite <- list_elem_of_In.
    split; [exact Hin|]. apply existsb_exists. exists c.
    rewrite <- list_elem_of_In. split; [exact Hc | apply N.eqb_refl].
Qed.

(** X28.  [validatePassword] accepts a password exactly when it has at least
    eight UTF-16 code units and holds an uppercase letter, a lowercase
    letter, a digit (all ASCII) and one of the listed special characters; it
    is then, and only then, rated strong and free of issues.  One or two
    failed checks rate it medium, three or more weak, so no password of fewer
    than eight code units is ever valid or strong. *)
Theorem validatePassword_verdict (password : code_units) :
  let check := validatePassword password in
  (PasswordCheck.isValid check = true
   <-> (8 <= length password)%nat
       /\ (exists c, c ∈ password /\ (65 <= c <= 90)%N)
       /\ (exists c, c ∈ password /\ (97 <= c <= 122)%N)
       /\ (exists c, c ∈ password /\ (48 <= c <= 57)%N)
       /\ (exists c, c ∈ password /\ c ∈ special_units))
  /\ (PasswordCheck.isValid check = true <-> PasswordCheck.issues check = [])
  /\ (PasswordCheck.strength check = strong
      <-> PasswordCheck.isValid check = true)
  /\ (PasswordCheck.strength check = medium
      <-> (1 <= length (PasswordCheck.issues check) <= 2)%nat)
  /\ (PasswordCheck.strength check = weak
      <-> (3 <= length (PasswordCheck.issues check) <= 5)%nat).
Proof.
  cbv zeta.
  rewrite <- (any_unit_between 65 90 password),
    <- (any_unit_between 97 122 password),
    <- (any_unit_between 48 57 password), <- (any_unit_special password).
  unfold validatePassword. cbv zeta.
  destruct (Nat.ltb_spec (length password) 8) as [Hshort|Hlong];
    destruct (any_unit (unit_between 65 90) password);
    destruct (any_unit (unit_between 97 122) password);
    destruct (any_unit (unit_between 48 57) password);
    destruct (any_unit is_special_unit password);
    simpl; repeat split; intros; try discriminate; try reflexivity;
    try lia; try tauto;
    repeat match goal with
           | H : _ /\ _ |- _ => destruct H
           end; try discriminate; try lia.
Qed.

(** A password of seven characters, three of them Greek letters: seven code
    units, hence too short, whatever its length in bytes. *)
Example validatePassword_greek :
  validatePassword [65; 97; 49; 33; 945; 946; 947]%N
  = {| PasswordCheck.isValid := false; PasswordCheck.strength := medium;
       PasswordCheck.issues :=
         ["Password should be at least 8 characters long"] |}.
Proof. reflexivity. Qed.

Lemma substring_prefix_app (p b : string) :
  substring 0 (String.length p) (p ++ b) = p.
Proof.
  induction p as [|c p IH]; simpl; [destruct b; reflexivity|].
  rewrite IH. reflexivity.
Qed.

Lemma substring_middle (a p b : string) :
  substring (String.length a) (String.length p) (a ++ p ++ b) = p.
Proof.
  induction a as [|c a IH]; [exact (substring_prefix_app p b) | exact IH].
Qed.

Lemma substring_prefix_split (n : nat) (s p : string) :
  substring 0 n s = p -> String.length p = n -> exists b, s = p ++ b.
Proof.
  revert s p. induction n as [|n IH]; intros s p.
  - destruct s; simpl; intros <- _; eexists; reflexivity.
  - destruct s as [|c s]; simpl; [intros <-; discriminate|].
    intros <- Hlength. simpl in Hlength. injection Hlength as Hlength.
    destruct (IH s _ eq_refl Hlength) as (b & Hb). exists b.
    change (String c s = String c (substring 0 n s ++ b)).
    f_equal. exact Hb.
Qed.

Lemma substring_split (m n : nat) (s p : string) :
  substring m n s = p -> String.length p = n ->
  exists a b, s = a ++ p ++ b.
Proof.
  revert s. induction m as [|m IH]; intros s Hsub Hlength.
  - destruct (substring_prefix_split n s p Hsub Hlength) as (b & ->).
    exists "", b. reflexivity.
  - destruct s as [|c s].
    + simpl in Hsub. subst p. exists "", "". reflexivity.
    + simpl in Hsub. destruct (IH s Hsub Hlength) as (a & b & ->).
      exists (String c a), b. reflexivity.
Qed.

Lemma includes_iff (s pattern : string) :
  pattern <> "" ->
  includes s pattern = true <-> exists a b, s = a ++ pattern ++ b.
Proof.
  intros Hne. unfold includes. split.
  - destruct (index 0 pattern s) as [m|] eqn:Hindex; [|discriminate].
    intros _. apply index_correct1 in Hindex.
    exact (substring_split m _ s pattern Hindex eq_refl).
  - intros (a & b & ->).
    destruct (index 0 pattern (a ++ pattern ++ b)) eqn:Hindex; [reflexivity|].
    exfalso.
    apply (index_correct3 0 (String.length a) pattern _ Hindex Hne);
      [lia | apply substring_middle].
Qed.

(** X29.  [isBot] holds exactly when the user agent, its ASCII letters
    lowered, contains one of the nineteen patterns somewhere: before, after
    or inside a word.  So every agent that contains [bot], [google] or
    [facebook] in any letter case counts as a bot, a browser's included. *)
Theorem isBot_iff_pattern_inside (userAgent : string) :
  isBot userAgent = true
  <-> exists pattern before after,
        In pattern botPatterns
        /\ toLowerCase userAgent = before ++ pattern ++ after.
Proof.
  unfold isBot. cbv zeta. rewrite existsb_exists. split.
  - intros (pattern & Hin & Hinside).
    assert (Hne : pattern <> "")
      by (intros ->; simpl in Hin; intuition discriminate).
    apply (includes_iff _ _ Hne) in Hinside as (a & b & Hsplit).
    exists pattern, a, b. auto.
  - intros (pattern & a & b & Hin & Hsplit). exists pattern.
    split; [exact Hin|].
    assert (Hne : pattern <> "")
      by (intros ->; simpl in Hin; intuition discriminate).
    apply (includes_iff _ _ Hne). eauto.
Qed.
